(** * A shallow embedding of the [@springrole/logger] facade.

    Two variants of the package live in the repository:
    - [src/lib/logger.js], the older one (Loggly + CloudWatch), embedded
      in [Module LoggerV1];
    - [src/unnamed/part_001], the later one (CloudWatch, webhook alerts,
      sampling policy), embedded in [Module LoggerV2].

    What both files share verbatim ([#formatMessage], the [logStreamName]
    closure, the severity table) is embedded once, before the two modules.

    JavaScript values are an inductive type; a call that can throw returns
    [result], an error monad over the exceptions the code can raise. *)

From Stdlib Require Import ZArith QArith List String Ascii Bool Lia.
From Stdlib Require Import Numbers.DecimalString.
Import ListNotations.

Set Warnings "-register-all".

Open Scope string_scope.
Open Scope Z_scope.

(* ================================================================= *)
(** ** Exceptions and the error monad *)

Inductive exn : Type :=
| Error (msg : string)          (* [new Error(msg)] *)
| TypeError (msg : string)      (* raised by the language or its library *)
| SyntaxError (msg : string)    (* raised by [JSON.parse] *)
| NetworkError (msg : string).  (* a rejected HTTP request *)

Inductive result (A : Type) : Type :=
| Ok (a : A)
| Throw (e : exn).

Arguments Ok {A} a.
Arguments Throw {A} e.

Definition bind {A B : Type} (r : result A) (k : A -> result B) : result B :=
  match r with
  | Ok a => k a
  | Throw e => Throw e
  end.

Notation "x <- r ;; k" := (bind r (fun x => k))
  (at level 61, r at next level, right associativity).

Definition succeeds {A : Type} (r : result A) : Prop := exists a, r = Ok a.

(* ================================================================= *)
(** ** Characters that a string literal cannot spell *)

Definition nl : string := String "010"%char EmptyString.
Definition dquote : string := String "034"%char EmptyString.
Definition backslash : string := String "092"%char EmptyString.

(* ================================================================= *)
(** ** JavaScript values

    Objects are plain data objects, their own properties listed in
    enumeration order, each key once; they inherit from
    [Object.prototype] and may shadow its methods ([toString], [valueOf])
    with members of their own. A function is known by its source text and
    by the value a call of it returns, whatever its arguments; a call has
    no other effect. An [Error] instance keeps [name], [message] and
    [stack], none of them enumerable. Arrays, functions and [Error]
    instances carry no further properties of their own. *)

Inductive value : Type :=
| VUndef
| VNull
| VBool (b : bool)
| VNum (n : Z)
| VBigInt (n : Z)
| VStr (s : string)
| VSym (description : string)
| VFun (source : string) (returns : value)
| VErr (name message : string) (stack : option string)
| VArr (elems : list value)
| VObj (props : list (string * value)).

Definition obj : Type := list (string * value).

(** An optional string argument: [None] is [undefined]. *)
Definition ofOpt (o : option string) : value :=
  match o with
  | Some s => VStr s
  | None => VUndef
  end.

Definition string_of_Z (n : Z) : string := NilZero.string_of_int (Z.to_int n).

(** *** Numbers

    [VNum n] is the Number that a numeric literal with the digits of [n]
    denotes: [n] rounded to the nearest binary64 value, ties to even.
    Every integer of magnitude up to 2^53 is its own Number. *)

(** The magnitude [a] rounded to 53 significant bits, ties to even. *)
Definition round53 (a : Z) : Z :=
  let e := Z.log2 a - 52 in
  if e <=? 0 then a
  else
    let q := a / 2 ^ e in
    let r := a mod 2 ^ e in
    let half := 2 ^ (e - 1) in
    if (half <? r) || ((r =? half) && Z.odd q)
    then (q + 1) * 2 ^ e
    else q * 2 ^ e.

(** Magnitudes that round to 2^1024 or more are [Infinity]. *)
Definition overflows (a : Z) : bool := 1024 <=? Z.log2 (round53 a).

(** The integer with the fewest significant digits that rounds to the
    Number [x], the closest to [x] if there are several: [digits] is the
    count of decimal digits of [x], and the candidates with [k]
    significant digits are the two multiples of [10^(digits - k)] next to
    [x]. *)
Fixpoint shortest (digits : nat) (x : Z) : Z :=
  match digits with
  | O => x
  | S d =>
      let p := 10 ^ Z.of_nat d in
      let lo := x / p * p in
      let hi := lo + p in
      match round53 lo =? x, round53 hi =? x with
      | true, true =>
          if x - lo <? hi - x then lo
          else if hi - x <? x - lo then hi
          else if Z.even (x / p) then lo else hi
      | true, false => lo
      | false, true => hi
      | false, false => shortest d x
      end
  end.

Fixpoint trimZeros (s : string) : string :=
  match s with
  | EmptyString => EmptyString
  | String c tl =>
      match trimZeros tl with
      | EmptyString =>
          if Ascii.eqb c "0" then EmptyString else String c EmptyString
      | t => String c t
      end
  end.

(** The digits [ds] of an integer in exponential notation. *)
Definition exponential (ds : string) : string :=
  let e := string_of_Z (Z.of_nat (String.length ds) - 1) in
  match trimZeros ds with
  | EmptyString => "0"
  | String d EmptyString => String d ("e+" ++ e)
  | String d rest => String d ("." ++ rest ++ "e+" ++ e)
  end.

(** Number::toString, radix 10: the shortest digits that denote the
    Number, in plain decimal up to 21 digits and in exponential notation
    beyond. *)
Definition NumberToString (n : Z) : string :=
  let a := Z.abs n in
  let sign := if n <? 0 then "-" else "" in
  if overflows a then sign ++ "Infinity"
  else
    let x := round53 a in
    let ds := string_of_Z (shortest (String.length (string_of_Z x)) x) in
    sign ++ (if Nat.leb (String.length ds) 21 then ds else exponential ds).

(** ToBoolean. *)
Definition truthy (v : value) : bool :=
  match v with
  | VUndef | VNull => false
  | VBool b => b
  | VNum n | VBigInt n => negb (n =? 0)
  | VStr s => negb (s =? "")%string
  | _ => true
  end.

Definition truthyOpt (o : option string) : bool := truthy (ofOpt o).

(** [Error.prototype.toString]. *)
Definition errorToString (name message : string) : string :=
  if (name =? "")%string then message
  else if (message =? "")%string then name
  else name ++ ": " ++ message.

Fixpoint lookup (k : string) (o : obj) : option value :=
  match o with
  | [] => None
  | (k', v) :: tl => if (k =? k')%string then Some v else lookup k tl
  end.

Definition is_primitive (v : value) : bool :=
  match v with
  | VFun _ _ | VErr _ _ _ | VArr _ | VObj _ => false
  | _ => true
  end.

(** ToString of a primitive value. *)
Definition primitiveToString (v : value) : result string :=
  match v with
  | VUndef => Ok "undefined"
  | VNull => Ok "null"
  | VBool true => Ok "true"
  | VBool false => Ok "false"
  | VNum n => Ok (NumberToString n)
  | VBigInt n => Ok (string_of_Z n)
  | VStr s => Ok s
  | _ => Throw (TypeError "Cannot convert a Symbol value to a string")
  end.

(** [Get(O, name)] followed by [Call] when what is found is callable: the
    member of that name if the object has one, the method of
    [Object.prototype], which returns [inherited], otherwise. *)
Definition callMethod (o : obj) (name : string) (inherited : value)
  : option value :=
  match lookup name o with
  | Some (VFun _ returns) => Some returns
  | Some _ => None
  | None => Some inherited
  end.

(** OrdinaryToPrimitive with the hint "string": [toString], then
    [valueOf], whichever is callable and returns a primitive first.
    [Object.prototype.toString] returns "[object Object]" and
    [Object.prototype.valueOf] the object itself. *)
Definition OrdinaryToPrimitive (o : obj) : result value :=
  let primitive (r : option value) : option value :=
    match r with
    | Some v => if is_primitive v then Some v else None
    | None => None
    end in
  match primitive (callMethod o "toString" (VStr "[object Object]")) with
  | Some v => Ok v
  | None =>
      match primitive (callMethod o "valueOf" (VObj o)) with
      | Some v => Ok v
      | None => Throw (TypeError "Cannot convert object to primitive value")
      end
  end.

(** ToString, as a template literal applies it. *)
Fixpoint ToString (v : value) : result string :=
  match v with
  | VFun src _ => Ok src
  | VErr name message _ => Ok (errorToString name message)
  | VArr elems =>
      (fix join (l : list value) : result string :=
         match l with
         | [] => Ok ""
         | x :: tl =>
             s <- match x with
                  | VUndef | VNull => Ok ""
                  | _ => ToString x
                  end ;;
             match tl with
             | [] => Ok s
             | _ => r <- join tl ;; Ok (s ++ "," ++ r)
             end
         end) elems
  | VObj props => p <- OrdinaryToPrimitive props ;; primitiveToString p
  | _ => primitiveToString v
  end.

(** [v?.toString()]: the method call behind an optional chain. An object
    answers with its own [toString] member when it has one, which must
    then be callable. *)
Definition optToString (v : value) : result value :=
  match v with
  | VUndef | VNull => Ok VUndef
  | VSym d => Ok (VStr ("Symbol(" ++ d ++ ")"))
  | VObj o =>
      match lookup "toString" o with
      | None => Ok (VStr "[object Object]")
      | Some (VFun _ returns) => Ok returns
      | Some _ => Throw (TypeError "toString is not a function")
      end
  | _ => s <- ToString v ;; Ok (VStr s)
  end.

(** [v.toString()]: the unguarded method call. *)
Definition callToString (v : value) : result value :=
  match v with
  | VUndef =>
      Throw (TypeError "Cannot read properties of undefined (reading 'toString')")
  | VNull =>
      Throw (TypeError "Cannot read properties of null (reading 'toString')")
  | _ => optToString v
  end.

(** [v?.k] for the data properties the code reads ([message], [stack]). *)
Definition optGet (v : value) (k : string) : value :=
  match v with
  | VObj o => match lookup k o with Some x => x | None => VUndef end
  | VErr name message stack =>
      if (k =? "message")%string then VStr message
      else if (k =? "name")%string then VStr name
      else if (k =? "stack")%string then
        match stack with Some s => VStr s | None => VUndef end
      else VUndef
  | _ => VUndef
  end.

(** [v.k]: reading a property of [undefined] or [null] throws. *)
Definition get (v : value) (k : string) : result value :=
  match v with
  | VUndef =>
      Throw (TypeError ("Cannot read properties of undefined (reading '" ++ k ++ "')"))
  | VNull =>
      Throw (TypeError ("Cannot read properties of null (reading '" ++ k ++ "')"))
  | _ => Ok (optGet v k)
  end.

(* ================================================================= *)
(** ** [String.prototype.includes] *)

Fixpoint includes (s pat : string) : bool :=
  String.prefix pat s ||
  match s with
  | EmptyString => false
  | String _ s' => includes s' pat
  end.

(** [pat] occurs in [s] as a contiguous run of characters. *)
Definition substring_of (pat s : string) : Prop :=
  exists before after, s = before ++ pat ++ after.

(** [arr.some(p)]. *)
Definition some {A : Type} (p : A -> bool) (l : list A) : bool := existsb p l.

(* ================================================================= *)
(** ** JSON

    [JSON.stringify] first decides what is serialized (the tree [toJSON]
    builds: an object with a callable [toJSON] member is replaced by what
    the call returns; members whose value is [undefined], a function or a
    symbol are left out of objects and become [null] in arrays; a number
    that is not finite becomes [null]; a BigInt throws), then prints it.
    [JSON.parse] reads the printed text back to that tree, so
    [JSON.parse(JSON.stringify(v))] is the tree itself. *)

Inductive json : Type :=
| JNull
| JBool (b : bool)
| JNum (n : Z)
| JStr (s : string)
| JArr (elems : list json)
| JObj (members : list (string * json)).

Definition bigint_unserializable : exn :=
  TypeError "Do not know how to serialize a BigInt".

(** SerializeJSONProperty, up to printing: [None] is [undefined]. The
    value a [toJSON] member returns is serialized without a second look
    for such a member ([callToJSON] is off), the values it holds are with
    it. *)
Fixpoint SerializeJSONProperty (callToJSON : bool) (v : value)
  : result (option json) :=
  match v with
  | VUndef | VFun _ _ | VSym _ => Ok None
  | VNull => Ok (Some JNull)
  | VBool b => Ok (Some (JBool b))
  | VNum n => Ok (Some (if overflows (Z.abs n) then JNull else JNum n))
  | VBigInt _ => Throw bigint_unserializable
  | VStr s => Ok (Some (JStr s))
  | VErr _ _ _ => Ok (Some (JObj []))
  | VArr elems =>
      l <- (fix items (l : list value) : result (list json) :=
              match l with
              | [] => Ok []
              | x :: tl =>
                  oj <- SerializeJSONProperty true x ;;
                  r <- items tl ;;
                  Ok (match oj with Some j => j | None => JNull end :: r)
              end) elems ;;
      Ok (Some (JArr l))
  | VObj props =>
      let returned :=
        if callToJSON
        then (fix returned (l : list (string * value))
                : option (result (option json)) :=
                match l with
                | [] => None
                | (k, x) :: tl =>
                    if ("toJSON" =? k)%string
                    then match x with
                         | VFun _ returns =>
                             Some (SerializeJSONProperty false returns)
                         | _ => None
                         end
                    else returned tl
                end) props
        else None in
      match returned with
      | Some r => r
      | None =>
          l <- (fix members (l : list (string * value))
                  : result (list (string * json)) :=
                  match l with
                  | [] => Ok []
                  | (k, x) :: tl =>
                      oj <- SerializeJSONProperty true x ;;
                      r <- members tl ;;
                      Ok (match oj with Some j => (k, j) :: r | None => r end)
                  end) props ;;
          Ok (Some (JObj l))
      end
  end.

Definition toJSON (v : value) : result (option json) :=
  SerializeJSONProperty true v.

Definition hexDigit (n : nat) : ascii :=
  if Nat.ltb n 10 then ascii_of_nat (48 + n) else ascii_of_nat (87 + n).

(** One character of QuoteJSONString. *)
Definition quoteChar (c : ascii) : string :=
  let n := nat_of_ascii c in
  if Nat.eqb n 34 then backslash ++ dquote
  else if Nat.eqb n 92 then backslash ++ backslash
  else if Nat.eqb n 8 then backslash ++ "b"
  else if Nat.eqb n 9 then backslash ++ "t"
  else if Nat.eqb n 10 then backslash ++ "n"
  else if Nat.eqb n 12 then backslash ++ "f"
  else if Nat.eqb n 13 then backslash ++ "r"
  else if Nat.ltb n 32 then
    backslash ++ "u00" ++
    String (hexDigit (Nat.div n 16)) (String (hexDigit (Nat.modulo n 16)) "")
  else String c "".

Fixpoint quoteBody (s : string) : string :=
  match s with
  | EmptyString => ""
  | String c tl => quoteChar c ++ quoteBody tl
  end.

Definition quoteJSON (s : string) : string := dquote ++ quoteBody s ++ dquote.

(** The printing half of SerializeJSONProperty, [gap] being the indentation
    unit and [indent] the current indentation. *)
Fixpoint render (gap indent : string) (j : json) : string :=
  let stepback := indent in
  let indent := indent ++ gap in
  let wrap (opening closing : string) (partial : list string) : string :=
    match partial with
    | [] => opening ++ closing
    | _ =>
        if (gap =? "")%string
        then opening ++ String.concat "," partial ++ closing
        else opening ++ nl ++ indent
             ++ String.concat ("," ++ nl ++ indent) partial
             ++ nl ++ stepback ++ closing
    end in
  match j with
  | JNull => "null"
  | JBool true => "true"
  | JBool false => "false"
  | JNum n => NumberToString n
  | JStr s => quoteJSON s
  | JArr elems =>
      wrap "[" "]"
        ((fix items (l : list json) : list string :=
            match l with
            | [] => []
            | x :: tl => render gap indent x :: items tl
            end) elems)
  | JObj members =>
      wrap "{" "}"
        ((fix props (l : list (string * json)) : list string :=
            match l with
            | [] => []
            | (k, x) :: tl =>
                (quoteJSON k ++ ":"
                 ++ (if (gap =? "")%string then "" else " ")
                 ++ render gap indent x) :: props tl
            end) members)
  end.

Fixpoint spaces (n : nat) : string :=
  match n with
  | O => ""
  | S n' => " " ++ spaces n'
  end.

(** [JSON.stringify(v, null, space)] for a numeric [space] (at most 10). *)
Definition JSON_stringify (v : value) (space : nat) : result (option string) :=
  oj <- toJSON v ;;
  Ok (option_map (render (spaces (Nat.min space 10)) "") oj).

(** [JSON.parse(JSON.stringify(v))]. *)
Definition JSON_parse_stringify (v : value) : result json :=
  oj <- toJSON v ;;
  match oj with
  | Some j => Ok j
  | None => Throw (SyntaxError "undefined is not valid JSON")
  end.

(** [lodash.isempty] on what [JSON.parse] returns. *)
Definition isEmpty (j : json) : bool :=
  match j with
  | JStr s => (s =? "")%string
  | JArr [] => true
  | JArr _ => false
  | JObj [] => true
  | JObj _ => false
  | _ => true
  end.

(** [lodash.omit(o, ...keys)]. *)
Definition omit (o : obj) (keys : list string) : obj :=
  filter (fun kv => negb (existsb (String.eqb (fst kv)) keys)) o.

(* ================================================================= *)
(** ** [#formatMessage], the same text in both variants *)

Definition formatMessage (info : obj) : result string :=
  let meta := omit info ["timestamp"; "message"; "level"] in
  parsed <- JSON_parse_stringify (VObj meta) ;;
  timestamp <- ToString (optGet (VObj info) "timestamp") ;;
  level <- ToString (optGet (VObj info) "level") ;;
  message <- ToString (optGet (VObj info) "message") ;;
  if isEmpty parsed
  then Ok (timestamp ++ " " ++ level ++ ": " ++ message)
  else
    pretty <- JSON_stringify (VObj meta) 2 ;;
    block <- ToString (ofOpt pretty) ;;
    Ok (timestamp ++ " " ++ level ++ ": " ++ message ++ nl ++ block).

(* ================================================================= *)
(** ** [new Date().toISOString()]

    A time value is the count of milliseconds since the epoch, as an
    integer. The day arithmetic is that of ECMA-262 (Day, DayFromYear,
    YearFromTime, MonthFromTime, DateFromTime); only [YearFromTime], which
    the standard gives as "the largest year whose start is not after [t]",
    is computed: from an estimate that is at most one year off. *)

Module DateTime.

Definition msPerDay : Z := 86400000.
Definition msPerHour : Z := 3600000.
Definition msPerMinute : Z := 60000.
Definition msPerSecond : Z := 1000.

Definition Day (t : Z) : Z := t / msPerDay.

Definition DayFromYear (y : Z) : Z :=
  365 * (y - 1970) + (y - 1969) / 4 - (y - 1901) / 100 + (y - 1601) / 400.

Definition DaysInYear (y : Z) : Z :=
  if negb (y mod 4 =? 0) then 365
  else if negb (y mod 100 =? 0) then 366
  else if negb (y mod 400 =? 0) then 365
  else 366.

Definition yearFromDay (d : Z) : Z :=
  let y0 := 1970 + (400 * d) / 146097 in
  if d <? DayFromYear y0 then y0 - 1
  else if DayFromYear (y0 + 1) <=? d then y0 + 1
  else y0.

Definition YearFromTime (t : Z) : Z := yearFromDay (Day t).

Definition InLeapYear (t : Z) : Z :=
  if DaysInYear (YearFromTime t) =? 366 then 1 else 0.

Definition DayWithinYear (t : Z) : Z := Day t - DayFromYear (YearFromTime t).

(** Months count from 0, as in the standard. *)
Definition MonthFromTime (t : Z) : Z :=
  let d := DayWithinYear t in
  let leap := InLeapYear t in
  if d <? 31 then 0
  else if d <? 59 + leap then 1
  else if d <? 90 + leap then 2
  else if d <? 120 + leap then 3
  else if d <? 151 + leap then 4
  else if d <? 181 + leap then 5
  else if d <? 212 + leap then 6
  else if d <? 243 + leap then 7
  else if d <? 273 + leap then 8
  else if d <? 304 + leap then 9
  else if d <? 334 + leap then 10
  else 11.

Definition DateFromTime (t : Z) : Z :=
  let d := DayWithinYear t in
  let leap := InLeapYear t in
  match MonthFromTime t with
  | 0 => d + 1
  | 1 => d - 30
  | 2 => d - 58 - leap
  | 3 => d - 89 - leap
  | 4 => d - 119 - leap
  | 5 => d - 150 - leap
  | 6 => d - 180 - leap
  | 7 => d - 211 - leap
  | 8 => d - 242 - leap
  | 9 => d - 272 - leap
  | 10 => d - 303 - leap
  | _ => d - 333 - leap
  end.

Definition HourFromTime (t : Z) : Z := (t / msPerHour) mod 24.
Definition MinFromTime (t : Z) : Z := (t / msPerMinute) mod 60.
Definition SecFromTime (t : Z) : Z := (t / msPerSecond) mod 60.
Definition msFromTime (t : Z) : Z := t mod msPerSecond.

Definition digit (n : Z) : ascii := ascii_of_nat (48 + Z.to_nat (n mod 10)).

Definition pad2 (n : Z) : string :=
  String (digit (n / 10)) (String (digit n) "").

Definition pad3 (n : Z) : string := String (digit (n / 100)) (pad2 n).

Definition pad4 (n : Z) : string := String (digit (n / 1000)) (pad3 n).

Definition pad6 (n : Z) : string :=
  String (digit (n / 100000)) (String (digit (n / 10000)) (pad4 n)).

(** Four digits for the years 0 to 9999, a sign and six digits otherwise. *)
Definition isoYear (y : Z) : string :=
  if (0 <=? y) && (y <=? 9999) then pad4 y
  else (if y <? 0 then "-" else "+") ++ pad6 (Z.abs y).

(** The calendar date of [t] in UTC, as [YYYY-MM-DD]. *)
Definition isoDate (t : Z) : string :=
  isoYear (YearFromTime t) ++ "-" ++ pad2 (MonthFromTime t + 1)
  ++ "-" ++ pad2 (DateFromTime t).

Definition isoTime (t : Z) : string :=
  pad2 (HourFromTime t) ++ ":" ++ pad2 (MinFromTime t) ++ ":"
  ++ pad2 (SecFromTime t) ++ "." ++ pad3 (msFromTime t) ++ "Z".

Definition toISOString (t : Z) : string := isoDate t ++ "T" ++ isoTime t.

End DateTime.

(** [s.split(sep)[0]]: what stands before the first [sep] in [s]. *)
Fixpoint splitHead (s sep : string) : string :=
  if String.prefix sep s then ""
  else match s with
       | EmptyString => ""
       | String c tl => String c (splitHead tl sep)
       end.

(** The [logStreamName] closure handed to the CloudWatch transport; [now]
    is the clock reading [new Date()] takes when the closure is called. *)
Definition logStreamName (tag : string) (now : Z) : string :=
  let date := splitHead (DateTime.toISOString now) "T" in
  tag ++ "-" ++ date.

(* ================================================================= *)
(** ** Calls that change state and may throw

    A method runs on a state and leaves a state behind even when it
    throws: what it did before the [throw] stays done. *)

Definition M (S A : Type) : Type := S -> S * result A.

Definition ret {S A : Type} (a : A) : M S A := fun s => (s, Ok a).

Definition throw {S A : Type} (e : exn) : M S A := fun s => (s, Throw e).

Definition bindM {S A B : Type} (m : M S A) (k : A -> M S B) : M S B :=
  fun s =>
    match m s with
    | (s', Ok a) => k a s'
    | (s', Throw e) => (s', Throw e)
    end.

Definition lift {S A : Type} (r : result A) : M S A := fun s => (s, r).

Definition getState {S : Type} : M S S := fun s => (s, Ok s).

Definition modify {S : Type} (f : S -> S) : M S unit := fun s => (f s, Ok tt).

(** [try { body } catch (error) { handler }]. *)
Definition tryCatch {S A : Type} (body : M S A) (handler : exn -> M S A)
  : M S A :=
  fun s =>
    match body s with
    | (s', Ok a) => (s', Ok a)
    | (s', Throw e) => handler e s'
    end.

Notation "x <~ m ;; k" := (bindM m (fun x => k))
  (at level 61, m at next level, right associativity).
Notation "m ;;; k" := (bindM m (fun _ => k))
  (at level 61, right associativity).

Definition when {S : Type} (b : bool) (m : M S unit) : M S unit :=
  if b then m else ret tt.

(** A default parameter value: [o = d] in a parameter list. *)
Definition orElse {A : Type} (o : option A) (d : A) : A :=
  match o with
  | Some a => a
  | None => d
  end.

(* ================================================================= *)
(** ** The collaborators: winston, its transports, Sentry, axios *)

Definition UNINITIALIZED_ERROR : string := "Logger is not initialized".

(** [config.levels]. *)
Definition levels : list (string * Z) :=
  [("error", 0); ("warn", 1); ("info", 2); ("debug", 3)].

(** [process.env.NODE_ENV === literal]. *)
Definition strictEq (o : option string) (literal : string) : bool :=
  match o with
  | Some s => (s =? literal)%string
  | None => false
  end.

(** [process.env.NODE_ENV] inside a template literal. *)
Definition tpl (o : option string) : string :=
  match o with
  | Some s => s
  | None => "undefined"
  end.

Inductive format : Type :=
| colorize
| timestamp
| printf (template : obj -> result string).

Record ConsoleOptions : Type := {
  console_level : string;
  console_format : list format
}.

Record LogglyOptions : Type := {
  token : string;
  subdomain : string;
  tags : list value;
  json_ : bool;
  stripColors : bool;
  loggly_level : string
}.

Record CloudwatchOptions : Type := {
  logGroupName : string;
  cw_logStreamName : Z -> string;
  awsRegion_ : string;
  jsonMessage : bool;
  cloudwatch_level : string
}.

Inductive transport : Type :=
| Console (o : ConsoleOptions)
| Loggly (o : LogglyOptions)
| Cloudwatch (o : CloudwatchOptions).

Definition transport_level (t : transport) : string :=
  match t with
  | Console o => console_level o
  | Loggly o => loggly_level o
  | Cloudwatch o => cloudwatch_level o
  end.

(** [transport.level = level]. *)
Definition set_transport_level (level : string) (t : transport) : transport :=
  match t with
  | Console o =>
      Console {| console_level := level; console_format := console_format o |}
  | Loggly o =>
      Loggly {| token := token o; subdomain := subdomain o; tags := tags o;
                json_ := json_ o; stripColors := stripColors o;
                loggly_level := level |}
  | Cloudwatch o =>
      Cloudwatch {| logGroupName := logGroupName o;
                    cw_logStreamName := cw_logStreamName o;
                    awsRegion_ := awsRegion_ o;
                    jsonMessage := jsonMessage o;
                    cloudwatch_level := level |}
  end.

(** What [winston.createLogger] is given. *)
Record winstonLogger : Type := {
  wl_levels : list (string * Z);
  wl_format : list format;
  transports : list transport
}.

(** The record [this.logger.<level>(message, payload)] hands to winston. *)
Record logCall : Type := {
  lc_level : string;
  lc_message : value;
  lc_meta : obj
}.

(** The tracing context Sentry passes to [tracesSampler]:
    [context?.request] with its [url] and [method], each possibly missing. *)
Record request : Type := {
  url : option string;
  method : option string
}.

Definition context : Type := option request.

Definition Router : Type := string.

Inductive integration : Type :=
| Http (tracing : bool)
| Express (app : Router).

Inductive sampling : Type :=
| tracesSampleRate_ (rate : Q)
| tracesSampler_ (sampler : context -> Q).

(** The options of one [sentry.init] call. *)
Record sentryInit : Type := {
  dsn : string;
  environment : option string;
  ignoreErrors : list string;
  integrations : list integration;
  traces : sampling
}.

Record capture : Type := {
  captured_err : value;
  captured_extra : option obj
}.

Record field : Type := {
  title : string;
  short : bool;
  field_value : string
}.

Record attachment : Type := {
  fallback : string;
  pretext : string;
  color : option string;
  fields : list field
}.

Record httpPost : Type := {
  post_url : option string;
  post_attachments : list attachment;
  post_headers : list (string * string)
}.

(** Everything outside the instance: the environment variable, the Sentry
    SDK (a module-level singleton, configured by its latest [init]), what was
    handed to winston and to Sentry, the HTTP posts issued, and whether the
    network lets a given post through. *)
Record world : Type := {
  NODE_ENV : option string;
  sentry_config : option sentryInit;
  captures : list capture;
  written : list logCall;
  posts : list httpPost;
  network : httpPost -> bool
}.

Definition set_sentry_config (c : sentryInit) (w : world) : world :=
  {| NODE_ENV := NODE_ENV w; sentry_config := Some c; captures := captures w;
     written := written w; posts := posts w; network := network w |}.

Definition add_capture (c : capture) (w : world) : world :=
  {| NODE_ENV := NODE_ENV w; sentry_config := sentry_config w;
     captures := captures w ++ [c];
     written := written w; posts := posts w; network := network w |}.

Definition add_written (c : logCall) (w : world) : world :=
  {| NODE_ENV := NODE_ENV w; sentry_config := sentry_config w;
     captures := captures w; written := written w ++ [c];
     posts := posts w; network := network w |}.

Definition add_post (p : httpPost) (w : world) : world :=
  {| NODE_ENV := NODE_ENV w; sentry_config := sentry_config w;
     captures := captures w; written := written w;
     posts := posts w ++ [p]; network := network w |}.

(** The [Handlers] of the Sentry SDK, bound to the configuration in force. *)
Record sentryHandlers : Type := {
  handlers_config : option sentryInit
}.

(** The format both variants give [winston.createLogger]. *)
Definition loggerFormat : list format := [timestamp; printf formatMessage].

(** The format both variants give the console transport. *)
Definition consoleFormat : list format :=
  [colorize; timestamp; printf formatMessage].

(* ================================================================= *)
(** ** The later variant: [src/unnamed/part_001] *)

Module LoggerV2.

(** The [@sentry/node] module, which [this.#sentry] points to once bound. *)
Inductive sentryModule : Type := sentrySDK.

Record Logger : Type := {
  level : string;
  logger : option winstonLogger;
  webhookUrl : option string;
  webhookColor : option string;
  tag : option string;
  sentry : option sentryModule    (* the private field [#sentry] *)
}.

(** An instance together with the world it runs in. *)
Definition state : Type := (Logger * world)%type.

(** [constructor()] and the field initializer [#sentry = null]. *)
Definition new_Logger : Logger :=
  {| level := "debug"; logger := None; webhookUrl := None;
     webhookColor := None; tag := None; sentry := None |}.

Definition required_error : exn := Error "defaultLevel and tag are required".

Definition uninitialized : exn := Error UNINITIALIZED_ERROR.

Definition isConsoleEnv (env : option string) (forceConsole : bool) : bool :=
  match env with
  | Some e => existsb (String.eqb e) ["test"; "localhost"]
  | None => false
  end || forceConsole.

Definition consoleTransport (level : string) : transport :=
  Console {| console_level := level; console_format := consoleFormat |}.

Definition cloudwatchTransport (tag : string) (env : option string)
  (awsRegion level : string) : transport :=
  Cloudwatch {| logGroupName := tag ++ "-" ++ tpl env;
                cw_logStreamName := logStreamName tag;
                awsRegion_ := awsRegion;
                jsonMessage := true;
                cloudwatch_level := level |}.

Definition initializeTransports (defaultLevel tag : option string)
  (forceConsole : option bool) (webhookUrl webhookColor awsRegion : option string)
  : M state unit :=
  fun st =>
    let forceConsole := match forceConsole with Some b => b | None => false end in
    let webhookColor :=
      match webhookColor with Some c => c | None => "#b52626" end in
    let awsRegion :=
      match awsRegion with Some r => r | None => "us-east-1" end in
    match defaultLevel, tag with
    | Some defaultLevel, Some tag =>
        if negb (truthy (VStr defaultLevel)) || negb (truthy (VStr tag))
        then (st, Throw required_error)
        else
          let (this, w) := st in
          let level := defaultLevel in
          let transports :=
            if isConsoleEnv (NODE_ENV w) forceConsole
            then [consoleTransport level]
            else [cloudwatchTransport tag (NODE_ENV w) awsRegion level] in
          ({| level := level;
              logger := Some {| wl_levels := levels;
                                wl_format := loggerFormat;
                                transports := transports |};
              webhookUrl := webhookUrl;
              webhookColor := Some webhookColor;
              tag := Some tag;
              sentry := sentry this |}, w, Ok tt)
    | _, _ => (st, Throw required_error)
    end.

Definition skipURLs (ignoreURLs : list string) : list string :=
  "/health" :: ignoreURLs.

(** [url?.includes(endpoint)], read as a condition. *)
Definition urlIncludes (u : option string) (endpoint : string) : bool :=
  match u with
  | Some s => includes s endpoint
  | None => false
  end.

(** The [tracesSampler] arrow function, closed over the arguments of
    [initializeSentry]. *)
Definition tracesSampler (tracesSampleRate : Q)
  (ignoreURLs customURLs : list string) (customURLsSampleRate : Q)
  (ctx : context) : Q :=
  let skipURLs := skipURLs ignoreURLs in
  let url := match ctx with Some r => url r | None => None end in
  let isOptionsCall :=
    match ctx with
    | Some r => match method r with
                | Some m => (m =? "OPTIONS")%string
                | None => false
                end
    | None => false
    end in
  if some (fun endpoint => urlIncludes url endpoint) skipURLs || isOptionsCall
  then 0%Q
  else if some (fun endpoint => urlIncludes url endpoint) customURLs
  then customURLsSampleRate
  else tracesSampleRate.

(** The fifth argument of [initializeSentry]. *)
Record samplingOptions : Type := {
  ignoreURLs : option (list string);
  customURLs : option (list string);
  customURLsSampleRate : option Q
}.

Definition noOptions : samplingOptions :=
  {| ignoreURLs := None; customURLs := None; customURLsSampleRate := None |}.

(** The options [initializeSentry] passes to [sentry.init]. *)
Definition sentryOptions (env : option string) (app : Router) (dsn : string)
  (ignoreErrors : option (list string)) (tracesSampleRate : option Q)
  (options : option samplingOptions) : sentryInit :=
  let options := orElse options noOptions in
  {| dsn := dsn;
     environment := env;
     ignoreErrors := orElse ignoreErrors [];
     integrations := [Http true; Express app];
     traces := tracesSampler_
                 (tracesSampler (orElse tracesSampleRate (25 # 100))
                    (orElse (ignoreURLs options) [])
                    (orElse (customURLs options) [])
                    (orElse (customURLsSampleRate options) (1 # 10))) |}.

Definition initializeSentry (app : Router) (dsn : string)
  (ignoreErrors : option (list string)) (tracesSampleRate : option Q)
  (options : option samplingOptions) : M state unit :=
  fun st =>
    let (this, w) := st in
    match sentry this with
    | None =>
        let w' :=
          set_sentry_config
            (sentryOptions (NODE_ENV w) app dsn ignoreErrors tracesSampleRate
               options) w in
        ({| level := level this; logger := logger this;
            webhookUrl := webhookUrl this; webhookColor := webhookColor this;
            tag := tag this; sentry := Some sentrySDK |}, w', Ok tt)
    | Some _ => (st, Ok tt)
    end.

Definition getSentryHandlers : M state sentryHandlers :=
  fun st =>
    let (this, w) := st in
    match sentry this with
    | None => (st, Throw uninitialized)
    | Some _ => (st, Ok {| handlers_config := sentry_config w |})
    end.

Definition formatError (error : value) (message : string) : result string :=
  match error with
  | VStr _ =>
      s <- optToString error ;;
      s <- ToString s ;;
      Ok (s ++ ".")
  | _ =>
      s <- optToString error ;;
      s <- ToString s ;;
      stack <- ToString (optGet error "stack") ;;
      Ok ("[ERROR] " ++ message ++ " " ++ s ++ ". Stack:" ++ nl ++ stack)
  end.

Definition customFormat (message eventType : option string) : string :=
  if truthyOpt eventType && truthyOpt message
  then tpl eventType ++ ": " ++ tpl message
  else if truthyOpt message then orElse message ""
  else if truthyOpt eventType then orElse eventType ""
  else "".

Definition getLevel : M state string :=
  fun st => (st, Ok (level (fst st))).

Definition setLevel (level : string) : M state unit :=
  fun st =>
    let (this, w) := st in
    match logger this with
    | None => (st, Throw uninitialized)
    | Some l =>
        ({| level := level;
            logger := Some {| wl_levels := wl_levels l;
                              wl_format := wl_format l;
                              transports :=
                                map (set_transport_level level) (transports l) |};
            webhookUrl := webhookUrl this; webhookColor := webhookColor this;
            tag := tag this; sentry := sentry this |}, w, Ok tt)
    end.

(** [this.logger.<level>(message, payload)]: the record goes to winston. *)
Definition winston_log (level : string) (message : value) (payload : obj)
  : M state unit :=
  modify (fun st : state =>
            (fst st,
             add_written {| lc_level := level; lc_message := message;
                            lc_meta := payload |} (snd st))).

Definition debug (message eventType : option string) (payload : option obj)
  : M state unit :=
  fun st =>
    let payload := orElse payload [] in
    match logger (fst st) with
    | None => (st, Throw uninitialized)
    | Some _ =>
        winston_log "debug" (VStr (customFormat message eventType)) payload st
    end.

Definition info (message eventType : option string) (payload : option obj)
  : M state unit :=
  fun st =>
    let payload := orElse payload [] in
    match logger (fst st) with
    | None => (st, Throw uninitialized)
    | Some _ =>
        winston_log "info" (VStr (customFormat message eventType)) payload st
    end.

Definition warn (message eventType : option string) (payload : option obj)
  : M state unit :=
  fun st =>
    let payload := orElse payload [] in
    match logger (fst st) with
    | None => (st, Throw uninitialized)
    | Some _ =>
        winston_log "warn" (VStr (customFormat message eventType)) payload st
    end.

(** [text.charAt(0).toUpperCase()], on the letters a to z. *)
Definition toUpperCase (c : ascii) : ascii :=
  let n := nat_of_ascii c in
  if Nat.leb 97 n && Nat.leb n 122 then ascii_of_nat (n - 32) else c.

(** The local helpers of [postWebhookAlert]. *)
Definition format_ (text : string) : string := "`" ++ text ++ "`".

Definition stringify (ob : value) : result (option string) :=
  JSON_stringify ob 1.

Definition codify (field : value) (isCode : bool) : result value :=
  if isCode
  then s <- ToString field ;; Ok (VStr ("```" ++ s ++ "```"))
  else Ok field.

Definition capitalize (text : string) : string :=
  match text with
  | EmptyString => ""
  | String c tl => String (toUpperCase c) tl
  end.

(** An entry of the local [fields] array, before it is mapped. *)
Record rawField : Type := {
  raw_title : string;
  raw_code : bool;
  raw_value : obj
}.

(** One key of [field.value], as the arrow function inside [map] prints it. *)
Definition printKey (code : bool) (kv : string * value) : result string :=
  match snd kv with
  | VNull | VUndef => Ok ""
  | v =>
      c <- codify v code ;;
      s <- ToString c ;;
      Ok ("*" ++ capitalize (fst kv) ++ "*: " ++ s ++ nl)
  end.

Fixpoint mapR {A B : Type} (f : A -> result B) (l : list A) : result (list B) :=
  match l with
  | [] => Ok []
  | x :: tl => y <- f x ;; r <- mapR f tl ;; Ok (y :: r)
  end.

Definition mapField (f : rawField) : result field :=
  parts <- mapR (printKey (raw_code f)) (raw_value f) ;;
  Ok {| title := raw_title f; short := false;
        field_value := String.concat "" parts |}.

(** [axios.post(url, { attachments }, { headers })], awaited: the request
    is issued, and the promise rejects when the network fails it. *)
Definition axios_post (p : httpPost) : M state unit :=
  fun st =>
    let st' := (fst st, add_post p (snd st)) in
    if network (snd st) p
    then (st', Ok tt)
    else (st', Throw (NetworkError "Request failed")).

(** The body of the [try] block of [postWebhookAlert]. *)
Definition postWebhookAlert_try (err : value) (message eventType : option string)
  (payload : obj) (webhookUrl_arg : option string) : M state unit :=
  st <~ getState ;;
  let this := fst st in
  let env := NODE_ENV (snd st) in
  if negb (truthyOpt (webhookUrl this)) && negb (truthyOpt webhookUrl_arg)
  then ret tt
  else
    errString <~ lift (s <- optToString err ;; ToString s) ;;
    let pretext :=
      "*" ++ customFormat message eventType ++ "*" ++ nl ++ errString in
    payloadString <~ lift (stringify (VObj payload)) ;;
    let fields :=
      [ {| raw_title := "Please find details below:";
           raw_code := false;
           raw_value := [("environment", VStr (format_ (tpl env)));
                         ("message", optGet err "message")] |};
        {| raw_title := "Payload";
           raw_code := true;
           raw_value := [("payload", ofOpt payloadString)] |} ] in
    let fields :=
      if truthy (optGet err "stack")
      then (fields ++ [ {| raw_title := "Stack Trace";
                           raw_code := true;
                           raw_value := [("stack", optGet err "stack")] |} ])%list
      else fields in
    mapped <~ lift (mapR mapField fields) ;;
    let attachments :=
      [ {| fallback := "Alert Event";
           pretext := pretext;
           color := webhookColor this;
           fields := mapped |} ] in
    axios_post
      {| post_url := match webhookUrl_arg with
                     | Some u => Some u
                     | None => webhookUrl this
                     end;
         post_attachments := attachments;
         post_headers := [("Content-Type", "application/json")] |}.

(** [async postWebhookAlert(...)]: the promise it returns is settled with
    the outcome of [try { ... } catch (error) { }]. *)
Definition postWebhookAlert (err : value) (message eventType : option string)
  (payload : option obj) (webhookUrl_arg : option string) : M state unit :=
  let payload := orElse payload [] in
  tryCatch (postWebhookAlert_try err message eventType payload webhookUrl_arg)
           (fun error => ret tt).

Definition captureException (err : value) (extra : option obj) : M state unit :=
  modify (fun st : state =>
            (fst st,
             add_capture {| captured_err := err; captured_extra := extra |}
                         (snd st))).

Definition error (err : value) (message eventType : option string)
  (payload : option obj) : M state unit :=
  let payload := orElse payload [] in
  this <~ (fun st => (st, Ok (fst st))) ;;
  match logger this with
  | None => throw uninitialized
  | Some _ =>
      when (truthyOpt (webhookUrl this))
           (postWebhookAlert err message eventType (Some payload) None) ;;;
      when (match sentry this with Some _ => true | None => false end)
           (captureException err (Some payload)) ;;;
      text <~ lift (formatError err (customFormat message eventType)) ;;
      winston_log "error" (VStr text) payload
  end.

(** *** Sequences of calls on one instance *)

Inductive call : Type :=
| call_initializeTransports (defaultLevel tag : option string)
    (forceConsole : option bool) (webhookUrl webhookColor awsRegion : option string)
| call_initializeSentry (app : Router) (dsn : string)
    (ignoreErrors : option (list string)) (tracesSampleRate : option Q)
    (options : option samplingOptions)
| call_getSentryHandlers
| call_getLevel
| call_setLevel (level : string)
| call_debug (message eventType : option string) (payload : option obj)
| call_info (message eventType : option string) (payload : option obj)
| call_warn (message eventType : option string) (payload : option obj)
| call_error (err : value) (message eventType : option string)
    (payload : option obj)
| call_postWebhookAlert (err : value) (message eventType : option string)
    (payload : option obj) (webhookUrl : option string).

Definition discard {A : Type} (m : M state A) : M state unit :=
  fun st => match m st with
            | (st', Ok _) => (st', Ok tt)
            | (st', Throw e) => (st', Throw e)
            end.

(** One call: the state it leaves and whether it threw. *)
Definition exec (c : call) : M state unit :=
  match c with
  | call_initializeTransports dl tg fc wu wc ar =>
      initializeTransports dl tg fc wu wc ar
  | call_initializeSentry app d ie r o => initializeSentry app d ie r o
  | call_getSentryHandlers => discard getSentryHandlers
  | call_getLevel => discard getLevel
  | call_setLevel l => setLevel l
  | call_debug m e p => debug m e p
  | call_info m e p => info m e p
  | call_warn m e p => warn m e p
  | call_error x m e p => error x m e p
  | call_postWebhookAlert x m e p u => postWebhookAlert x m e p u
  end.

(** A caller that goes on after each call, whether it threw or not. *)
Fixpoint run (cs : list call) (st : state) : state :=
  match cs with
  | [] => st
  | c :: tl => run tl (fst (exec c st))
  end.

Definition is_initializeTransports (c : call) : bool :=
  match c with
  | call_initializeTransports _ _ _ _ _ _ => true
  | _ => false
  end.

(** The five calls behind the initialization guard. *)
Definition guarded (c : call) : bool :=
  match c with
  | call_setLevel _ | call_debug _ _ _ | call_info _ _ _ | call_warn _ _ _
  | call_error _ _ _ _ => true
  | _ => false
  end.

End LoggerV2.

(* ================================================================= *)
(** ** The older variant: [src/lib/logger.js] *)

Module LoggerV1.

Inductive sentryModule : Type := sentrySDK.

Record Logger : Type := {
  level : string;
  logger : option winstonLogger;
  sentry : option sentryModule    (* the private field [#sentry] *)
}.

Definition state : Type := (Logger * world)%type.

Definition new_Logger : Logger :=
  {| level := "debug"; logger := None; sentry := None |}.

Definition uninitialized : exn := Error UNINITIALIZED_ERROR.

Definition isConsoleEnv (env : option string) : bool :=
  strictEq env "localhost".

Definition consoleTransport (level : string) : transport :=
  Console {| console_level := level; console_format := consoleFormat |}.

Definition logglyTransport (logglyToken tag : string) (env : option string)
  (level : string) : transport :=
  Loggly {| token := logglyToken;
            subdomain :=
              if strictEq env "production" then tag
              else tpl env ++ "-" ++ tag;
            tags := [VStr tag; ofOpt env];
            json_ := true;
            stripColors := true;
            loggly_level := level |}.

Definition cloudwatchTransport (tag : string) (env : option string)
  (level : string) : transport :=
  Cloudwatch {| logGroupName := tag ++ "-" ++ tpl env;
                cw_logStreamName := logStreamName tag;
                awsRegion_ := "us-east-1";
                jsonMessage := true;
                cloudwatch_level := level |}.

Definition initializeTransports (logglyToken defaultLevel tag : option string)
  : M state unit :=
  fun st =>
    let defaultLevel := orElse defaultLevel "debug" in
    let tag := orElse tag "trivia" in
    let (this, w) := st in
    let level := defaultLevel in
    let env := NODE_ENV w in
    let transports :=
      if isConsoleEnv env
      then [consoleTransport level]
      else
        ((if truthyOpt logglyToken
          then [logglyTransport (orElse logglyToken "") tag env level]
          else [])
         ++ [cloudwatchTransport tag env level])%list in
    ({| level := level;
        logger := Some {| wl_levels := levels;
                          wl_format := loggerFormat;
                          transports := transports |};
        sentry := sentry this |}, w, Ok tt).

Definition sentryOptions (env : option string) (app : Router) (dsn : string)
  (ignoreErrors : option (list string)) (tracesSampleRate : option Q)
  : sentryInit :=
  {| dsn := dsn;
     environment := env;
     ignoreErrors := orElse ignoreErrors [];
     integrations := [Http true; Express app];
     traces := tracesSampleRate_ (orElse tracesSampleRate (5 # 10)) |}.

Definition initializeSentry (app : Router) (dsn : string)
  (ignoreErrors : option (list string)) (tracesSampleRate : option Q)
  : M state unit :=
  fun st =>
    let (this, w) := st in
    match sentry this with
    | None =>
        let w' :=
          set_sentry_config
            (sentryOptions (NODE_ENV w) app dsn ignoreErrors tracesSampleRate)
            w in
        ({| level := level this; logger := logger this;
            sentry := Some sentrySDK |}, w', Ok tt)
    | Some _ => (st, Ok tt)
    end.

Definition getSentryHandlers : M state sentryHandlers :=
  fun st =>
    let (this, w) := st in
    match sentry this with
    | None => (st, Throw uninitialized)
    | Some _ => (st, Ok {| handlers_config := sentry_config w |})
    end.

Definition formatError (error message : value) : result string :=
  m <- ToString message ;;
  s <- callToString error ;;
  s <- ToString s ;;
  stack <- get error "stack" ;;
  stack <- ToString stack ;;
  Ok (m ++ " " ++ s ++ ". Stack:" ++ nl ++ stack).

(** Returns [message] itself, possibly [undefined], without an event type. *)
Definition customFormat (message eventType : option string) : value :=
  if truthyOpt eventType
  then VStr (tpl message ++ " in " ++ tpl eventType)
  else ofOpt message.

Definition getLevel : M state string :=
  fun st => (st, Ok (level (fst st))).

Definition setLevel (level : string) : M state unit :=
  fun st =>
    let (this, w) := st in
    match logger this with
    | None => (st, Throw uninitialized)
    | Some l =>
        ({| level := level;
            logger := Some {| wl_levels := wl_levels l;
                              wl_format := wl_format l;
                              transports :=
                                map (set_transport_level level) (transports l) |};
            sentry := sentry this |}, w, Ok tt)
    end.

Definition winston_log (level : string) (message : value) (payload : obj)
  : M state unit :=
  modify (fun st : state =>
            (fst st,
             add_written {| lc_level := level; lc_message := message;
                            lc_meta := payload |} (snd st))).

Definition debug (message eventType : option string) (payload : option obj)
  : M state unit :=
  fun st =>
    let payload := orElse payload [] in
    match logger (fst st) with
    | None => (st, Throw uninitialized)
    | Some _ => winston_log "debug" (customFormat message eventType) payload st
    end.

Definition info (message eventType : option string) (payload : option obj)
  : M state unit :=
  fun st =>
    let payload := orElse payload [] in
    match logger (fst st) with
    | None => (st, Throw uninitialized)
    | Some _ => winston_log "info" (customFormat message eventType) payload st
    end.

Definition warn (message eventType : option string) (payload : option obj)
  : M state unit :=
  fun st =>
    let payload := orElse payload [] in
    match logger (fst st) with
    | None => (st, Throw uninitialized)
    | Some _ => winston_log "warn" (customFormat message eventType) payload st
    end.

Definition captureException (err : value) : M state unit :=
  modify (fun st : state =>
            (fst st,
             add_capture {| captured_err := err; captured_extra := None |}
                         (snd st))).

Definition error (err : value) (message eventType : option string)
  (payload : option obj) : M state unit :=
  let payload := orElse payload [] in
  this <~ (fun st => (st, Ok (fst st))) ;;
  match logger this with
  | None => throw uninitialized
  | Some _ =>
      when (match sentry this with Some _ => true | None => false end)
           (captureException err) ;;;
      text <~ lift (formatError err (customFormat message eventType)) ;;
      winston_log "error" (VStr text) payload
  end.

Inductive call : Type :=
| call_initializeTransports (logglyToken defaultLevel tag : option string)
| call_initializeSentry (app : Router) (dsn : string)
    (ignoreErrors : option (list string)) (tracesSampleRate : option Q)
| call_getSentryHandlers
| call_getLevel
| call_setLevel (level : string)
| call_debug (message eventType : option string) (payload : option obj)
| call_info (message eventType : option string) (payload : option obj)
| call_warn (message eventType : option string) (payload : option obj)
| call_error (err : value) (message eventType : option string)
    (payload : option obj).

Definition discard {A : Type} (m : M state A) : M state unit :=
  fun st => match m st with
            | (st', Ok _) => (st', Ok tt)
            | (st', Throw e) => (st', Throw e)
            end.

Definition exec (c : call) : M state unit :=
  match c with
  | call_initializeTransports tk dl tg => initializeTransports tk dl tg
  | call_initializeSentry app d ie r => initializeSentry app d ie r
  | call_getSentryHandlers => discard getSentryHandlers
  | call_getLevel => discard getLevel
  | call_setLevel l => setLevel l
  | call_debug m e p => debug m e p
  | call_info m e p => info m e p
  | call_warn m e p => warn m e p
  | call_error x m e p => error x m e p
  end.

Fixpoint run (cs : list call) (st : state) : state :=
  match cs with
  | [] => st
  | c :: tl => run tl (fst (exec c st))
  end.

Definition is_initializeTransports (c : call) : bool :=
  match c with
  | call_initializeTransports _ _ _ => true
  | _ => false
  end.

Definition guarded (c : call) : bool :=
  match c with
  | call_setLevel _ | call_debug _ _ _ | call_info _ _ _ | call_warn _ _ _
  | call_error _ _ _ _ => true
  | _ => false
  end.

End LoggerV1.

(* ================================================================= *)
(** * The vocabulary of the statements *)

(** ** Requests *)

(** The request's URL contains [pat] as a substring. *)
Definition url_contains (ctx : context) (pat : string) : Prop :=
  exists r u, ctx = Some r /\ url r = Some u /\ substring_of pat u.

Definition is_OPTIONS (ctx : context) : Prop :=
  exists r, ctx = Some r /\ method r = Some "OPTIONS".

(** ** Optional strings *)

(** An optional string is present when it is a non-empty string: that is
    what the conditions [if (message)] and [if (eventType)] test. *)
Definition present (o : option string) (s : string) : Prop :=
  o = Some s /\ s <> "".

Definition absent (o : option string) : Prop := o = None \/ o = Some "".

(** ** Errors *)



Definition is_TypeError (e : exn) : Prop := exists msg, e = TypeError msg.



(** ** Records and their JSON form *)

(** What the object's [toJSON] member returns, when it has a callable
    one. *)
Definition toJSON_hook (o : obj) : option value :=
  match lookup "toJSON" o with
  | Some (VFun _ returns) => Some returns
  | _ => None
  end.

(** The members of an object, serialized one after the other. *)
Fixpoint toJSON_members (l : obj) : result (list (string * json)) :=
  match l with
  | [] => Ok []
  | (k, x) :: tl =>
      oj <- toJSON x ;;
      r <- toJSON_members tl ;;
      Ok (match oj with Some j => (k, j) :: r | None => r end)
  end.

(** The values [JSON.stringify] leaves out of an object. *)
Definition left_out (v : value) : Prop :=
  v = VUndef \/ (exists src r, v = VFun src r) \/ (exists d, v = VSym d).

(** The line every record starts with. *)
Definition header (timestamp level message : string) : string :=
  timestamp ++ " " ++ level ++ ": " ++ message.

(** The payload: the record without its three reserved keys. *)
Definition payload_of (info : obj) : obj :=
  omit info ["timestamp"; "message"; "level"].

(** The members of an object, printed at indentation [indent]. *)
Fixpoint render_members (gap indent : string) (l : list (string * json))
  : list string :=
  match l with
  | [] => []
  | (k, x) :: tl =>
      (quoteJSON k ++ ":" ++ (if (gap =? "")%string then "" else " ")
       ++ render gap indent x) :: render_members gap indent tl
  end.

(** ** The Gregorian calendar *)

Module Calendar.

Import DateTime.

(** Days of the year that precede a month (months from 0). *)
Definition daysBefore (month leap : Z) : Z :=
  match month with
  | 0 => 0
  | 1 => 31
  | 2 => 59 + leap
  | 3 => 90 + leap
  | 4 => 120 + leap
  | 5 => 151 + leap
  | 6 => 181 + leap
  | 7 => 212 + leap
  | 8 => 243 + leap
  | 9 => 273 + leap
  | 10 => 304 + leap
  | _ => 334 + leap
  end.

Definition daysInMonth (month leap : Z) : Z :=
  match month with
  | 1 => 28 + leap
  | 3 | 5 | 8 | 10 => 30
  | _ => 31
  end.

(** [year]-[month]-[day] (months from 1) is the Gregorian date of the
    UTC day the instant [t] falls in. *)
Definition utc_date (t year month day : Z) : Prop :=
  let leap := DaysInYear year - 365 in
  DayFromYear year <= Day t < DayFromYear (year + 1)
  /\ 1 <= month <= 12
  /\ 1 <= day <= daysInMonth (month - 1) leap
  /\ Day t = DayFromYear year + daysBefore (month - 1) leap + (day - 1).

End Calendar.

(** No character of the string is the letter T. *)
Fixpoint free_of_T (s : string) : bool :=
  match s with
  | EmptyString => true
  | String c tl => negb (Ascii.eqb c "T") && free_of_T tl
  end.

(** ** Environments *)

(** The later variant logs to the console in the environments "test" and
    "localhost", and wherever [forceConsole] is set. *)
Definition console_only_v2 (env : option string) (forceConsole : option bool)
  : Prop :=
  env = Some "test" \/ env = Some "localhost" \/ forceConsole = Some true.

(** The older variant does in the environment "localhost" alone. *)
Definition console_only_v1 (env : option string) : Prop :=
  env = Some "localhost".

(** ** Worlds and sequences of calls *)

(** The world with another list of issued posts. *)
Definition with_posts (w : world) (ps : list httpPost) : world :=
  {| NODE_ENV := NODE_ENV w; sentry_config := sentry_config w;
     captures := captures w; written := written w;
     posts := ps; network := network w |}.

(** Nothing but [sentry.init] touches the SDK configuration, and nothing
    touches the environment. *)
Definition same_config (w w' : world) : Prop :=
  NODE_ENV w' = NODE_ENV w /\ sentry_config w' = sentry_config w.

Definition no_initializeTransports_v2 (cs : list LoggerV2.call) : Prop :=
  forallb (fun c => negb (LoggerV2.is_initializeTransports c)) cs = true.

Definition no_initializeTransports_v1 (cs : list LoggerV1.call) : Prop :=
  forallb (fun c => negb (LoggerV1.is_initializeTransports c)) cs = true.

(** ** Concrete inputs *)

Definition production : world :=
  {| NODE_ENV := Some "production"; sentry_config := None; captures := [];
     written := []; posts := []; network := fun _ => true |}.

Definition localhost : world :=
  {| NODE_ENV := Some "localhost"; sentry_config := None; captures := [];
     written := []; posts := []; network := fun _ => true |}.

Definition staging : world :=
  {| NODE_ENV := Some "staging"; sentry_config := None; captures := [];
     written := []; posts := []; network := fun _ => true |}.

Definition get_users : context :=
  Some {| url := Some "/api/v1/users?page=2"; method := Some "GET" |}.

Definition get_health : context :=
  Some {| url := Some "/api/health/live"; method := Some "GET" |}.

Definition paid_record : obj :=
  [("amount", VNum 10); ("level", VStr "info"); ("message", VStr "paid");
   ("timestamp", VStr "2024-05-01T00:00:00.000Z"); ("cb", VFun "() => 1" (VNum 1))].

(** A record whose payload carries a BigInt. *)
Definition bigint_record : obj :=
  [("level", VStr "info"); ("message", VStr "paid");
   ("timestamp", VStr "2024-05-01T00:00:00.000Z"); ("amount", VBigInt 10)].

(** ** Induction over values, through the lists they nest *)

Section ValueInduction.

Variable P : value -> Prop.

Hypothesis HUndef : P VUndef.
Hypothesis HNull : P VNull.
Hypothesis HBool : forall b, P (VBool b).
Hypothesis HNum : forall n, P (VNum n).
Hypothesis HBigInt : forall n, P (VBigInt n).
Hypothesis HStr : forall s, P (VStr s).
Hypothesis HSym : forall d, P (VSym d).
Hypothesis HFun : forall src r, P r -> P (VFun src r).
Hypothesis HErr : forall name message stack, P (VErr name message stack).
Hypothesis HArr : forall elems, Forall P elems -> P (VArr elems).
Hypothesis HObj :
  forall props, Forall (fun kv => P (snd kv)) props -> P (VObj props).

Fixpoint value_induction (v : value) : P v :=
  match v with
  | VUndef => HUndef
  | VNull => HNull
  | VBool b => HBool b
  | VNum n => HNum n
  | VBigInt n => HBigInt n
  | VStr s => HStr s
  | VSym d => HSym d
  | VFun src r => HFun src r (value_induction r)
  | VErr name message stack => HErr name message stack
  | VArr elems =>
      HArr elems
        ((fix all (l : list value) : Forall P l :=
            match l with
            | [] => Forall_nil P
            | x :: tl => Forall_cons x (value_induction x) (all tl)
            end) elems)
  | VObj props =>
      HObj props
        ((fix all (l : list (string * value))
            : Forall (fun kv => P (snd kv)) l :=
            match l with
            | [] => Forall_nil _
            | kv :: tl =>
                Forall_cons kv (value_induction (snd kv)) (all tl)
            end) props)
  end.

End ValueInduction.

(* ================================================================= *)
(** * Properties *)

(** ** Numbers *)

(** Integers up to 2^53 print in full, larger Numbers with the digits that
    tell them from their neighbours, and from 10^21 on in exponential
    notation. *)
Example NumberToString_examples :
  NumberToString 7 = "7"
  /\ NumberToString (-1999) = "-1999"
  /\ NumberToString (2 ^ 53) = "9007199254740992"
  /\ NumberToString (2 ^ 53 + 1) = "9007199254740992"
  /\ NumberToString (2 ^ 64) = "18446744073709552000"
  /\ NumberToString (10 ^ 21 - 1) = "1e+21"
  /\ NumberToString (10 ^ 21) = "1e+21"
  /\ NumberToString (2 ^ 70) = "1.1805916207174113e+21"
  /\ NumberToString (10 ^ 23) = "1e+23"
  /\ NumberToString (- 10 ^ 22) = "-1e+22"
  /\ NumberToString (2 ^ 1024) = "Infinity".
Proof. repeat split; vm_compute; reflexivity. Qed.

(** ** Strings *)

Lemma append_assoc (a b c : string) : (a ++ b) ++ c = a ++ b ++ c.
Proof. induction a as [|x a IH]; simpl; [reflexivity | now rewrite IH]. Qed.

Lemma prefix_app (p s : string) :
  String.prefix p s = true <-> exists r, s = p ++ r.
Proof.
  revert s; induction p as [|c p IH]; intros s.
  - split; [intros _; now exists s | destruct s; reflexivity].
  - destruct s as [|d s]; simpl.
    + split; [discriminate | intros [r H]; discriminate].
    + destruct (Ascii.ascii_dec c d) as [->|Hcd].
      * rewrite IH. split; intros [r H]; exists r; congruence.
      * split; [discriminate | intros [r H]; congruence].
Qed.

Lemma includes_unfold (s pat : string) :
  includes s pat =
  String.prefix pat s ||
  match s with
  | EmptyString => false
  | String _ s' => includes s' pat
  end.
Proof. destruct s; reflexivity. Qed.

Lemma includes_substring (s pat : string) :
  includes s pat = true <-> substring_of pat s.
Proof.
  unfold substring_of. split.
  - induction s as [|c s IH];
      rewrite includes_unfold, orb_true_iff, prefix_app.
    + intros [[r H]|H]; [|discriminate]. now exists "", r.
    + intros [[r H]|H]; [now exists "", r|].
      destruct (IH H) as (b & a & ->). now exists (String c b), a.
  - intros (b & a & ->). induction b as [|c b IH].
    + rewrite includes_unfold. apply orb_true_iff; left.
      apply prefix_app. now exists a.
    + rewrite includes_unfold. simpl. now rewrite IH, orb_true_r.
Qed.

(** ** The sampling policy *)

Section SamplingPolicy.

Import LoggerV2.

Lemma urlIncludes_contains (ctx : context) (pat : string) :
  urlIncludes (match ctx with Some r => url r | None => None end) pat = true
  <-> url_contains ctx pat.
Proof.
  unfold url_contains. destruct ctx as [r|]; simpl.
  - destruct (url r) as [u|] eqn:E; simpl.
    + rewrite includes_substring. split.
      * intros H. now exists r, u.
      * intros (r' & u' & [= <-] & Hu & H). congruence.
    + split; [discriminate|]. intros (r' & u' & [= <-] & Hu & _). congruence.
  - split; [discriminate|]. intros (r' & u' & H & _). discriminate.
Qed.

Lemma some_urlIncludes (ctx : context) (pats : list string) :
  some (fun endpoint =>
          urlIncludes (match ctx with Some r => url r | None => None end)
                      endpoint) pats = true
  <-> exists p, In p pats /\ url_contains ctx p.
Proof.
  unfold some. rewrite existsb_exists.
  split; intros (p & Hin & H); exists p; split; trivial;
    now apply urlIncludes_contains.
Qed.

Lemma isOptionsCall_spec (ctx : context) :
  match ctx with
  | Some r => match method r with
              | Some m => (m =? "OPTIONS")%string
              | None => false
              end
  | None => false
  end = true <-> is_OPTIONS ctx.
Proof.
  unfold is_OPTIONS. destruct ctx as [r|].
  - destruct (method r) as [m|] eqn:E.
    + rewrite String.eqb_eq. split.
      * intros ->. now exists r.
      * intros (r' & [= <-] & H). congruence.
    + split; [discriminate|]. intros (r' & [= <-] & H). congruence.
  - split; [discriminate|]. intros (r' & H & _). discriminate.
Qed.

(** C2. The sampling policy returns 0 when the method is OPTIONS or the URL
    contains the built-in "/health" path or any ignore pattern as a
    substring; otherwise the custom rate when the URL contains any custom
    pattern; otherwise the default rate. The first rule that matches
    decides alone. *)
Theorem tracesSampler_first_match
  (tracesSampleRate : Q) (ignoreURLs customURLs : list string)
  (customURLsSampleRate : Q) (ctx : context) :
  let skipped :=
    is_OPTIONS ctx \/ url_contains ctx "/health"
    \/ (exists p, In p ignoreURLs /\ url_contains ctx p) in
  let custom := exists p, In p customURLs /\ url_contains ctx p in
  let rate :=
    tracesSampler tracesSampleRate ignoreURLs customURLs
                  customURLsSampleRate ctx in
  (skipped -> rate = 0%Q)
  /\ (~ skipped -> custom -> rate = customURLsSampleRate)
  /\ (~ skipped -> ~ custom -> rate = tracesSampleRate).
Proof.
  intros skipped custom rate.
  assert (Hskip :
    some (fun endpoint =>
            urlIncludes (match ctx with Some r => url r | None => None end)
                        endpoint) (skipURLs ignoreURLs)
    || match ctx with
       | Some r => match method r with
                   | Some m => (m =? "OPTIONS")%string
                   | None => false
                   end
       | None => false
       end = true <-> skipped).
  { rewrite orb_true_iff, some_urlIncludes, isOptionsCall_spec.
    unfold skipped, skipURLs. split.
    - intros [(p & [<-|Hin] & H)|H]; eauto.
    - intros [H|[H|(p & Hin & H)]]; [now right | left | left].
      + exists "/health". split; [now left | trivial].
      + exists p. split; [now right | trivial]. }
  pose proof (some_urlIncludes ctx customURLs) as Hcustom.
  fold custom in Hcustom.
  unfold rate, tracesSampler.
  destruct (some _ (skipURLs ignoreURLs) || _) eqn:E1.
  - repeat split; trivial; intros Hn; exfalso; apply Hn, Hskip; reflexivity.
  - assert (~ skipped) by (rewrite <- Hskip; discriminate).
    destruct (some _ customURLs) eqn:E2.
    + repeat split; trivial; try contradiction.
      intros _ Hn. exfalso. apply Hn, Hcustom. reflexivity.
    + repeat split; trivial; try contradiction.
      intros _ Hc. apply Hcustom in Hc. discriminate.
Qed.

End SamplingPolicy.

(* ================================================================= *)
(** ** The formatters *)

Lemma truthyOpt_present (o : option string) (s : string) :
  present o s -> truthyOpt o = true.
Proof.
  intros [-> Hs]. unfold truthyOpt; simpl.
  destruct (String.eqb_spec s ""); [contradiction | reflexivity].
Qed.

Lemma truthyOpt_absent (o : option string) : absent o -> truthyOpt o = false.
Proof. intros [->| ->]; reflexivity. Qed.

Lemma present_or_absent (o : option string) :
  (exists s, present o s) \/ absent o.
Proof.
  destruct o as [s|]; [|right; now left].
  destruct (String.eqb_spec s "") as [->|H].
  - right; now right.
  - left; now exists s.
Qed.

(** C4, as the later variant has it. [customFormat] returns
    "{eventType}: {message}" when both are present, the message alone when
    only the message is present, the event type alone when only the event
    type is present, and the empty string when neither is present. *)
Theorem customFormat_cases (message eventType : option string) :
  (forall m e, present message m -> present eventType e ->
     LoggerV2.customFormat message eventType = e ++ ": " ++ m)
  /\ (forall m, present message m -> absent eventType ->
        LoggerV2.customFormat message eventType = m)
  /\ (forall e, absent message -> present eventType e ->
        LoggerV2.customFormat message eventType = e)
  /\ (absent message -> absent eventType ->
        LoggerV2.customFormat message eventType = "").
Proof.
  unfold LoggerV2.customFormat. repeat split.
  - intros m e Hm He.
    rewrite (truthyOpt_present _ _ Hm), (truthyOpt_present _ _ He).
    destruct Hm as [-> _], He as [-> _]. reflexivity.
  - intros m Hm He.
    rewrite (truthyOpt_present _ _ Hm), (truthyOpt_absent _ He).
    destruct Hm as [-> _]. reflexivity.
  - intros e Hm He.
    rewrite (truthyOpt_present _ _ He), (truthyOpt_absent _ Hm).
    destruct He as [-> _]. reflexivity.
  - intros Hm He.
    rewrite (truthyOpt_absent _ Hm), (truthyOpt_absent _ He). reflexivity.
Qed.

(** The four calls the specification lists, on the later variant. *)
Example customFormat_examples :
  LoggerV2.customFormat (Some "m") (Some "e") = "e: m"
  /\ LoggerV2.customFormat (Some "m") None = "m"
  /\ LoggerV2.customFormat None (Some "e") = "e"
  /\ LoggerV2.customFormat None None = "".
Proof. repeat split. Qed.

(** The older variant's [#customFormat] is another function: it writes
    "{message} in {eventType}", and hands back [undefined] when both
    arguments are missing. *)
Lemma customFormat_older_variant :
  LoggerV1.customFormat (Some "m") (Some "e") = VStr "m in e"
  /\ LoggerV1.customFormat (Some "m") (Some "e") <> VStr "e: m"
  /\ LoggerV1.customFormat None (Some "e") = VStr "undefined in e"
  /\ LoggerV1.customFormat None None = VUndef.
Proof. repeat split. discriminate. Qed.

(** What the older variant computes, for every input. *)
Lemma customFormat_older_cases (message eventType : option string) :
  (forall e, present eventType e ->
     LoggerV1.customFormat message eventType
     = VStr (tpl message ++ " in " ++ e))
  /\ (absent eventType ->
        LoggerV1.customFormat message eventType = ofOpt message).
Proof.
  unfold LoggerV1.customFormat. split.
  - intros e He. rewrite (truthyOpt_present _ _ He).
    destruct He as [-> _]. reflexivity.
  - intros He. now rewrite (truthyOpt_absent _ He).
Qed.

(** A missing error altogether is tolerated too. *)
Example formatError_undefined :
  LoggerV2.formatError VUndef "ctx"
  = Ok ("[ERROR] ctx undefined. Stack:" ++ nl ++ "undefined")
  /\ LoggerV2.formatError (VStr "boom") "ctx" = Ok "boom."
  /\ LoggerV2.formatError (VErr "Error" "x" (Some "Error: x at f")) "ctx"
     = Ok ("[ERROR] ctx Error: x. Stack:" ++ nl ++ "Error: x at f").
Proof. repeat split. Qed.

(** An object answers with its own [toString] member: what the member
    returns is printed, and a member that is not callable makes the call
    throw. *)
Example formatError_own_toString :
  LoggerV2.formatError
    (VObj [("toString", VFun "() => 'E42'" (VStr "E42"))]) "ctx"
  = Ok ("[ERROR] ctx E42. Stack:" ++ nl ++ "undefined")
  /\ LoggerV2.formatError (VObj [("toString", VStr "x")]) "ctx"
     = Throw (TypeError "toString is not a function")
  /\ LoggerV2.formatError (VObj [("code", VNum 7)]) "ctx"
     = Ok ("[ERROR] ctx [object Object]. Stack:" ++ nl ++ "undefined")
  /\ LoggerV2.formatError (VNum (10 ^ 21)) "ctx"
     = Ok ("[ERROR] ctx 1e+21. Stack:" ++ nl ++ "undefined").
Proof. repeat split. Qed.


(** ** [formatMessage] *)

Lemma SerializeJSONObject (props : obj) :
  SerializeJSONProperty false (VObj props)
  = (l <- toJSON_members props ;; Ok (Some (JObj l))).
Proof. reflexivity. Qed.

Lemma toJSON_returned (props : obj) :
  toJSON (VObj props)
  = match toJSON_hook props with
    | Some r => SerializeJSONProperty false r
    | None => l <- toJSON_members props ;; Ok (Some (JObj l))
    end.
Proof.
  unfold toJSON, toJSON_hook. cbn [SerializeJSONProperty].
  fold toJSON_members.
  match goal with
  | |- match ?f props with _ => _ end = _ =>
      assert (E : forall l,
                 f l = match lookup "toJSON" l with
                       | Some (VFun _ r) =>
                           Some (SerializeJSONProperty false r)
                       | _ => None
                       end)
  end.
  { induction l as [|[k x] tl IH]; [reflexivity|].
    cbn [lookup]. destruct ("toJSON" =? k)%string; [|exact IH].
    destruct x; reflexivity. }
  rewrite E. destruct (lookup "toJSON" props) as [[]|]; reflexivity.
Qed.

Lemma toJSON_VObj (props : obj) :
  toJSON_hook props = None ->
  toJSON (VObj props) = (l <- toJSON_members props ;; Ok (Some (JObj l))).
Proof. intros H. now rewrite toJSON_returned, H. Qed.

Lemma toJSON_hooked (props : obj) (r : value) :
  toJSON_hook props = Some r ->
  toJSON (VObj props) = SerializeJSONProperty false r.
Proof. intros H. now rewrite toJSON_returned, H. Qed.

Lemma toJSON_left_out (v : value) : left_out v -> toJSON v = Ok None.
Proof. intros [->|[[src [r ->]]|[d ->]]]; reflexivity. Qed.

Lemma toJSON_members_left_out (l : obj) :
  (forall k v, In (k, v) l -> left_out v) -> toJSON_members l = Ok [].
Proof.
  induction l as [|[k x] tl IH]; intros H; simpl; [reflexivity|].
  rewrite (toJSON_left_out x) by (apply (H k); now left). simpl.
  rewrite IH; [reflexivity|]. intros k' v' Hin. apply (H k'). now right.
Qed.

(** A non-empty object printed with a two-space gap: one member per line,
    each two spaces deeper than the braces, a space after the colon. *)
Lemma render_object_two_spaces (indent : string) (m : string * json)
  (ms : list (string * json)) :
  render "  " indent (JObj (m :: ms))
  = "{" ++ nl ++ (indent ++ "  ")
    ++ String.concat ("," ++ nl ++ (indent ++ "  "))
         (render_members "  " (indent ++ "  ") (m :: ms))
    ++ nl ++ indent ++ "}".
Proof.
  assert (E : forall l,
    (fix props (l : list (string * json)) : list string :=
       match l with
       | [] => []
       | (k, x) :: tl =>
           (quoteJSON k ++ ":" ++ " " ++ render "  " (indent ++ "  ") x)
           :: props tl
       end) l = render_members "  " (indent ++ "  ") l).
  { induction l as [|[k x] tl IH]; [reflexivity|].
    cbn [render_members String.eqb Ascii.eqb Bool.eqb]. now rewrite <- IH. }
  destruct m as [k x].
  cbn [render String.eqb Ascii.eqb Bool.eqb render_members].
  now rewrite E.
Qed.

Section FormatMessage.

Variable info : obj.
Variables timestamp level message : string.

(** The three fields the line is made of, as the template literal prints
    them. (winston's [timestamp()] format and its level are strings; any
    primitive but a symbol has a string form.) *)
Hypothesis Htimestamp :
  ToString (optGet (VObj info) "timestamp") = Ok timestamp.
Hypothesis Hlevel : ToString (optGet (VObj info) "level") = Ok level.
Hypothesis Hmessage : ToString (optGet (VObj info) "message") = Ok message.

Lemma formatMessage_unfold :
  formatMessage info =
  (parsed <- JSON_parse_stringify (VObj (payload_of info)) ;;
   if isEmpty parsed
   then Ok (header timestamp level message)
   else
     pretty <- JSON_stringify (VObj (payload_of info)) 2 ;;
     block <- ToString (ofOpt pretty) ;;
     Ok (header timestamp level message ++ nl ++ block)).
Proof.
  unfold formatMessage, payload_of, header.
  rewrite Htimestamp, Hlevel, Hmessage. cbn [bind].
  destruct (JSON_parse_stringify _) as [j|e]; cbn [bind]; [|reflexivity].
  destruct (isEmpty j); [reflexivity|].
  destruct (JSON_stringify _ 2) as [o|e]; cbn [bind]; [|reflexivity].
  destruct (ToString (ofOpt o)); cbn [bind]; [|reflexivity].
  now rewrite !append_assoc.
Qed.

(** C6, as the code has it. Let [timestamp], [level] and [message] be
    the string forms of the record's fields of those names. With the
    reserved keys removed: a payload
    that serializes to the empty object gives "{timestamp} {level}:
    {message}" and nothing more; a payload that serializes to a
    non-empty object gives that line, a line break, and the object
    printed with two-space indentation; members that JSON leaves out
    ([undefined], functions, symbols) count as missing, as long as none
    of them is a callable [toJSON] member; a payload
    that [JSON.stringify] refuses makes [formatMessage] throw the same
    exception. A payload with a callable [toJSON] member is serialized
    as the value that member returns: when JSON leaves that value out,
    [formatMessage] throws the SyntaxError of [JSON.parse]; in general the
    JSON block is there unless what is serialized is empty. *)
Theorem formatMessage_cases :
  (toJSON (VObj (payload_of info)) = Ok (Some (JObj [])) ->
     formatMessage info = Ok (header timestamp level message))
  /\ (forall m ms,
        toJSON (VObj (payload_of info)) = Ok (Some (JObj (m :: ms))) ->
        formatMessage info
        = Ok (header timestamp level message ++ nl
              ++ "{" ++ nl ++ "  "
              ++ String.concat ("," ++ nl ++ "  ")
                   (render_members "  " "  " (m :: ms))
              ++ nl ++ "}"))
  /\ (toJSON_hook (payload_of info) = None ->
      (forall k v, In (k, v) (payload_of info) -> left_out v) ->
        formatMessage info = Ok (header timestamp level message))
  /\ (forall e, toJSON (VObj (payload_of info)) = Throw e ->
        formatMessage info = Throw e)
  /\ (forall r,
        toJSON_hook (payload_of info) = Some r ->
        toJSON (VObj (payload_of info)) = SerializeJSONProperty false r
        /\ (left_out r ->
            exists msg, formatMessage info = Throw (SyntaxError msg)))
  /\ (forall j,
        toJSON (VObj (payload_of info)) = Ok (Some j) ->
        formatMessage info
        = Ok (if isEmpty j then header timestamp level message
              else header timestamp level message ++ nl
                   ++ render "  " "" j)).
Proof.
  rewrite formatMessage_unfold.
  unfold JSON_parse_stringify, JSON_stringify.
  repeat split.
  - intros ->. reflexivity.
  - intros m ms ->. cbn [bind isEmpty option_map Nat.min spaces].
    change (" " ++ " " ++ "") with "  ".
    rewrite render_object_two_spaces. reflexivity.
  - intros Hh H. rewrite (toJSON_VObj _ Hh), toJSON_members_left_out by exact H.
    reflexivity.
  - intros e ->. reflexivity.
  - now apply toJSON_hooked.
  - intros Hl. rewrite (toJSON_hooked _ _ H).
    destruct Hl as [->|[[src [r' ->]]|[d ->]]]; eexists; reflexivity.
  - intros j ->. cbn [bind option_map Nat.min spaces ofOpt ToString].
    destruct (isEmpty j); reflexivity.
Qed.

End FormatMessage.

(** A value JSON cannot serialize is not treated as empty: the call
    throws. *)
Lemma formatMessage_bigint_throws :
  formatMessage bigint_record = Throw bigint_unserializable
  /\ ~ succeeds (formatMessage bigint_record).
Proof.
  split; [reflexivity|]. intros [s H]. discriminate.
Qed.

(** A record with a callable [toJSON] member is printed as what the
    member returns; when that is [undefined], [JSON.parse] has nothing to
    read. *)
Example formatMessage_toJSON :
  formatMessage [("level", VStr "info"); ("message", VStr "hello");
                 ("timestamp", VStr "T0"); ("n", VNum 1);
                 ("toJSON", VFun "() => undefined" VUndef)]
  = Throw (SyntaxError "undefined is not valid JSON")
  /\ formatMessage [("level", VStr "info"); ("message", VStr "hello");
                    ("timestamp", VStr "T0"); ("n", VNum 1);
                    ("toJSON", VFun "() => ({})" (VObj []))]
     = Ok "T0 info: hello"
  /\ formatMessage [("level", VStr "info"); ("message", VStr "hello");
                    ("timestamp", VStr "T0"); ("toJSON", VStr "no function")]
     = Ok ("T0 info: hello" ++ nl ++ "{" ++ nl ++ "  "
           ++ quoteJSON "toJSON" ++ ": " ++ quoteJSON "no function" ++ nl
           ++ "}")
  /\ formatMessage [("level", VStr "info"); ("message", VStr "hello");
                    ("timestamp", VStr "T0"); ("big", VNum (10 ^ 21))]
     = Ok ("T0 info: hello" ++ nl ++ "{" ++ nl ++ "  "
           ++ quoteJSON "big" ++ ": 1e+21" ++ nl ++ "}").
Proof. repeat split. Qed.

Example formatMessage_examples :
  formatMessage [("level", VStr "info"); ("message", VStr "hello");
                 ("timestamp", VStr "T0")]
  = Ok "T0 info: hello"
  /\ formatMessage [("level", VStr "info"); ("message", VStr "hello");
                    ("timestamp", VStr "T0"); ("cb", VFun "() => 1" (VNum 1))]
     = Ok "T0 info: hello"
  /\ formatMessage [("level", VStr "info"); ("message", VStr "hello");
                    ("timestamp", VStr "T0");
                    ("user", VObj [("id", VNum 7); ("tags", VArr [VNull])])]
     = Ok ("T0 info: hello" ++ nl
           ++ "{" ++ nl
           ++ "  " ++ quoteJSON "user" ++ ": {" ++ nl
           ++ "    " ++ quoteJSON "id" ++ ": 7," ++ nl
           ++ "    " ++ quoteJSON "tags" ++ ": [" ++ nl
           ++ "      null" ++ nl
           ++ "    ]" ++ nl
           ++ "  }" ++ nl
           ++ "}").
Proof. repeat split. Qed.

(* ================================================================= *)
(** ** The UTC calendar date *)

Module CalendarFacts.

Import DateTime Calendar.

Lemma yearFromDay_spec (d : Z) :
  DayFromYear (yearFromDay d) <= d < DayFromYear (yearFromDay d + 1).
Proof.
  unfold yearFromDay.
  destruct (Z.ltb_spec d (DayFromYear (1970 + 400 * d / 146097))).
  - unfold DayFromYear in *. Z.div_mod_to_equations; lia.
  - destruct (Z.leb_spec (DayFromYear (1970 + 400 * d / 146097 + 1)) d).
    + unfold DayFromYear in *. Z.div_mod_to_equations; lia.
    + lia.
Qed.

(** The leap-year rule, on the residue of the year modulo 400. *)
Lemma leap_rule_mod_400 (r : Z) :
  0 <= r < 400 ->
  (r - 1968) / 4 - (r - 1900) / 100 + (r - 1600) / 400 + 365 =
  (r - 1969) / 4 - (r - 1901) / 100 + (r - 1601) / 400 +
  (if negb (r mod 4 =? 0) then 365
   else if negb (r mod 100 =? 0) then 366
   else if negb (r =? 0) then 365 else 366).
Proof.
  intros B.
  assert (Hr : In (Z.to_nat r) (seq 0 400)) by (apply in_seq; lia).
  replace r with (Z.of_nat (Z.to_nat r)) by lia.
  revert Hr. generalize (Z.to_nat r). clear.
  assert (C : forallb (fun k : nat =>
            let r := Z.of_nat k in
            ((r - 1968) / 4 - (r - 1900) / 100 + (r - 1600) / 400 + 365 =?
             (r - 1969) / 4 - (r - 1901) / 100 + (r - 1601) / 400 +
             (if negb (r mod 4 =? 0) then 365
              else if negb (r mod 100 =? 0) then 366
              else if negb (r =? 0) then 365 else 366))) (seq 0 400) = true)
    by (vm_compute; reflexivity).
  rewrite forallb_forall in C. intros n Hn. specialize (C n Hn).
  cbv zeta in C. now apply Z.eqb_eq in C.
Qed.

Lemma residue_div (y q r k c m : Z) :
  0 < m -> y = 400 * q + r -> 400 = k * m ->
  (y - c) / m = k * q + (r - c) / m.
Proof.
  intros Hm -> Hk.
  replace (400 * q + r - c) with (r - c + k * q * m) by (rewrite Hk; ring).
  rewrite Z.div_add by lia. lia.
Qed.

Lemma residue_mod (y q r k m : Z) :
  0 < m -> y = 400 * q + r -> 400 = k * m -> y mod m = r mod m.
Proof.
  intros Hm -> Hk.
  replace (400 * q + r) with (r + k * q * m) by (rewrite Hk; ring).
  now rewrite Z.mod_add by lia.
Qed.

Lemma DayFromYear_succ (y : Z) :
  DayFromYear (y + 1) = DayFromYear y + DaysInYear y.
Proof.
  unfold DayFromYear, DaysInYear.
  pose proof (Z.div_mod y 400 ltac:(lia)) as H400.
  pose proof (Z.mod_pos_bound y 400 ltac:(lia)) as B400.
  set (q := y / 400) in *. set (r := y mod 400) in *.
  rewrite (residue_mod y q r 100 4), (residue_mod y q r 4 100) by lia.
  replace (y + 1 - 1969) with (y - 1968) by lia.
  replace (y + 1 - 1901) with (y - 1900) by lia.
  replace (y + 1 - 1601) with (y - 1600) by lia.
  rewrite (residue_div y q r 100 1968 4), (residue_div y q r 100 1969 4),
    (residue_div y q r 4 1900 100), (residue_div y q r 4 1901 100),
    (residue_div y q r 1 1600 400), (residue_div y q r 1 1601 400) by lia.
  pose proof (leap_rule_mod_400 r B400) as core.
  set (D := if negb (r mod 4 =? 0) then _ else _) in *.
  lia.
Qed.

Lemma DaysInYear_cases (y : Z) : DaysInYear y = 365 \/ DaysInYear y = 366.
Proof.
  unfold DaysInYear.
  destruct (negb _); [now left|].
  destruct (negb _); [now right|].
  destruct (negb _); [now left | now right].
Qed.

Lemma DayWithinYear_range (t : Z) :
  0 <= DayWithinYear t < DaysInYear (YearFromTime t).
Proof.
  unfold DayWithinYear, YearFromTime.
  pose proof (yearFromDay_spec (Day t)) as H.
  rewrite DayFromYear_succ in H. lia.
Qed.

Ltac split_ltb :=
  repeat match goal with
         | |- context [?a <? ?b] =>
             destruct (Z.ltb_spec a b); cbv iota
         end.

(** The date [toISOString] prints is the calendar date of the UTC day. *)
Lemma date_of_time (t : Z) :
  utc_date t (YearFromTime t) (MonthFromTime t + 1) (DateFromTime t).
Proof.
  unfold utc_date. cbv zeta.
  pose proof (yearFromDay_spec (Day t)) as Hy.
  pose proof (DayWithinYear_range t) as Hd.
  split; [exact Hy|].
  assert (Hleap : InLeapYear t = DaysInYear (YearFromTime t) - 365).
  { unfold InLeapYear.
    destruct (DaysInYear_cases (YearFromTime t)) as [E|E]; rewrite E;
      reflexivity. }
  assert (Hday : Day t = DayFromYear (YearFromTime t) + DayWithinYear t)
    by (unfold DayWithinYear; lia).
  rewrite Hday, <- Hleap.
  replace (MonthFromTime t + 1 - 1) with (MonthFromTime t) by lia.
  unfold DateFromTime, MonthFromTime. cbv zeta.
  assert (Hl : InLeapYear t = 0 \/ InLeapYear t = 1)
    by (destruct (DaysInYear_cases (YearFromTime t)); lia).
  assert (Hd' : 0 <= DayWithinYear t < 365 + InLeapYear t) by lia.
  clear Hd Hleap Hday Hy.
  generalize dependent (InLeapYear t). intros leap Hl.
  generalize (DayWithinYear t). intros d Hd.
  split_ltb; cbn [daysBefore daysInMonth]; lia.
Qed.

End CalendarFacts.

(** ** [split("T")[0]] of an ISO string is its date *)

Lemma free_of_T_app (a b : string) :
  free_of_T (a ++ b) = free_of_T a && free_of_T b.
Proof.
  induction a as [|c a IH]; simpl; [reflexivity|].
  now rewrite IH, andb_assoc.
Qed.

Lemma splitHead_at_T (a b : string) :
  free_of_T a = true -> splitHead (a ++ String "T" b) "T" = a.
Proof.
  induction a as [|c a IH]; intros H.
  - cbn [append splitHead].
    assert (E : String.prefix "T" (String "T" b) = true)
      by (apply prefix_app; now exists b).
    now rewrite E.
  - cbn [free_of_T] in H. apply andb_true_iff in H as [Hc Ha].
    cbn [append splitHead String.prefix].
    destruct (Ascii.ascii_dec "T" c) as [<-|_]; [discriminate|].
    now rewrite IH.
Qed.

Lemma digit_not_T (n : Z) : Ascii.eqb (DateTime.digit n) "T" = false.
Proof.
  unfold DateTime.digit.
  assert (H : (Z.to_nat (n mod 10) < 10)%nat)
    by (pose proof (Z.mod_pos_bound n 10); lia).
  revert H. generalize (Z.to_nat (n mod 10)). intros k H.
  do 10 (destruct k as [|k]; [reflexivity|]). lia.
Qed.

Lemma pad2_free (n : Z) : free_of_T (DateTime.pad2 n) = true.
Proof. unfold DateTime.pad2. cbn [free_of_T]. now rewrite !digit_not_T. Qed.

Lemma pad4_free (n : Z) : free_of_T (DateTime.pad4 n) = true.
Proof.
  unfold DateTime.pad4, DateTime.pad3. cbn [free_of_T].
  now rewrite !digit_not_T, pad2_free.
Qed.

Lemma isoYear_free (y : Z) : free_of_T (DateTime.isoYear y) = true.
Proof.
  unfold DateTime.isoYear.
  destruct ((0 <=? y) && (y <=? 9999)); [apply pad4_free|].
  rewrite free_of_T_app. unfold DateTime.pad6. cbn [free_of_T].
  rewrite !digit_not_T, pad4_free. now destruct (y <? 0).
Qed.

Lemma isoDate_free (t : Z) : free_of_T (DateTime.isoDate t) = true.
Proof.
  unfold DateTime.isoDate.
  now rewrite !free_of_T_app, isoYear_free, !pad2_free.
Qed.

Lemma logStreamName_isoDate (tag : string) (now : Z) :
  logStreamName tag now = tag ++ "-" ++ DateTime.isoDate now.
Proof.
  unfold logStreamName, DateTime.toISOString. cbv zeta.
  change ("T" ++ DateTime.isoTime now) with (String "T" (DateTime.isoTime now)).
  now rewrite splitHead_at_T by apply isoDate_free.
Qed.

(** Every instant of the UTC day 2024-05-01. *)
Lemma isoDate_2024_05_01 (now : Z) :
  1714521600000 <= now < 1714608000000 ->
  DateTime.isoDate now = "2024-05-01".
Proof.
  intros H.
  assert (E : DateTime.Day now = 19844).
  { unfold DateTime.Day, DateTime.msPerDay.
    symmetry. apply (Z.div_unique now 86400000 19844 (now - 1714521600000));
      lia. }
  unfold DateTime.isoDate, DateTime.DateFromTime, DateTime.MonthFromTime,
    DateTime.DayWithinYear, DateTime.InLeapYear, DateTime.YearFromTime.
  rewrite E. reflexivity.
Qed.

(* ================================================================= *)
(** ** Transport selection *)

Lemma isConsoleEnv_v2 (env : option string) (forceConsole : option bool) :
  LoggerV2.isConsoleEnv env (orElse forceConsole false) = true
  <-> console_only_v2 env forceConsole.
Proof.
  unfold LoggerV2.isConsoleEnv, console_only_v2. rewrite orb_true_iff.
  split.
  - intros [H|H].
    + destruct env as [e|]; [|discriminate]. cbn [existsb] in H.
      rewrite !orb_true_iff, !String.eqb_eq in H.
      destruct H as [->|[->|H]]; auto; discriminate.
    + destruct forceConsole as [b|]; [destruct b|]; try discriminate. auto.
  - intros [-> | [-> | ->]]; [left | left | right]; reflexivity.
Qed.

Lemma strictEq_true (o : option string) (literal : string) :
  strictEq o literal = true <-> o = Some literal.
Proof.
  destruct o as [e|]; [|split; discriminate]. cbn.
  rewrite String.eqb_eq. split; congruence.
Qed.

Lemma isConsoleEnv_v1 (env : option string) :
  LoggerV1.isConsoleEnv env = true <-> console_only_v1 env.
Proof. apply strictEq_true. Qed.

Lemma truthy_nonempty (s : string) : s <> "" -> truthy (VStr s) = true.
Proof.
  intros H. cbn. destruct (String.eqb_spec s ""); [contradiction | reflexivity].
Qed.

(** What a call of the later variant with both mandatory arguments leaves. *)
Lemma initializeTransports_v2_result (this : LoggerV2.Logger) (w : world)
  (level tag : string) (forceConsole : option bool)
  (webhookUrl webhookColor awsRegion : option string) :
  level <> "" -> tag <> "" ->
  LoggerV2.initializeTransports (Some level) (Some tag) forceConsole webhookUrl
    webhookColor awsRegion (this, w)
  = ({| LoggerV2.level := level;
        LoggerV2.logger :=
          Some {| wl_levels := levels;
                  wl_format := loggerFormat;
                  transports :=
                    if LoggerV2.isConsoleEnv (NODE_ENV w)
                         (orElse forceConsole false)
                    then [LoggerV2.consoleTransport level]
                    else [LoggerV2.cloudwatchTransport tag (NODE_ENV w)
                            (orElse awsRegion "us-east-1") level] |};
        LoggerV2.webhookUrl := webhookUrl;
        LoggerV2.webhookColor := Some (orElse webhookColor "#b52626");
        LoggerV2.tag := Some tag;
        LoggerV2.sentry := LoggerV2.sentry this |}, w, Ok tt).
Proof.
  intros Hl Ht. unfold LoggerV2.initializeTransports.
  rewrite (truthy_nonempty _ Hl), (truthy_nonempty _ Ht). reflexivity.
Qed.

(** Without one of them the call throws and changes nothing. *)
Lemma initializeTransports_v2_required (st : LoggerV2.state)
  (defaultLevel tag : option string) (forceConsole : option bool)
  (webhookUrl webhookColor awsRegion : option string) :
  absent defaultLevel \/ absent tag ->
  LoggerV2.initializeTransports defaultLevel tag forceConsole webhookUrl
    webhookColor awsRegion st
  = (st, Throw LoggerV2.required_error).
Proof.
  unfold LoggerV2.initializeTransports. intros H.
  destruct defaultLevel as [d|]; [|reflexivity].
  destruct tag as [t|]; [|reflexivity].
  destruct H as [[H|H]|[H|H]]; try discriminate; injection H as ->.
  - reflexivity.
  - cbn. now rewrite orb_true_r.
Qed.

(** C3, as the code has it. A call that returns (the later variant
    wants a level and a tag) leaves a logger whose transports are: in a
    console environment ([forceConsole] included, where the variant has
    the flag), the console alone, at the configured level, with colorized
    output; elsewhere the CloudWatch transport, its log group named
    "{tag}-{environment}", and before it, in the older variant with a
    token, the Loggly transport, tagged with the tag and the environment,
    its subdomain the tag in production and "{environment}-{tag}" elsewhere. *)
Theorem initializeTransports_selects_sinks :
  (forall (this : LoggerV2.Logger) (w : world) (level tag : string)
          (forceConsole : option bool)
          (webhookUrl webhookColor awsRegion : option string),
      level <> "" -> tag <> "" ->
      exists this' l,
        LoggerV2.initializeTransports (Some level) (Some tag) forceConsole
          webhookUrl webhookColor awsRegion (this, w) = (this', w, Ok tt)
        /\ LoggerV2.logger this' = Some l
        /\ (console_only_v2 (NODE_ENV w) forceConsole ->
              transports l
              = [Console {| console_level := level;
                            console_format :=
                              [colorize; timestamp; printf formatMessage] |}])
        /\ (~ console_only_v2 (NODE_ENV w) forceConsole ->
              exists cw,
                transports l = [Cloudwatch cw]
                /\ logGroupName cw = tag ++ "-" ++ tpl (NODE_ENV w)
                /\ cloudwatch_level cw = level))
  /\ (forall (this : LoggerV1.Logger) (w : world)
             (logglyToken defaultLevel tag : option string),
        let level := orElse defaultLevel "debug" in
        let name := orElse tag "trivia" in
        exists this' l,
          LoggerV1.initializeTransports logglyToken defaultLevel tag (this, w)
          = (this', w, Ok tt)
          /\ LoggerV1.logger this' = Some l
          /\ (console_only_v1 (NODE_ENV w) ->
                transports l
                = [Console {| console_level := level;
                              console_format :=
                                [colorize; timestamp; printf formatMessage] |}])
          /\ (~ console_only_v1 (NODE_ENV w) ->
                exists cw,
                  logGroupName cw = name ++ "-" ++ tpl (NODE_ENV w)
                  /\ cloudwatch_level cw = level
                  /\ (absent logglyToken -> transports l = [Cloudwatch cw])
                  /\ (forall tk, present logglyToken tk ->
                        exists lg,
                          transports l = [Loggly lg; Cloudwatch cw]
                          /\ token lg = tk
                          /\ tags lg = [VStr name; ofOpt (NODE_ENV w)]
                          /\ loggly_level lg = level
                          /\ (NODE_ENV w = Some "production" ->
                                subdomain lg = name)
                          /\ (NODE_ENV w <> Some "production" ->
                                subdomain lg
                                = tpl (NODE_ENV w) ++ "-" ++ name))))
  /\ (forall (st : LoggerV2.state) (defaultLevel tag : option string)
             (forceConsole : option bool)
             (webhookUrl webhookColor awsRegion : option string),
        absent defaultLevel \/ absent tag ->
        LoggerV2.initializeTransports defaultLevel tag forceConsole
          webhookUrl webhookColor awsRegion st
        = (st, Throw (Error "defaultLevel and tag are required"))).
Proof.
  split; [|split].
  - intros this w level tag fc wu wc ar Hl Ht.
    rewrite (initializeTransports_v2_result this w level tag fc wu wc ar Hl Ht).
    pose proof (isConsoleEnv_v2 (NODE_ENV w) fc) as Hc.
    destruct (LoggerV2.isConsoleEnv (NODE_ENV w) (orElse fc false)).
    + do 2 eexists. repeat split; try reflexivity.
      intros Hn. exfalso. apply Hn, Hc. reflexivity.
    + do 2 eexists. repeat split; try reflexivity.
      * intros H. apply Hc in H. discriminate.
      * intros _. eexists. repeat split.
  - intros this w tk dl tg level name.
    unfold LoggerV1.initializeTransports. fold level. fold name.
    pose proof (isConsoleEnv_v1 (NODE_ENV w)) as Hc.
    destruct (LoggerV1.isConsoleEnv (NODE_ENV w)).
    + do 2 eexists. repeat split; try reflexivity.
      intros Hn. exfalso. apply Hn, Hc. reflexivity.
    + do 2 eexists. repeat split; try reflexivity.
      * intros H. apply Hc in H. discriminate.
      * intros _.
        exists {| logGroupName := name ++ "-" ++ tpl (NODE_ENV w);
                  cw_logStreamName := logStreamName name;
                  awsRegion_ := "us-east-1";
                  jsonMessage := true;
                  cloudwatch_level := level |}.
        split; [reflexivity|]. split; [reflexivity|].
        split.
        -- intros Ha. cbn [LoggerV1.logger transports].
           now rewrite (truthyOpt_absent _ Ha).
        -- intros tk' Hp. cbn [LoggerV1.logger transports].
           rewrite (truthyOpt_present _ _ Hp). destruct Hp as [-> _].
           pose proof (strictEq_true (NODE_ENV w) "production") as Hprod.
           eexists. repeat split; cbn [subdomain LoggerV1.logglyTransport].
           ++ intros E. apply Hprod in E. now rewrite E.
           ++ intros E. destruct (strictEq (NODE_ENV w) "production");
                [|reflexivity].
              exfalso. apply E, Hprod. reflexivity.
  - intros st dl tg fc wu wc ar H.
    now apply initializeTransports_v2_required.
Qed.

(** The Loggly transport of the older variant is not named
    "{tag}-{environment}": outside production its subdomain puts the
    environment first, and in production it is the tag alone. *)
Lemma loggly_is_named_otherwise :
  (exists lg cw,
      option_map transports
        (LoggerV1.logger
           (fst (fst (LoggerV1.initializeTransports (Some "token")
                        (Some "warn") (Some "lounge")
                        (LoggerV1.new_Logger, staging)))))
      = Some [Loggly lg; Cloudwatch cw]
      /\ subdomain lg = "staging-lounge"
      /\ subdomain lg <> "lounge-staging"
      /\ logGroupName cw = "lounge-staging")
  /\ (exists lg cw,
        option_map transports
          (LoggerV1.logger
             (fst (fst (LoggerV1.initializeTransports (Some "token")
                          (Some "warn") (Some "lounge")
                          (LoggerV1.new_Logger, production)))))
        = Some [Loggly lg; Cloudwatch cw]
        /\ subdomain lg = "lounge"
        /\ subdomain lg <> "lounge-production"
        /\ logGroupName cw = "lounge-production").
Proof.
  split; do 2 eexists; (split; [reflexivity|]);
    repeat split; discriminate.
Qed.

(* ================================================================= *)
(** ** The log-stream name *)

(** C9. The CloudWatch transport is handed a function of the clock, not a
    name: asked at the instant [now], it answers "{tag}-{YYYY-MM-DD}",
    the date being the Gregorian date of the UTC day of [now], whenever
    the transport was created. With the tag "lounge", any instant of
    2024-05-01 gives "lounge-2024-05-01", and the next day another name. *)
Theorem logStreamName_follows_the_date :
  (forall tag now,
      logStreamName tag now
      = tag ++ "-" ++ DateTime.isoYear (DateTime.YearFromTime now)
        ++ "-" ++ DateTime.pad2 (DateTime.MonthFromTime now + 1)
        ++ "-" ++ DateTime.pad2 (DateTime.DateFromTime now))
  /\ (forall now,
        Calendar.utc_date now (DateTime.YearFromTime now)
          (DateTime.MonthFromTime now + 1) (DateTime.DateFromTime now))
  /\ (forall now,
        1714521600000 <= now < 1714608000000 ->
        logStreamName "lounge" now = "lounge-2024-05-01")
  /\ logStreamName "lounge" 1714607999999
     <> logStreamName "lounge" 1714608000000
  /\ (forall (this : LoggerV2.Logger) (w : world) (level tag : string)
             (forceConsole : option bool)
             (webhookUrl webhookColor awsRegion : option string),
        level <> "" -> tag <> "" ->
        ~ console_only_v2 (NODE_ENV w) forceConsole ->
        exists l cw,
          LoggerV2.logger
            (fst (fst (LoggerV2.initializeTransports (Some level) (Some tag)
                         forceConsole webhookUrl webhookColor awsRegion
                         (this, w)))) = Some l
          /\ In (Cloudwatch cw) (transports l)
          /\ forall now,
               cw_logStreamName cw now
               = tag ++ "-" ++ DateTime.isoDate now)
  /\ (forall (this : LoggerV1.Logger) (w : world)
             (logglyToken defaultLevel tag : option string),
        ~ console_only_v1 (NODE_ENV w) ->
        exists l cw,
          LoggerV1.logger
            (fst (fst (LoggerV1.initializeTransports logglyToken defaultLevel
                         tag (this, w)))) = Some l
          /\ In (Cloudwatch cw) (transports l)
          /\ forall now,
               cw_logStreamName cw now
               = orElse tag "trivia" ++ "-" ++ DateTime.isoDate now).
Proof.
  split; [|split; [|split; [|split; [|split]]]].
  - intros tag now. now rewrite logStreamName_isoDate.
  - exact CalendarFacts.date_of_time.
  - intros now H.
    now rewrite logStreamName_isoDate, (isoDate_2024_05_01 now H).
  - vm_compute. discriminate.
  - intros this w level tag fc wu wc ar Hl Ht Hn.
    rewrite (initializeTransports_v2_result this w level tag fc wu wc ar Hl Ht).
    pose proof (isConsoleEnv_v2 (NODE_ENV w) fc) as Hc.
    destruct (LoggerV2.isConsoleEnv (NODE_ENV w) (orElse fc false)).
    + exfalso. apply Hn, Hc. reflexivity.
    + do 2 eexists. split; [reflexivity|]. split; [now left|].
      intros now. apply logStreamName_isoDate.
  - intros this w tk dl tg Hn.
    unfold LoggerV1.initializeTransports.
    pose proof (isConsoleEnv_v1 (NODE_ENV w)) as Hc.
    destruct (LoggerV1.isConsoleEnv (NODE_ENV w)).
    + exfalso. apply Hn, Hc. reflexivity.
    + do 2 eexists. split; [reflexivity|]. split.
      * cbn [fst LoggerV1.logger transports]. apply in_or_app. right.
        now left.
      * intros now. apply logStreamName_isoDate.
Qed.

(** The date rolls over at midnight UTC, also for a logger that has been
    up since the day before. *)
Example logStreamName_examples :
  logStreamName "lounge" 1714521600000 = "lounge-2024-05-01"
  /\ logStreamName "lounge" 1714608000000 = "lounge-2024-05-02"
  /\ logStreamName "trivia" 951782400000 = "trivia-2000-02-29"
  /\ logStreamName "trivia" (-1) = "trivia-1969-12-31"
  /\ DateTime.toISOString 1714567600123 = "2024-05-01T12:46:40.123Z".
Proof. repeat split. Qed.

(* ================================================================= *)
(** ** What string conversion can throw *)

Lemma primitiveToString_throws (v : value) (e : exn) :
  primitiveToString v = Throw e -> is_TypeError e.
Proof.
  destruct v as [| |[]| | | | | | | |]; intros H; try discriminate;
    injection H as <-; eexists; reflexivity.
Qed.

Lemma OrdinaryToPrimitive_throws (o : obj) (e : exn) :
  OrdinaryToPrimitive o = Throw e -> is_TypeError e.
Proof.
  unfold OrdinaryToPrimitive. intros H.
  repeat match type of H with
         | match ?t with _ => _ end = _ => destruct t
         end; try discriminate.
  injection H as <-. eexists; reflexivity.
Qed.

(** String conversion throws nothing but a [TypeError]. *)
Lemma ToString_throws (v : value) (e : exn) :
  ToString v = Throw e -> is_TypeError e.
Proof.
  revert e.
  induction v as [| |b| | | | |src r _| |elems Hall|props _]
    using value_induction; intros e H;
    try (now apply (primitiveToString_throws _ _ H)); try discriminate.
  - cbn [ToString] in H. revert e H.
    induction Hall as [|x tl Hx Htl IH]; intros e H; [discriminate|].
    unfold bind in H.
    destruct (match x with
              | VUndef | VNull => Ok ""
              | _ => ToString x
              end) as [s|e'] eqn:Ex.
    + destruct tl as [|y tl']; [discriminate|].
      match type of H with
      | match ?j with _ => _ end = _ => destruct j as [r|e''] eqn:Er
      end; [discriminate|].
      injection H as <-. eapply IH. exact Er.
    + injection H as <-. destruct x; try discriminate; eapply Hx; exact Ex.
  - cbn [ToString] in H. unfold bind in H.
    destruct (OrdinaryToPrimitive props) as [p|e'] eqn:Ep.
    + now apply (primitiveToString_throws _ _ H).
    + injection H as <-. now apply (OrdinaryToPrimitive_throws _ _ Ep).
Qed.

Lemma optToString_throws (v : value) (e : exn) :
  optToString v = Throw e -> is_TypeError e.
Proof.
  unfold optToString, bind. intros H.
  destruct v; try discriminate;
    repeat match type of H with
           | match ?t with _ => _ end = _ => destruct t eqn:?E
           end; try discriminate; injection H as <-;
    first [ eexists; reflexivity
          | eapply ToString_throws; eassumption ].
Qed.

Lemma formatError_v2_throws (error : value) (message : string) (e : exn) :
  LoggerV2.formatError error message = Throw e -> is_TypeError e.
Proof.
  unfold LoggerV2.formatError. intros H.
  assert (G : forall k : string -> result string,
             (forall s e', k s = Throw e' -> is_TypeError e') ->
             forall e', (s <- optToString error ;; s <- ToString s ;; k s)
                        = Throw e' -> is_TypeError e').
  { intros k Hk e' H'. unfold bind in H'.
    destruct (optToString error) as [v|e1] eqn:E1.
    - destruct (ToString v) as [s|e2] eqn:E2.
      + eapply Hk; exact H'.
      + injection H' as <-. eapply ToString_throws; exact E2.
    - injection H' as <-. eapply optToString_throws; exact E1. }
  destruct error; (eapply G; [|exact H]); cbv beta; intros txt e' H';
    try discriminate;
    unfold bind in H';
    match type of H' with
    | match ?t with _ => _ end = _ => destruct t eqn:E
    end; try discriminate; injection H' as <-;
    eapply ToString_throws; exact E.
Qed.



(* ================================================================= *)
(** ** The facade of the later variant *)

Lemma with_posts_same (w : world) : with_posts w (posts w ++ [])%list = w.
Proof. destruct w. unfold with_posts. cbn. now rewrite app_nil_r. Qed.

Lemma postWebhookAlert_frame (err : value) (message eventType : option string)
  (payload : option obj) (u : option string) (st : LoggerV2.state) :
  exists ps,
    LoggerV2.postWebhookAlert err message eventType payload u st
    = ((fst st, with_posts (snd st) (posts (snd st) ++ ps)%list), Ok tt)
    /\ (List.length ps <= 1)%nat.
Proof.
  destruct st as [this w].
  unfold LoggerV2.postWebhookAlert, tryCatch, LoggerV2.postWebhookAlert_try,
    bindM, getState, lift, ret, LoggerV2.axios_post.
  cbn [fst snd].
  destruct (negb _ && negb _); cbv beta;
    repeat match goal with
           | |- context [match ?x with Ok _ => _ | Throw _ => _ end] =>
               destruct x
           end;
    try destruct (network _ _); cbn [fst snd];
    first [ exists []; rewrite with_posts_same; split;
            [reflexivity | cbn; lia]
          | eexists; split; [reflexivity | cbn; lia] ].
Qed.

(** C8. [postWebhookAlert] never raises: whatever happens inside
    (a payload JSON cannot serialize, a value that has no string form, a
    failed request) the promise resolves. With no webhook URL on the
    instance and none passed, it resolves without issuing a request and
    without any other effect. In every case the instance is untouched and
    at most one request is issued. *)
Theorem postWebhookAlert_never_raises
  (err : value) (message eventType : option string) (payload : option obj)
  (webhookUrl : option string) (st : LoggerV2.state) :
  snd (LoggerV2.postWebhookAlert err message eventType payload webhookUrl st)
  = Ok tt
  /\ (absent (LoggerV2.webhookUrl (fst st)) -> absent webhookUrl ->
        LoggerV2.postWebhookAlert err message eventType payload webhookUrl st
        = (st, Ok tt))
  /\ (exists issued,
        fst (LoggerV2.postWebhookAlert err message eventType payload
               webhookUrl st)
        = (fst st, with_posts (snd st) (posts (snd st) ++ issued)%list)
        /\ (List.length issued <= 1)%nat).
Proof.
  destruct (postWebhookAlert_frame err message eventType payload webhookUrl st)
    as (ps & E & Hps).
  split; [now rewrite E|]. split.
  - intros Hi Hu.
    unfold LoggerV2.postWebhookAlert, tryCatch, LoggerV2.postWebhookAlert_try,
      bindM, getState.
    rewrite (truthyOpt_absent _ Hi), (truthyOpt_absent _ Hu). reflexivity.
  - exists ps. now rewrite E.
Qed.

(** The [try] block does fail: on a BigInt in the payload, on a failed
    request. The call resolves all the same. *)
Example postWebhookAlert_swallows :
  let this :=
    {| LoggerV2.level := "warn"; LoggerV2.logger := None;
       LoggerV2.webhookUrl := Some "https://hooks.example/T1";
       LoggerV2.webhookColor := Some "#b52626";
       LoggerV2.tag := Some "lounge"; LoggerV2.sentry := None |} in
  let offline :=
    {| NODE_ENV := Some "production"; sentry_config := None; captures := [];
       written := []; posts := []; network := fun _ => false |} in
  snd (LoggerV2.postWebhookAlert_try (VStr "boom") None None
         [("n", VBigInt 1)] None (this, offline))
  = Throw bigint_unserializable
  /\ snd (LoggerV2.postWebhookAlert (VStr "boom") None None
            (Some [("n", VBigInt 1)]) None (this, offline)) = Ok tt
  /\ snd (LoggerV2.postWebhookAlert_try (VStr "boom") None None [] None
            (this, offline))
     = Throw (NetworkError "Request failed")
  /\ snd (LoggerV2.postWebhookAlert (VStr "boom") None None None None
            (this, offline)) = Ok tt
  /\ List.length
       (posts (snd (fst (LoggerV2.postWebhookAlert (VStr "boom") None None
                           None None (this, offline))))) = 1%nat.
Proof. repeat split. Qed.

(** *** Calls and the state they leave *)

Lemma same_config_refl (w : world) : same_config w w.
Proof. now split. Qed.

Lemma error_v2_frame (err : value) (message eventType : option string)
  (payload : option obj) (this : LoggerV2.Logger) (w : world)
  (l : winstonLogger) :
  LoggerV2.logger this = Some l ->
  exists w',
    fst (LoggerV2.error err message eventType payload (this, w)) = (this, w')
    /\ same_config w w'
    /\ (snd (LoggerV2.error err message eventType payload (this, w)) = Ok tt
        \/ exists e,
             snd (LoggerV2.error err message eventType payload (this, w))
             = Throw e /\ is_TypeError e).
Proof.
  intros Hl.
  unfold LoggerV2.error, bindM, when, lift, LoggerV2.captureException,
    LoggerV2.winston_log, modify, ret.
  cbn [fst snd]. rewrite Hl.
  destruct (postWebhookAlert_frame err message eventType
              (Some (orElse payload [])) None (this, w)) as (ps & E & _).
  pose proof (formatError_v2_throws err
                (LoggerV2.customFormat message eventType)) as Hthrow.
  destruct (truthyOpt (LoggerV2.webhookUrl this)); [rewrite E|];
    cbn [fst snd];
    destruct (LoggerV2.sentry this); cbn [fst snd];
    destruct (LoggerV2.formatError err _) as [txt|e]; cbn [fst snd];
    eexists; (split; [reflexivity|]); (split; [split; reflexivity|]);
    first [ left; reflexivity
          | right; eexists; split; [reflexivity | now apply Hthrow] ].
Qed.

Lemma error_v2_uninitialized (err : value) (message eventType : option string)
  (payload : option obj) (st : LoggerV2.state) :
  LoggerV2.logger (fst st) = None ->
  LoggerV2.error err message eventType payload st
  = (st, Throw LoggerV2.uninitialized).
Proof.
  intros H. unfold LoggerV2.error, bindM, throw. now rewrite H.
Qed.

Ltac frame_done :=
  do 2 eexists; (split; [reflexivity|]); cbn;
  intuition (try congruence; try discriminate).

Lemma exec_v2_frame (c : LoggerV2.call) (this : LoggerV2.Logger) (w : world) :
  exists this' w',
    fst (LoggerV2.exec c (this, w)) = (this', w')
    /\ NODE_ENV w' = NODE_ENV w
    /\ (forall s, LoggerV2.sentry this = Some s ->
          LoggerV2.sentry this' = Some s
          /\ sentry_config w' = sentry_config w)
    /\ (LoggerV2.logger this <> None -> LoggerV2.logger this' <> None)
    /\ (LoggerV2.is_initializeTransports c = false ->
        LoggerV2.logger this = None ->
        LoggerV2.logger this' = None
        /\ LoggerV2.level this' = LoggerV2.level this).
Proof.
  destruct c; cbn [LoggerV2.exec LoggerV2.is_initializeTransports].
  - unfold LoggerV2.initializeTransports.
    destruct defaultLevel as [d|], tag as [t|];
      try destruct (negb (truthy (VStr d)) || negb (truthy (VStr t)));
      frame_done.
  - unfold LoggerV2.initializeSentry.
    destruct (LoggerV2.sentry this) eqn:Es; frame_done.
  - unfold LoggerV2.discard, LoggerV2.getSentryHandlers.
    destruct (LoggerV2.sentry this) eqn:Es; frame_done.
  - frame_done.
  - unfold LoggerV2.setLevel.
    destruct (LoggerV2.logger this) eqn:El; frame_done.
  - unfold LoggerV2.debug, LoggerV2.winston_log, modify. cbn [fst snd].
    destruct (LoggerV2.logger this) eqn:El; frame_done.
  - unfold LoggerV2.info, LoggerV2.winston_log, modify. cbn [fst snd].
    destruct (LoggerV2.logger this) eqn:El; frame_done.
  - unfold LoggerV2.warn, LoggerV2.winston_log, modify. cbn [fst snd].
    destruct (LoggerV2.logger this) eqn:El; frame_done.
  - destruct (LoggerV2.logger this) as [l|] eqn:El.
    + destruct (error_v2_frame err message eventType payload this w l El)
        as (w' & E & [He Hs] & _).
      exists this, w'. intuition (try congruence; try discriminate).
    + rewrite error_v2_uninitialized by exact El. frame_done.
  - destruct (postWebhookAlert_frame err message eventType payload webhookUrl
                (this, w)) as (ps & E & _).
    rewrite E. frame_done.
Qed.

Lemma guarded_v2_uninitialized (c : LoggerV2.call) (st : LoggerV2.state) :
  LoggerV2.guarded c = true ->
  LoggerV2.logger (fst st) = None ->
  LoggerV2.exec c st = (st, Throw LoggerV2.uninitialized).
Proof.
  intros Hg Hl. destruct c; try discriminate; cbn [LoggerV2.exec].
  - unfold LoggerV2.setLevel. destruct st as [this w]. cbn in Hl.
    now rewrite Hl.
  - unfold LoggerV2.debug. now rewrite Hl.
  - unfold LoggerV2.info. now rewrite Hl.
  - unfold LoggerV2.warn. now rewrite Hl.
  - now apply error_v2_uninitialized.
Qed.

Lemma guarded_v2_initialized (c : LoggerV2.call) (st : LoggerV2.state) :
  LoggerV2.guarded c = true ->
  LoggerV2.logger (fst st) <> None ->
  snd (LoggerV2.exec c st) = Ok tt
  \/ exists e, snd (LoggerV2.exec c st) = Throw e /\ is_TypeError e.
Proof.
  intros Hg Hl. destruct st as [this w]. cbn [fst] in Hl.
  destruct (LoggerV2.logger this) as [l|] eqn:El; [clear Hl|contradiction].
  destruct c; try discriminate; cbn [LoggerV2.exec].
  - unfold LoggerV2.setLevel. rewrite El. now left.
  - unfold LoggerV2.debug. cbn [fst]. rewrite El. now left.
  - unfold LoggerV2.info. cbn [fst]. rewrite El. now left.
  - unfold LoggerV2.warn. cbn [fst]. rewrite El. now left.
  - destruct (error_v2_frame err message eventType payload this w l El)
      as (w' & _ & _ & H). exact H.
Qed.

Lemma run_v2_uninitialized (cs : list LoggerV2.call) (st : LoggerV2.state) :
  no_initializeTransports_v2 cs ->
  LoggerV2.logger (fst st) = None ->
  LoggerV2.logger (fst (LoggerV2.run cs st)) = None
  /\ LoggerV2.level (fst (LoggerV2.run cs st)) = LoggerV2.level (fst st).
Proof.
  unfold no_initializeTransports_v2.
  revert st. induction cs as [|c cs IH]; intros st Hcs Hl; [now split|].
  cbn [forallb] in Hcs. apply andb_true_iff in Hcs as [Hc Hcs].
  apply negb_true_iff in Hc. cbn [LoggerV2.run].
  destruct st as [this w].
  destruct (exec_v2_frame c this w) as (this' & w' & E & _ & _ & _ & Hn).
  rewrite E. destruct (Hn Hc Hl) as [Hl' Hv].
  destruct (IH (this', w') Hcs Hl') as [H1 H2].
  split; [exact H1|]. cbn [fst] in *. congruence.
Qed.

Lemma run_v2_initialized (cs : list LoggerV2.call) (st : LoggerV2.state) :
  LoggerV2.logger (fst st) <> None ->
  LoggerV2.logger (fst (LoggerV2.run cs st)) <> None.
Proof.
  revert st. induction cs as [|c cs IH]; intros st Hl; [exact Hl|].
  cbn [LoggerV2.run]. apply IH. destruct st as [this w].
  destruct (exec_v2_frame c this w) as (this' & w' & E & _ & _ & Hk & _).
  rewrite E. now apply Hk.
Qed.

Lemma run_v2_sentry (cs : list LoggerV2.call) (st : LoggerV2.state)
  (s : LoggerV2.sentryModule) :
  LoggerV2.sentry (fst st) = Some s ->
  LoggerV2.sentry (fst (LoggerV2.run cs st)) = Some s
  /\ sentry_config (snd (LoggerV2.run cs st)) = sentry_config (snd st).
Proof.
  revert st. induction cs as [|c cs IH]; intros st Hs; [now split|].
  cbn [LoggerV2.run]. destruct st as [this w].
  destruct (exec_v2_frame c this w) as (this' & w' & E & _ & Hk & _).
  rewrite E. destruct (Hk s Hs) as [Hs' Hc].
  destruct (IH (this', w') Hs') as [H1 H2].
  split; [exact H1|]. cbn [snd] in *. congruence.
Qed.

Lemma initializeTransports_v2_ok (st : LoggerV2.state)
  (defaultLevel tag : option string) (forceConsole : option bool)
  (webhookUrl webhookColor awsRegion : option string) :
  snd (LoggerV2.initializeTransports defaultLevel tag forceConsole webhookUrl
         webhookColor awsRegion st) = Ok tt ->
  LoggerV2.logger
    (fst (fst (LoggerV2.initializeTransports defaultLevel tag forceConsole
                 webhookUrl webhookColor awsRegion st))) <> None.
Proof.
  unfold LoggerV2.initializeTransports. destruct st as [this w].
  destruct defaultLevel as [d|], tag as [t|]; try discriminate.
  destruct (negb (truthy (VStr d)) || negb (truthy (VStr t)));
    cbn; discriminate.
Qed.

(** C1. On an instance on which [initializeTransports] has not been
    called, whatever else has been, each of [setLevel], [debug], [info],
    [warn] and [error] throws [Error("Logger is not initialized")] and
    does nothing else: no record goes anywhere. Once a call of
    [initializeTransports] has returned, none of the five throws that
    error any more, whatever is called in between. *)
Theorem uninitialized_guard :
  (forall (w : world) (cs : list LoggerV2.call) (c : LoggerV2.call),
      no_initializeTransports_v2 cs ->
      LoggerV2.guarded c = true ->
      LoggerV2.exec c (LoggerV2.run cs (LoggerV2.new_Logger, w))
      = (LoggerV2.run cs (LoggerV2.new_Logger, w),
         Throw (Error "Logger is not initialized")))
  /\ (forall (st : LoggerV2.state) (defaultLevel tag : option string)
             (forceConsole : option bool)
             (webhookUrl webhookColor awsRegion : option string)
             (cs : list LoggerV2.call) (c : LoggerV2.call),
        snd (LoggerV2.initializeTransports defaultLevel tag forceConsole
               webhookUrl webhookColor awsRegion st) = Ok tt ->
        LoggerV2.guarded c = true ->
        snd (LoggerV2.exec c
               (LoggerV2.run cs
                  (fst (LoggerV2.initializeTransports defaultLevel tag
                          forceConsole webhookUrl webhookColor awsRegion st))))
        <> Throw (Error "Logger is not initialized")).
Proof.
  split.
  - intros w cs c Hcs Hc.
    apply guarded_v2_uninitialized; [exact Hc|].
    now apply run_v2_uninitialized.
  - intros st dl tg fc wu wc ar cs c Hok Hc.
    pose proof (initializeTransports_v2_ok st dl tg fc wu wc ar Hok) as Hl.
    apply (run_v2_initialized cs) in Hl.
    destruct (guarded_v2_initialized c _ Hc Hl) as [E|(e & E & [msg ->])];
      rewrite E; discriminate.
Qed.

(** The guard at work: before and after initialization. *)
Example uninitialized_guard_examples :
  let w :=
    {| NODE_ENV := Some "production"; sentry_config := None; captures := [];
       written := []; posts := []; network := fun _ => true |} in
  let fresh := (LoggerV2.new_Logger, w) in
  let ready :=
    fst (LoggerV2.initializeTransports (Some "warn") (Some "lounge") None None
           None None fresh) in
  snd (LoggerV2.debug (Some "m") (Some "e") None fresh)
  = Throw (Error "Logger is not initialized")
  /\ snd (LoggerV2.error (VStr "boom") None None None fresh)
     = Throw (Error "Logger is not initialized")
  /\ written (snd (fst (LoggerV2.debug (Some "m") (Some "e") None fresh))) = []
  /\ snd (LoggerV2.debug (Some "m") (Some "e") None ready) = Ok tt
  /\ written (snd (fst (LoggerV2.debug (Some "m") (Some "e") None ready)))
     = [ {| lc_level := "debug"; lc_message := VStr "e: m"; lc_meta := [] |} ]
  /\ snd (LoggerV2.error (VStr "boom") None None None ready) = Ok tt.
Proof. repeat split. Qed.

(* ================================================================= *)
(** ** The Sentry binding *)

Lemma tracesSampler_health (tracesSampleRate : Q)
  (ignoreURLs customURLs : list string) (customURLsSampleRate : Q)
  (ctx : context) :
  url_contains ctx "/health" ->
  LoggerV2.tracesSampler tracesSampleRate ignoreURLs customURLs
    customURLsSampleRate ctx = 0%Q.
Proof.
  intros H. apply urlIncludes_contains in H.
  unfold LoggerV2.tracesSampler, LoggerV2.skipURLs, some.
  cbn [existsb]. now rewrite H.
Qed.

(** C7. The first [initializeSentry] on an instance configures the SDK
    with its own arguments, the sampling policy among them, which rates
    any URL containing "/health" at 0 also when no ignore list is given.
    From then on nothing that is called on the instance changes the
    binding: a later [initializeSentry], whatever its DSN and options,
    returns without any effect, and the handlers stay those of the first
    configuration. *)
Theorem initializeSentry_first_write_wins
  (this : LoggerV2.Logger) (w : world) (app : Router) (dsn : string)
  (ignoreErrors : option (list string)) (tracesSampleRate : option Q)
  (options : option LoggerV2.samplingOptions) :
  LoggerV2.sentry this = None ->
  let first :=
    LoggerV2.sentryOptions (NODE_ENV w) app dsn ignoreErrors tracesSampleRate
      options in
  let bound :=
    fst (LoggerV2.initializeSentry app dsn ignoreErrors tracesSampleRate
           options (this, w)) in
  sentry_config (snd bound) = Some first
  /\ (exists sampler,
        traces first = tracesSampler_ sampler
        /\ sampler
           = LoggerV2.tracesSampler
               (orElse tracesSampleRate (25 # 100))
               (orElse (LoggerV2.ignoreURLs (orElse options LoggerV2.noOptions)) [])
               (orElse (LoggerV2.customURLs (orElse options LoggerV2.noOptions)) [])
               (orElse (LoggerV2.customURLsSampleRate
                          (orElse options LoggerV2.noOptions)) (1 # 10))
        /\ forall ctx, url_contains ctx "/health" -> sampler ctx = 0%Q)
  /\ (forall (cs : list LoggerV2.call),
        let later := LoggerV2.run cs bound in
        sentry_config (snd later) = Some first
        /\ LoggerV2.getSentryHandlers later
           = (later, Ok {| handlers_config := Some first |})
        /\ forall app' dsn' ignoreErrors' tracesSampleRate' options',
             LoggerV2.initializeSentry app' dsn' ignoreErrors'
               tracesSampleRate' options' later
             = (later, Ok tt)).
Proof.
  intros Hnone first bound.
  assert (Hb : bound
               = ({| LoggerV2.level := LoggerV2.level this;
                     LoggerV2.logger := LoggerV2.logger this;
                     LoggerV2.webhookUrl := LoggerV2.webhookUrl this;
                     LoggerV2.webhookColor := LoggerV2.webhookColor this;
                     LoggerV2.tag := LoggerV2.tag this;
                     LoggerV2.sentry := Some LoggerV2.sentrySDK |},
                  set_sentry_config first w)).
  { unfold bound, LoggerV2.initializeSentry. now rewrite Hnone. }
  split; [now rewrite Hb|]. split.
  - eexists. split; [reflexivity|]. split; [reflexivity|].
    intros ctx. apply tracesSampler_health.
  - intros cs later.
    destruct (run_v2_sentry cs bound LoggerV2.sentrySDK) as [Hs Hc];
      [now rewrite Hb|].
    fold later in Hs, Hc.
    assert (Hcfg : sentry_config (snd later) = Some first)
      by (rewrite Hc, Hb; reflexivity).
    split; [exact Hcfg|]. split.
    + unfold LoggerV2.getSentryHandlers.
      destruct later as [this' w']. cbn [fst snd] in *.
      now rewrite Hs, Hcfg.
    + intros app' dsn' ie' rate' opts'. unfold LoggerV2.initializeSentry.
      destruct later as [this' w']. cbn [fst] in Hs. now rewrite Hs.
Qed.

(** Two calls with different DSNs: the binding is the first one's. *)
Example initializeSentry_twice :
  let w :=
    {| NODE_ENV := Some "production"; sentry_config := None; captures := [];
       written := []; posts := []; network := fun _ => true |} in
  let st :=
    LoggerV2.run
      [LoggerV2.call_initializeSentry "app" "https://first@sentry/1" None None
         None;
       LoggerV2.call_initializeSentry "app" "https://second@sentry/2"
         (Some ["ECONNRESET"]) (Some (8 # 10)) None]
      (LoggerV2.new_Logger, w) in
  option_map dsn (sentry_config (snd st)) = Some "https://first@sentry/1"
  /\ option_map dsn (handlers_config
                       match snd (LoggerV2.getSentryHandlers st) with
                       | Ok h => h
                       | Throw _ => {| handlers_config := None |}
                       end)
     = Some "https://first@sentry/1".
Proof. repeat split. Qed.

(* ================================================================= *)
(** ** The facade of the older variant *)

Lemma error_v1_uninitialized (err : value) (message eventType : option string)
  (payload : option obj) (st : LoggerV1.state) :
  LoggerV1.logger (fst st) = None ->
  LoggerV1.error err message eventType payload st
  = (st, Throw LoggerV1.uninitialized).
Proof.
  intros H. unfold LoggerV1.error, bindM, throw. now rewrite H.
Qed.

(** A call other than [initializeTransports] leaves an uninitialized
    instance uninitialized, at the level it had. *)
Lemma exec_v1_uninitialized (c : LoggerV1.call) (st : LoggerV1.state) :
  LoggerV1.is_initializeTransports c = false ->
  LoggerV1.logger (fst st) = None ->
  LoggerV1.logger (fst (fst (LoggerV1.exec c st))) = None
  /\ LoggerV1.level (fst (fst (LoggerV1.exec c st))) = LoggerV1.level (fst st).
Proof.
  intros Hc Hl. destruct st as [this w]. cbn [fst] in Hl.
  destruct c; try discriminate; cbn [LoggerV1.exec].
  - unfold LoggerV1.initializeSentry.
    destruct (LoggerV1.sentry this); now split.
  - unfold LoggerV1.discard, LoggerV1.getSentryHandlers.
    destruct (LoggerV1.sentry this); now split.
  - now split.
  - unfold LoggerV1.setLevel. rewrite Hl. now split.
  - unfold LoggerV1.debug. cbn [fst]. rewrite Hl. now split.
  - unfold LoggerV1.info. cbn [fst]. rewrite Hl. now split.
  - unfold LoggerV1.warn. cbn [fst]. rewrite Hl. now split.
  - rewrite error_v1_uninitialized by exact Hl. now split.
Qed.

Lemma run_v1_uninitialized (cs : list LoggerV1.call) (st : LoggerV1.state) :
  no_initializeTransports_v1 cs ->
  LoggerV1.logger (fst st) = None ->
  LoggerV1.logger (fst (LoggerV1.run cs st)) = None
  /\ LoggerV1.level (fst (LoggerV1.run cs st)) = LoggerV1.level (fst st).
Proof.
  unfold no_initializeTransports_v1.
  revert st. induction cs as [|c cs IH]; intros st Hcs Hl; [now split|].
  cbn [forallb] in Hcs. apply andb_true_iff in Hcs as [Hc Hcs].
  apply negb_true_iff in Hc. cbn [LoggerV1.run].
  destruct (exec_v1_uninitialized c st Hc Hl) as [Hl' Hv].
  destruct (IH _ Hcs Hl') as [H1 H2].
  split; [exact H1 | congruence].
Qed.

(* ================================================================= *)
(** ** [getLevel] *)

(** C10. [getLevel] has no initialization guard: on any instance, in
    either variant, it returns the current level and never throws. On
    an instance on which [initializeTransports] has not been called that
    level is "debug", whatever else has been called, while [setLevel]
    throws there. *)
Theorem getLevel_is_unguarded :
  (forall st : LoggerV2.state,
      LoggerV2.getLevel st = (st, Ok (LoggerV2.level (fst st))))
  /\ (forall (w : world) (cs : list LoggerV2.call),
        no_initializeTransports_v2 cs ->
        snd (LoggerV2.getLevel (LoggerV2.run cs (LoggerV2.new_Logger, w)))
        = Ok "debug"
        /\ forall level,
             snd (LoggerV2.setLevel level
                    (LoggerV2.run cs (LoggerV2.new_Logger, w)))
             = Throw (Error "Logger is not initialized"))
  /\ (forall st : LoggerV1.state,
        LoggerV1.getLevel st = (st, Ok (LoggerV1.level (fst st))))
  /\ (forall (w : world) (cs : list LoggerV1.call),
        no_initializeTransports_v1 cs ->
        snd (LoggerV1.getLevel (LoggerV1.run cs (LoggerV1.new_Logger, w)))
        = Ok "debug"
        /\ forall level,
             snd (LoggerV1.setLevel level
                    (LoggerV1.run cs (LoggerV1.new_Logger, w)))
             = Throw (Error "Logger is not initialized")).
Proof.
  split; [reflexivity|]. split; [|split; [reflexivity|]].
  - intros w cs Hcs.
    destruct (run_v2_uninitialized cs (LoggerV2.new_Logger, w) Hcs eq_refl)
      as [Hl Hv].
    split.
    + unfold LoggerV2.getLevel. cbn [snd]. now rewrite Hv.
    + intros level.
      exact (f_equal snd
               (guarded_v2_uninitialized (LoggerV2.call_setLevel level) _
                  eq_refl Hl)).
  - intros w cs Hcs.
    destruct (run_v1_uninitialized cs (LoggerV1.new_Logger, w) Hcs eq_refl)
      as [Hl Hv].
    split.
    + unfold LoggerV1.getLevel. cbn [snd]. now rewrite Hv.
    + intros level. unfold LoggerV1.setLevel.
      destruct (LoggerV1.run cs (LoggerV1.new_Logger, w)) as [this w'].
      cbn [fst] in Hl. now rewrite Hl.
Qed.

Example getLevel_examples :
  let w :=
    {| NODE_ENV := Some "localhost"; sentry_config := None; captures := [];
       written := []; posts := []; network := fun _ => true |} in
  snd (LoggerV2.getLevel (LoggerV2.new_Logger, w)) = Ok "debug"
  /\ snd (LoggerV1.getLevel (LoggerV1.new_Logger, w)) = Ok "debug"
  /\ snd (LoggerV2.getLevel
            (LoggerV2.run
               [LoggerV2.call_initializeTransports (Some "warn")
                  (Some "lounge") None None None None;
                LoggerV2.call_setLevel "info"]
               (LoggerV2.new_Logger, w))) = Ok "info".
Proof. repeat split. Qed.

(* ================================================================= *)
(** ** The statements at concrete inputs *)

Lemma tracesSampler_first_match_witness :
  LoggerV2.tracesSampler (25 # 100) ["/metrics"] ["/users"] (1 # 10) get_users
  = (1 # 10)%Q
  /\ LoggerV2.tracesSampler (25 # 100) ["/metrics"; "/users"] ["/users"]
       (1 # 10) get_users = 0%Q
  /\ LoggerV2.tracesSampler (25 # 100) [] ["/users"] (1 # 10) get_health = 0%Q.
Proof.
  split; [|split].
  - apply (tracesSampler_first_match (25 # 100) ["/metrics"] ["/users"]
             (1 # 10) get_users).
    + intros [(r & [= <-] & H)|[H|(p & [<-|[]] & H)]].
      * discriminate.
      * apply urlIncludes_contains in H. discriminate.
      * apply urlIncludes_contains in H. discriminate.
    + exists "/users". split; [now left|].
      apply urlIncludes_contains. reflexivity.
  - apply (tracesSampler_first_match (25 # 100) ["/metrics"; "/users"]
             ["/users"] (1 # 10) get_users).
    right; right. exists "/users". split; [right; now left|].
    apply urlIncludes_contains. reflexivity.
  - apply (tracesSampler_first_match (25 # 100) [] ["/users"] (1 # 10)
             get_health).
    right; left. apply urlIncludes_contains. reflexivity.
Defined.

Lemma customFormat_cases_witness :
  LoggerV2.customFormat (Some "started") (Some "boot") = "boot: started"
  /\ LoggerV2.customFormat (Some "started") (Some "") = "started"
  /\ LoggerV2.customFormat None (Some "boot") = "boot".
Proof.
  split; [|split].
  - apply (proj1 (customFormat_cases (Some "started") (Some "boot"))
             "started" "boot"); split; try reflexivity; discriminate.
  - apply (proj1 (proj2 (customFormat_cases (Some "started") (Some "")))
             "started").
    + split; [reflexivity | discriminate].
    + now right.
  - apply (proj1 (proj2 (proj2 (customFormat_cases None (Some "boot"))))
             "boot").
    + now left.
    + split; [reflexivity | discriminate].
Defined.


Lemma formatMessage_cases_witness :
  ToString (optGet (VObj paid_record) "timestamp")
  = Ok "2024-05-01T00:00:00.000Z"
  /\ ToString (optGet (VObj paid_record) "level") = Ok "info"
  /\ ToString (optGet (VObj paid_record) "message") = Ok "paid"
  /\ formatMessage paid_record
     = Ok ("2024-05-01T00:00:00.000Z info: paid" ++ nl
           ++ "{" ++ nl ++ "  " ++ quoteJSON "amount" ++ ": 10" ++ nl ++ "}").
Proof.
  split; [reflexivity|]. split; [reflexivity|]. split; [reflexivity|].
  apply (proj1 (proj2 (formatMessage_cases paid_record
                         "2024-05-01T00:00:00.000Z" "info" "paid"
                         eq_refl eq_refl eq_refl))
           ("amount", JNum 10) []).
  reflexivity.
Defined.

Lemma initializeTransports_selects_sinks_witness :
  exists this' l,
    LoggerV2.initializeTransports (Some "warn") (Some "lounge") None None None
      None (LoggerV2.new_Logger, production) = (this', production, Ok tt)
    /\ LoggerV2.logger this' = Some l
    /\ exists cw,
         transports l = [Cloudwatch cw]
         /\ logGroupName cw = "lounge-production"
         /\ cloudwatch_level cw = "warn".
Proof.
  destruct (proj1 initializeTransports_selects_sinks LoggerV2.new_Logger
              production "warn" "lounge" None None None None)
    as (this' & l & E & Hl & _ & Hcloud); try discriminate.
  exists this', l. split; [exact E|]. split; [exact Hl|].
  apply Hcloud. intros [H|[H|H]]; discriminate.
Defined.

Lemma logStreamName_follows_the_date_witness :
  logStreamName "lounge" 1714567600123 = "lounge-2024-05-01".
Proof.
  apply (proj1 (proj2 (proj2 logStreamName_follows_the_date))). lia.
Defined.

Lemma postWebhookAlert_never_raises_witness :
  LoggerV2.postWebhookAlert (VStr "boom") (Some "m") None None None
    (LoggerV2.new_Logger, production)
  = ((LoggerV2.new_Logger, production), Ok tt).
Proof.
  apply (proj1 (proj2 (postWebhookAlert_never_raises (VStr "boom")
                         (Some "m") None None None
                         (LoggerV2.new_Logger, production)))); now left.
Defined.

Lemma uninitialized_guard_witness :
  LoggerV2.exec (LoggerV2.call_warn (Some "m") None None)
    (LoggerV2.run [LoggerV2.call_initializeSentry "app" "dsn" None None None;
                   LoggerV2.call_getLevel]
       (LoggerV2.new_Logger, production))
  = (LoggerV2.run [LoggerV2.call_initializeSentry "app" "dsn" None None None;
                   LoggerV2.call_getLevel]
       (LoggerV2.new_Logger, production),
     Throw (Error "Logger is not initialized"))
  /\ snd (LoggerV2.exec (LoggerV2.call_warn (Some "m") None None)
            (LoggerV2.run [LoggerV2.call_setLevel "info"]
               (fst (LoggerV2.initializeTransports (Some "warn")
                       (Some "lounge") None None None None
                       (LoggerV2.new_Logger, production)))))
     <> Throw (Error "Logger is not initialized").
Proof.
  split.
  - apply (proj1 uninitialized_guard); reflexivity.
  - apply (proj2 uninitialized_guard); reflexivity.
Defined.

Lemma initializeSentry_first_write_wins_witness :
  LoggerV2.sentry LoggerV2.new_Logger = None
  /\ forall cs,
       option_map dsn
         (sentry_config
            (snd (LoggerV2.run cs
                    (fst (LoggerV2.initializeSentry "app"
                            "https://first@sentry/1" None None None
                            (LoggerV2.new_Logger, production))))))
       = Some "https://first@sentry/1".
Proof.
  split; [reflexivity|]. intros cs.
  destruct (initializeSentry_first_write_wins LoggerV2.new_Logger production
              "app" "https://first@sentry/1" None None None eq_refl)
    as (_ & _ & H).
  destruct (H cs) as [E _]. cbv zeta in E. now rewrite E.
Defined.

Lemma getLevel_is_unguarded_witness :
  snd (LoggerV2.getLevel
         (LoggerV2.run [LoggerV2.call_debug (Some "m") None None;
                        LoggerV2.call_setLevel "info"]
            (LoggerV2.new_Logger, localhost))) = Ok "debug"
  /\ snd (LoggerV1.getLevel
            (LoggerV1.run [LoggerV1.call_setLevel "info"]
               (LoggerV1.new_Logger, localhost))) = Ok "debug".
Proof.
  split.
  - apply (proj1 (proj2 getLevel_is_unguarded)). reflexivity.
  - apply (proj2 (proj2 (proj2 getLevel_is_unguarded))). reflexivity.
Defined.

(* ================================================================= *)
(** * Further properties of the facade *)

(** ** The older variant, call by call *)

Definition no_initializeSentry_v1 (cs : list LoggerV1.call) : Prop :=
  forallb (fun c => match c with
                    | LoggerV1.call_initializeSentry _ _ _ _ => false
                    | _ => true
                    end) cs = true.

Definition no_initializeSentry_v2 (cs : list LoggerV2.call) : Prop :=
  forallb (fun c => match c with
                    | LoggerV2.call_initializeSentry _ _ _ _ _ => false
                    | _ => true
                    end) cs = true.

Lemma callToString_throws (v : value) (e : exn) :
  callToString v = Throw e -> is_TypeError e.
Proof.
  destruct v; cbn [callToString]; intros H;
    try (eapply optToString_throws; exact H);
    injection H as <-; eexists; reflexivity.
Qed.

Lemma get_throws (v : value) (k : string) (e : exn) :
  get v k = Throw e -> is_TypeError e.
Proof.
  destruct v; cbn [get]; intros H; try discriminate;
    injection H as <-; eexists; reflexivity.
Qed.

Lemma formatError_v1_throws (error message : value) (e : exn) :
  LoggerV1.formatError error message = Throw e -> is_TypeError e.
Proof.
  unfold LoggerV1.formatError, bind. intros H.
  destruct (ToString message) as [m|e1] eqn:E1;
    [|injection H as <-; eapply ToString_throws; exact E1].
  destruct (callToString error) as [s|e2] eqn:E2;
    [|injection H as <-; eapply callToString_throws; exact E2].
  destruct (ToString s) as [s'|e3] eqn:E3;
    [|injection H as <-; eapply ToString_throws; exact E3].
  destruct (get error "stack") as [st|e4] eqn:E4;
    [|injection H as <-; eapply get_throws; exact E4].
  destruct (ToString st) as [st'|e5] eqn:E5;
    [discriminate|injection H as <-; eapply ToString_throws; exact E5].
Qed.

Lemma error_v1_frame (err : value) (message eventType : option string)
  (payload : option obj) (this : LoggerV1.Logger) (w : world)
  (l : winstonLogger) :
  LoggerV1.logger this = Some l ->
  exists w',
    fst (LoggerV1.error err message eventType payload (this, w)) = (this, w')
    /\ same_config w w'
    /\ posts w' = posts w
    /\ (snd (LoggerV1.error err message eventType payload (this, w)) = Ok tt
        \/ exists e,
             snd (LoggerV1.error err message eventType payload (this, w))
             = Throw e /\ is_TypeError e).
Proof.
  intros Hl.
  unfold LoggerV1.error, bindM, when, lift, LoggerV1.captureException,
    LoggerV1.winston_log, modify, ret.
  cbn [fst snd]. rewrite Hl.
  pose proof (formatError_v1_throws err
                (LoggerV1.customFormat message eventType)) as Hthrow.
  destruct (LoggerV1.sentry this); cbn [fst snd];
    destruct (LoggerV1.formatError err _) as [txt|e]; cbn [fst snd];
    eexists; (split; [reflexivity|]); (split; [split; reflexivity|]);
    (split; [reflexivity|]);
    first [ left; reflexivity
          | right; eexists; split; [reflexivity | now apply Hthrow] ].
Qed.

(** What one call of the older variant leaves of the instance and the
    world. *)
Lemma exec_v1_frame (c : LoggerV1.call) (this : LoggerV1.Logger) (w : world) :
  exists this' w',
    fst (LoggerV1.exec c (this, w)) = (this', w')
    /\ NODE_ENV w' = NODE_ENV w
    /\ posts w' = posts w
    /\ (forall s, LoggerV1.sentry this = Some s ->
          LoggerV1.sentry this' = Some s
          /\ sentry_config w' = sentry_config w)
    /\ (LoggerV1.logger this <> None -> LoggerV1.logger this' <> None)
    /\ (match c with
        | LoggerV1.call_initializeSentry _ _ _ _ => False
        | _ => True
        end ->
        LoggerV1.sentry this' = LoggerV1.sentry this
        /\ sentry_config w' = sentry_config w).
Proof.
  destruct c; cbn [LoggerV1.exec].
  - unfold LoggerV1.initializeTransports. frame_done.
  - unfold LoggerV1.initializeSentry.
    destruct (LoggerV1.sentry this) eqn:Es; frame_done.
  - unfold LoggerV1.discard, LoggerV1.getSentryHandlers.
    destruct (LoggerV1.sentry this) eqn:Es; frame_done.
  - frame_done.
  - unfold LoggerV1.setLevel.
    destruct (LoggerV1.logger this) eqn:El; frame_done.
  - unfold LoggerV1.debug, LoggerV1.winston_log, modify. cbn [fst snd].
    destruct (LoggerV1.logger this) eqn:El; frame_done.
  - unfold LoggerV1.info, LoggerV1.winston_log, modify. cbn [fst snd].
    destruct (LoggerV1.logger this) eqn:El; frame_done.
  - unfold LoggerV1.warn, LoggerV1.winston_log, modify. cbn [fst snd].
    destruct (LoggerV1.logger this) eqn:El; frame_done.
  - destruct (LoggerV1.logger this) as [l|] eqn:El.
    + destruct (error_v1_frame err message eventType payload this w l El)
        as (w' & E & [He Hs] & Hp & _).
      exists this, w'. intuition (try congruence; try discriminate).
    + rewrite error_v1_uninitialized by exact El. frame_done.
Qed.

Lemma run_v1_initialized (cs : list LoggerV1.call) (st : LoggerV1.state) :
  LoggerV1.logger (fst st) <> None ->
  LoggerV1.logger (fst (LoggerV1.run cs st)) <> None.
Proof.
  revert st. induction cs as [|c cs IH]; intros st Hl; [exact Hl|].
  cbn [LoggerV1.run]. apply IH. destruct st as [this w].
  destruct (exec_v1_frame c this w) as (this' & w' & E & _ & _ & _ & Hk & _).
  rewrite E. now apply Hk.
Qed.

Lemma run_v1_sentry (cs : list LoggerV1.call) (st : LoggerV1.state)
  (s : LoggerV1.sentryModule) :
  LoggerV1.sentry (fst st) = Some s ->
  LoggerV1.sentry (fst (LoggerV1.run cs st)) = Some s
  /\ sentry_config (snd (LoggerV1.run cs st)) = sentry_config (snd st).
Proof.
  revert st. induction cs as [|c cs IH]; intros st Hs; [now split|].
  cbn [LoggerV1.run]. destruct st as [this w].
  destruct (exec_v1_frame c this w) as (this' & w' & E & _ & _ & Hk & _).
  rewrite E. destruct (Hk s Hs) as [Hs' Hc].
  destruct (IH (this', w') Hs') as [H1 H2].
  split; [exact H1|]. cbn [snd] in *. congruence.
Qed.

Lemma run_v1_unbound (cs : list LoggerV1.call) (st : LoggerV1.state) :
  no_initializeSentry_v1 cs ->
  LoggerV1.sentry (fst (LoggerV1.run cs st)) = LoggerV1.sentry (fst st)
  /\ sentry_config (snd (LoggerV1.run cs st)) = sentry_config (snd st).
Proof.
  unfold no_initializeSentry_v1.
  revert st. induction cs as [|c cs IH]; intros st Hcs; [now split|].
  cbn [forallb] in Hcs. apply andb_true_iff in Hcs as [Hc Hcs].
  cbn [LoggerV1.run]. destruct st as [this w].
  destruct (exec_v1_frame c this w) as (this' & w' & E & _ & _ & _ & _ & Hk).
  rewrite E. destruct (IH (this', w') Hcs) as [H1 H2].
  destruct Hk as [Hs Hg]; [destruct c; try exact I; discriminate|].
  cbn [fst snd] in *. split; congruence.
Qed.

Lemma guarded_v1_initialized (c : LoggerV1.call) (st : LoggerV1.state) :
  LoggerV1.guarded c = true ->
  LoggerV1.logger (fst st) <> None ->
  snd (LoggerV1.exec c st) = Ok tt
  \/ exists e, snd (LoggerV1.exec c st) = Throw e /\ is_TypeError e.
Proof.
  intros Hg Hl. destruct st as [this w]. cbn [fst] in Hl.
  destruct (LoggerV1.logger this) as [l|] eqn:El; [clear Hl|contradiction].
  destruct c; try discriminate; cbn [LoggerV1.exec].
  - unfold LoggerV1.setLevel. rewrite El. now left.
  - unfold LoggerV1.debug. cbn [fst]. rewrite El. now left.
  - unfold LoggerV1.info. cbn [fst]. rewrite El. now left.
  - unfold LoggerV1.warn. cbn [fst]. rewrite El. now left.
  - destruct (error_v1_frame err message eventType payload this w l El)
      as (w' & _ & _ & _ & H). exact H.
Qed.

Lemma guarded_v1_uninitialized (c : LoggerV1.call) (st : LoggerV1.state) :
  LoggerV1.guarded c = true ->
  LoggerV1.logger (fst st) = None ->
  LoggerV1.exec c st = (st, Throw LoggerV1.uninitialized).
Proof.
  intros Hg Hl. destruct c; try discriminate; cbn [LoggerV1.exec].
  - unfold LoggerV1.setLevel. destruct st as [this w]. cbn in Hl.
    now rewrite Hl.
  - unfold LoggerV1.debug. now rewrite Hl.
  - unfold LoggerV1.info. now rewrite Hl.
  - unfold LoggerV1.warn. now rewrite Hl.
  - now apply error_v1_uninitialized.
Qed.

(** X1. The older variant guards the same five calls: before
    [initializeTransports], whatever else was called, each throws
    [Error("Logger is not initialized")] and leaves instance and world as
    they were; after [initializeTransports], which always returns there,
    none of them throws that error again. *)
Theorem uninitialized_guard_older_variant :
  (forall (w : world) (cs : list LoggerV1.call) (c : LoggerV1.call),
      no_initializeTransports_v1 cs ->
      LoggerV1.guarded c = true ->
      LoggerV1.exec c (LoggerV1.run cs (LoggerV1.new_Logger, w))
      = (LoggerV1.run cs (LoggerV1.new_Logger, w),
         Throw (Error "Logger is not initialized")))
  /\ (forall (st : LoggerV1.state) (logglyToken defaultLevel tag : option string)
             (cs : list LoggerV1.call) (c : LoggerV1.call),
        LoggerV1.guarded c = true ->
        snd (LoggerV1.initializeTransports logglyToken defaultLevel tag st)
        = Ok tt
        /\ snd (LoggerV1.exec c
                  (LoggerV1.run cs
                     (fst (LoggerV1.initializeTransports logglyToken
                             defaultLevel tag st))))
           <> Throw (Error "Logger is not initialized")).
Proof.
  split.
  - intros w cs c Hcs Hc.
    apply guarded_v1_uninitialized; [exact Hc|].
    now apply run_v1_uninitialized.
  - intros [this w] tk dl tg cs c Hc. split; [reflexivity|].
    assert (Hl : LoggerV1.logger
                   (fst (fst (LoggerV1.initializeTransports tk dl tg
                                (this, w)))) <> None) by discriminate.
    apply (run_v1_initialized cs) in Hl.
    destruct (guarded_v1_initialized c _ Hc Hl) as [E|(e & E & [msg ->])];
      rewrite E; discriminate.
Qed.

Lemma uninitialized_guard_older_variant_witness :
  snd (LoggerV1.exec (LoggerV1.call_error (VStr "boom") None None None)
         (LoggerV1.run [LoggerV1.call_initializeSentry "app" "dsn" None None]
            (LoggerV1.new_Logger, production)))
  = Throw (Error "Logger is not initialized")
  /\ snd (LoggerV1.exec (LoggerV1.call_error (VStr "boom") None None None)
            (LoggerV1.run []
               (fst (LoggerV1.initializeTransports None None None
                       (LoggerV1.new_Logger, production)))))
     <> Throw (Error "Logger is not initialized").
Proof.
  split.
  - rewrite (proj1 uninitialized_guard_older_variant); reflexivity.
  - apply (proj2 uninitialized_guard_older_variant); reflexivity.
Defined.

(** ** The Sentry handlers *)

Lemma exec_v2_unbound (c : LoggerV2.call) (this : LoggerV2.Logger) (w : world) :
  match c with
  | LoggerV2.call_initializeSentry _ _ _ _ _ => False
  | _ => True
  end ->
  LoggerV2.sentry (fst (fst (LoggerV2.exec c (this, w)))) = LoggerV2.sentry this
  /\ sentry_config (snd (fst (LoggerV2.exec c (this, w)))) = sentry_config w.
Proof.
  destruct c; cbn [LoggerV2.exec]; intros Hc; try contradiction.
  - unfold LoggerV2.initializeTransports.
    destruct defaultLevel as [d|], tag as [t|];
      try destruct (negb (truthy (VStr d)) || negb (truthy (VStr t)));
      cbn; now split.
  - unfold LoggerV2.discard, LoggerV2.getSentryHandlers.
    destruct (LoggerV2.sentry this) eqn:Es; cbn; split; congruence.
  - now split.
  - unfold LoggerV2.setLevel.
    destruct (LoggerV2.logger this); cbn; now split.
  - unfold LoggerV2.debug. cbn [fst].
    destruct (LoggerV2.logger this); cbn; now split.
  - unfold LoggerV2.info. cbn [fst].
    destruct (LoggerV2.logger this); cbn; now split.
  - unfold LoggerV2.warn. cbn [fst].
    destruct (LoggerV2.logger this); cbn; now split.
  - destruct (LoggerV2.logger this) as [l|] eqn:El.
    + destruct (error_v2_frame err message eventType payload this w l El)
        as (w' & E & [He Hs] & _).
      rewrite E. now split.
    + rewrite error_v2_uninitialized by exact El. now split.
  - destruct (postWebhookAlert_frame err message eventType payload webhookUrl
                (this, w)) as (ps & E & _).
    rewrite E. now split.
Qed.

Lemma run_v2_unbound (cs : list LoggerV2.call) (st : LoggerV2.state) :
  no_initializeSentry_v2 cs ->
  LoggerV2.sentry (fst (LoggerV2.run cs st)) = LoggerV2.sentry (fst st)
  /\ sentry_config (snd (LoggerV2.run cs st)) = sentry_config (snd st).
Proof.
  unfold no_initializeSentry_v2.
  revert st. induction cs as [|c cs IH]; intros st Hcs; [now split|].
  cbn [forallb] in Hcs. apply andb_true_iff in Hcs as [Hc Hcs].
  cbn [LoggerV2.run]. destruct st as [this w].
  destruct (exec_v2_unbound c this w) as [Hs Hg];
    [destruct c; try exact I; discriminate|].
  destruct (IH (fst (LoggerV2.exec c (this, w))) Hcs) as [H1 H2].
  cbn [fst snd] in *. split; congruence.
Qed.

(** X2. [getSentryHandlers] answers to [initializeSentry] alone: on an
    instance on which [initializeSentry] was never called it throws
    [Error("Logger is not initialized")], also when the transports are
    initialized; once [initializeSentry] was called it returns the handlers,
    whatever was called since and whether or not the transports are
    initialized. In both variants. *)
Theorem getSentryHandlers_needs_initializeSentry :
  (forall (w : world) (cs : list LoggerV2.call),
      no_initializeSentry_v2 cs ->
      LoggerV2.getSentryHandlers (LoggerV2.run cs (LoggerV2.new_Logger, w))
      = (LoggerV2.run cs (LoggerV2.new_Logger, w),
         Throw (Error "Logger is not initialized")))
  /\ (forall (st : LoggerV2.state) app dsn ignoreErrors tracesSampleRate
             options (cs : list LoggerV2.call),
        succeeds
          (snd (LoggerV2.getSentryHandlers
                  (LoggerV2.run cs
                     (fst (LoggerV2.initializeSentry app dsn ignoreErrors
                             tracesSampleRate options st))))))
  /\ (forall (w : world) (cs : list LoggerV1.call),
        no_initializeSentry_v1 cs ->
        LoggerV1.getSentryHandlers (LoggerV1.run cs (LoggerV1.new_Logger, w))
        = (LoggerV1.run cs (LoggerV1.new_Logger, w),
           Throw (Error "Logger is not initialized")))
  /\ (forall (st : LoggerV1.state) app dsn ignoreErrors tracesSampleRate
             (cs : list LoggerV1.call),
        succeeds
          (snd (LoggerV1.getSentryHandlers
                  (LoggerV1.run cs
                     (fst (LoggerV1.initializeSentry app dsn ignoreErrors
                             tracesSampleRate st)))))).
Proof.
  split; [|split; [|split]].
  - intros w cs Hcs.
    destruct (run_v2_unbound cs (LoggerV2.new_Logger, w) Hcs) as [Hs _].
    unfold LoggerV2.getSentryHandlers.
    destruct (LoggerV2.run cs (LoggerV2.new_Logger, w)) as [this w'].
    cbn [fst] in Hs. now rewrite Hs.
  - intros [this w] app d ie r o cs.
    assert (Hb : LoggerV2.sentry
                   (fst (fst (LoggerV2.initializeSentry app d ie r o (this, w))))
                 = Some LoggerV2.sentrySDK).
    { unfold LoggerV2.initializeSentry.
      destruct (LoggerV2.sentry this) as [s|] eqn:Es; cbn;
        [rewrite Es; now destruct s | reflexivity]. }
    destruct (run_v2_sentry cs _ _ Hb) as [Hs _].
    unfold LoggerV2.getSentryHandlers.
    destruct (LoggerV2.run cs _) as [this' w']. cbn [fst] in Hs.
    rewrite Hs. eexists; reflexivity.
  - intros w cs Hcs.
    destruct (run_v1_unbound cs (LoggerV1.new_Logger, w) Hcs) as [Hs _].
    unfold LoggerV1.getSentryHandlers.
    destruct (LoggerV1.run cs (LoggerV1.new_Logger, w)) as [this w'].
    cbn [fst] in Hs. now rewrite Hs.
  - intros [this w] app d ie r cs.
    assert (Hb : LoggerV1.sentry
                   (fst (fst (LoggerV1.initializeSentry app d ie r (this, w))))
                 = Some LoggerV1.sentrySDK).
    { unfold LoggerV1.initializeSentry.
      destruct (LoggerV1.sentry this) as [s|] eqn:Es; cbn;
        [rewrite Es; now destruct s | reflexivity]. }
    destruct (run_v1_sentry cs _ _ Hb) as [Hs _].
    unfold LoggerV1.getSentryHandlers.
    destruct (LoggerV1.run cs _) as [this' w']. cbn [fst] in Hs.
    rewrite Hs. eexists; reflexivity.
Qed.

Lemma getSentryHandlers_needs_initializeSentry_witness :
  snd (LoggerV2.getSentryHandlers
         (LoggerV2.run
            [LoggerV2.call_initializeTransports (Some "warn") (Some "lounge")
               None None None None;
             LoggerV2.call_warn (Some "m") None None]
            (LoggerV2.new_Logger, production)))
  = Throw (Error "Logger is not initialized")
  /\ snd (LoggerV1.getSentryHandlers
            (LoggerV1.run [LoggerV1.call_initializeTransports None None None]
               (LoggerV1.new_Logger, production)))
     = Throw (Error "Logger is not initialized").
Proof.
  split.
  - rewrite (proj1 getSentryHandlers_needs_initializeSentry); reflexivity.
  - rewrite (proj1 (proj2 (proj2 getSentryHandlers_needs_initializeSentry)));
      reflexivity.
Defined.

(** X3. The older variant binds Sentry once as well: the first
    [initializeSentry] on an instance configures the SDK with its DSN, the
    environment, its ignore list (none by default) and a fixed sample rate
    (0.5 by default); no later call on the instance changes that, and a
    later [initializeSentry] returns without any effect. *)
Theorem initializeSentry_older_variant_first_write_wins
  (this : LoggerV1.Logger) (w : world) (app : Router) (dsn : string)
  (ignoreErrors : option (list string)) (tracesSampleRate : option Q) :
  LoggerV1.sentry this = None ->
  let first :=
    {| dsn := dsn;
       environment := NODE_ENV w;
       ignoreErrors := orElse ignoreErrors [];
       integrations := [Http true; Express app];
       traces := tracesSampleRate_ (orElse tracesSampleRate (5 # 10)) |} in
  let bound :=
    fst (LoggerV1.initializeSentry app dsn ignoreErrors tracesSampleRate
           (this, w)) in
  sentry_config (snd bound) = Some first
  /\ (forall (cs : list LoggerV1.call),
        let later := LoggerV1.run cs bound in
        sentry_config (snd later) = Some first
        /\ LoggerV1.getSentryHandlers later
           = (later, Ok {| handlers_config := Some first |})
        /\ forall app' dsn' ignoreErrors' tracesSampleRate',
             LoggerV1.initializeSentry app' dsn' ignoreErrors'
               tracesSampleRate' later
             = (later, Ok tt)).
Proof.
  intros Hnone first bound.
  assert (Hb : bound
               = ({| LoggerV1.level := LoggerV1.level this;
                     LoggerV1.logger := LoggerV1.logger this;
                     LoggerV1.sentry := Some LoggerV1.sentrySDK |},
                  set_sentry_config
                    (LoggerV1.sentryOptions (NODE_ENV w) app dsn ignoreErrors
                       tracesSampleRate) w)).
  { unfold bound, LoggerV1.initializeSentry. now rewrite Hnone. }
  assert (Hf : LoggerV1.sentryOptions (NODE_ENV w) app dsn ignoreErrors
                 tracesSampleRate = first).
  { reflexivity. }
  rewrite Hf in Hb.
  split; [now rewrite Hb|].
  intros cs later.
  destruct (run_v1_sentry cs bound LoggerV1.sentrySDK) as [Hs Hc];
    [now rewrite Hb|].
  fold later in Hs, Hc.
  assert (Hcfg : sentry_config (snd later) = Some first)
    by (rewrite Hc, Hb; reflexivity).
  split; [exact Hcfg|]. split.
  - unfold LoggerV1.getSentryHandlers.
    destruct later as [this' w']. cbn [fst snd] in *.
    now rewrite Hs, Hcfg.
  - intros app' dsn' ie' rate'. unfold LoggerV1.initializeSentry.
    destruct later as [this' w']. cbn [fst] in Hs. now rewrite Hs.
Qed.

Lemma initializeSentry_older_variant_first_write_wins_witness :
  LoggerV1.sentry LoggerV1.new_Logger = None
  /\ option_map dsn
       (sentry_config
          (snd (LoggerV1.run
                  [LoggerV1.call_initializeSentry "app" "https://second@s/2"
                     None (Some (8 # 10))]
                  (fst (LoggerV1.initializeSentry "app" "https://first@s/1"
                          None None (LoggerV1.new_Logger, production))))))
     = Some "https://first@s/1".
Proof.
  split; [reflexivity|].
  destruct (initializeSentry_older_variant_first_write_wins
              LoggerV1.new_Logger production "app" "https://first@s/1" None
              None eq_refl) as (_ & H).
  destruct (H [LoggerV1.call_initializeSentry "app" "https://second@s/2"
                 None (Some (8 # 10))]) as [E _].
  cbv zeta in E. now rewrite E.
Defined.

(** ** Levels and transports *)

(** Every transport of the logger, if there is one, is at level [level]. *)
Definition transports_at (level : string) (l : option winstonLogger) : Prop :=
  match l with
  | Some lg => Forall (fun t => transport_level t = level) (transports lg)
  | None => True
  end.

(** The instance's level is the level of each of its transports. *)
Definition coherent_v2 (this : LoggerV2.Logger) : Prop :=
  transports_at (LoggerV2.level this) (LoggerV2.logger this).

Definition coherent_v1 (this : LoggerV1.Logger) : Prop :=
  transports_at (LoggerV1.level this) (LoggerV1.logger this).

(** How many transports a logger has, and of which kind. *)
Definition is_console (t : transport) : bool :=
  match t with Console _ => true | _ => false end.

Definition is_cloudwatch (t : transport) : bool :=
  match t with Cloudwatch _ => true | _ => false end.

Definition is_loggly (t : transport) : bool :=
  match t with Loggly _ => true | _ => false end.

Definition shape_v2 (l : option winstonLogger) : Prop :=
  match l with
  | Some lg =>
      exists t, transports lg = [t] /\ is_console t || is_cloudwatch t = true
  | None => True
  end.

Definition shape_v1 (l : option winstonLogger) : Prop :=
  match l with
  | Some lg =>
      exists t,
        is_console t || is_cloudwatch t = true
        /\ (transports lg = [t]
            \/ exists lg', is_cloudwatch t = true
                           /\ transports lg = [Loggly lg'; t])
  | None => True
  end.

Lemma transport_level_set (level : string) (t : transport) :
  transport_level (set_transport_level level t) = level.
Proof. destruct t; reflexivity. Qed.

Lemma set_transport_level_same (t : transport) :
  set_transport_level (transport_level t) t = t.
Proof. destruct t as [[]|[]|[]]; reflexivity. Qed.

Lemma set_transport_level_twice (l1 l2 : string) (t : transport) :
  set_transport_level l2 (set_transport_level l1 t) = set_transport_level l2 t.
Proof. destruct t; reflexivity. Qed.

Lemma set_transport_level_kind (level : string) (t : transport) :
  is_console (set_transport_level level t) = is_console t
  /\ is_cloudwatch (set_transport_level level t) = is_cloudwatch t
  /\ is_loggly (set_transport_level level t) = is_loggly t.
Proof. destruct t; repeat split. Qed.

Lemma map_set_level_at (level : string) (ts : list transport) :
  Forall (fun t => transport_level t = level)
         (map (set_transport_level level) ts).
Proof.
  induction ts as [|t ts IH]; constructor; [apply transport_level_set | exact IH].
Qed.

Lemma map_set_level_same (level : string) (ts : list transport) :
  Forall (fun t => transport_level t = level) ts ->
  map (set_transport_level level) ts = ts.
Proof.
  induction 1 as [|t ts Ht _ IH]; [reflexivity|].
  cbn [map]. rewrite IH. f_equal. rewrite <- Ht. apply set_transport_level_same.
Qed.

Lemma map_set_level_twice (l1 l2 : string) (ts : list transport) :
  map (set_transport_level l2) (map (set_transport_level l1) ts)
  = map (set_transport_level l2) ts.
Proof.
  rewrite map_map. apply map_ext. intros t. apply set_transport_level_twice.
Qed.

(** X4. [setLevel] on an initialized logger of the later variant: the
    instance's level and the level of every transport become the new level,
    and nothing else changes, neither the number and options of the
    transports nor the world. A second [setLevel] overrides the first, and
    when level and transports agree, as they do in every state the calls
    reach, setting the current level again changes nothing, so that
    setting a level and then the former one restores the instance. *)
Theorem setLevel_sets_every_transport
  (this : LoggerV2.Logger) (w : world) (lg : winstonLogger) (level : string) :
  LoggerV2.logger this = Some lg ->
  let after := fst (fst (LoggerV2.setLevel level (this, w))) in
  LoggerV2.setLevel level (this, w) = (after, w, Ok tt)
  /\ LoggerV2.level after = level
  /\ coherent_v2 after
  /\ (exists lg',
        LoggerV2.logger after = Some lg'
        /\ transports lg' = map (set_transport_level level) (transports lg)
        /\ List.length (transports lg') = List.length (transports lg)
        /\ wl_levels lg' = wl_levels lg /\ wl_format lg' = wl_format lg)
  /\ LoggerV2.webhookUrl after = LoggerV2.webhookUrl this
  /\ LoggerV2.webhookColor after = LoggerV2.webhookColor this
  /\ LoggerV2.tag after = LoggerV2.tag this
  /\ LoggerV2.sentry after = LoggerV2.sentry this
  /\ (forall level',
        LoggerV2.setLevel level' (after, w)
        = LoggerV2.setLevel level' (this, w))
  /\ (coherent_v2 this ->
        LoggerV2.setLevel (LoggerV2.level this) (this, w) = (this, w, Ok tt)
        /\ LoggerV2.setLevel (LoggerV2.level this) (after, w)
           = (this, w, Ok tt)).
Proof.
  intros Hl after. unfold after, LoggerV2.setLevel, coherent_v2.
  rewrite Hl. cbn [fst snd LoggerV2.level LoggerV2.logger LoggerV2.webhookUrl
                   LoggerV2.webhookColor LoggerV2.tag LoggerV2.sentry
                   transports_at transports wl_levels wl_format].
  split; [reflexivity|]. split; [reflexivity|].
  split; [apply map_set_level_at|].
  split. { eexists. split; [reflexivity|]. cbn. now rewrite length_map. }
  do 4 (split; [reflexivity|]).
  split.
  - intros level'. now rewrite map_set_level_twice.
  - intros Hc.
    rewrite map_set_level_twice, (map_set_level_same _ _ Hc).
    destruct this as [lv lgr wu wc tg se]. cbn in *. subst lgr.
    destruct lg. split; reflexivity.
Qed.

(** The later variant's instance after
    [initializeTransports("warn", "lounge")] in production. *)
Definition lounge_v2 : LoggerV2.Logger :=
  fst (fst (LoggerV2.initializeTransports (Some "warn") (Some "lounge") None
              None None None (LoggerV2.new_Logger, production))).

Definition lounge_winston : winstonLogger :=
  {| wl_levels := levels; wl_format := loggerFormat;
     transports :=
       [LoggerV2.cloudwatchTransport "lounge" (Some "production") "us-east-1"
          "warn"] |}.

Lemma setLevel_sets_every_transport_witness :
  LoggerV2.logger lounge_v2 = Some lounge_winston
  /\ option_map (fun lg => map transport_level (transports lg))
       (LoggerV2.logger
          (fst (fst (LoggerV2.setLevel "info" (lounge_v2, production)))))
     = Some ["info"].
Proof.
  split; [reflexivity|].
  destruct (setLevel_sets_every_transport lounge_v2 production lounge_winston
              "info" eq_refl)
    as (_ & _ & _ & (lg' & E & Et & _) & _).
  cbv zeta in E. rewrite E. cbn [option_map]. rewrite Et. reflexivity.
Defined.

Lemma run_v2_env (cs : list LoggerV2.call) (st : LoggerV2.state) :
  NODE_ENV (snd (LoggerV2.run cs st)) = NODE_ENV (snd st).
Proof.
  revert st. induction cs as [|c cs IH]; intros st; [reflexivity|].
  cbn [LoggerV2.run]. rewrite IH. destruct st as [this w].
  destruct (exec_v2_frame c this w) as (this' & w' & E & He & _).
  now rewrite E.
Qed.

Lemma run_v1_env (cs : list LoggerV1.call) (st : LoggerV1.state) :
  NODE_ENV (snd (LoggerV1.run cs st)) = NODE_ENV (snd st).
Proof.
  revert st. induction cs as [|c cs IH]; intros st; [reflexivity|].
  cbn [LoggerV1.run]. rewrite IH. destruct st as [this w].
  destruct (exec_v1_frame c this w) as (this' & w' & E & He & _).
  now rewrite E.
Qed.

(** The calls that assign no field of the instance. *)
Definition reads_only_v2 (c : LoggerV2.call) : bool :=
  match c with
  | LoggerV2.call_initializeTransports _ _ _ _ _ _
  | LoggerV2.call_initializeSentry _ _ _ _ _
  | LoggerV2.call_setLevel _ => false
  | _ => true
  end.

Definition reads_only_v1 (c : LoggerV1.call) : bool :=
  match c with
  | LoggerV1.call_initializeTransports _ _ _
  | LoggerV1.call_initializeSentry _ _ _ _
  | LoggerV1.call_setLevel _ => false
  | _ => true
  end.

Lemma exec_v2_reads_only (c : LoggerV2.call) (this : LoggerV2.Logger)
  (w : world) :
  reads_only_v2 c = true -> fst (fst (LoggerV2.exec c (this, w))) = this.
Proof.
  destruct c; try discriminate; intros _; cbn [LoggerV2.exec].
  - unfold LoggerV2.discard, LoggerV2.getSentryHandlers.
    destruct (LoggerV2.sentry this); reflexivity.
  - reflexivity.
  - unfold LoggerV2.debug. cbn [fst]. destruct (LoggerV2.logger this);
      reflexivity.
  - unfold LoggerV2.info. cbn [fst]. destruct (LoggerV2.logger this);
      reflexivity.
  - unfold LoggerV2.warn. cbn [fst]. destruct (LoggerV2.logger this);
      reflexivity.
  - destruct (LoggerV2.logger this) as [l|] eqn:El.
    + destruct (error_v2_frame err message eventType payload this w l El)
        as (w' & E & _). now rewrite E.
    + now rewrite error_v2_uninitialized.
  - destruct (postWebhookAlert_frame err message eventType payload webhookUrl
                (this, w)) as (ps & E & _). now rewrite E.
Qed.

Lemma exec_v1_reads_only (c : LoggerV1.call) (this : LoggerV1.Logger)
  (w : world) :
  reads_only_v1 c = true -> fst (fst (LoggerV1.exec c (this, w))) = this.
Proof.
  destruct c; try discriminate; intros _; cbn [LoggerV1.exec].
  - unfold LoggerV1.discard, LoggerV1.getSentryHandlers.
    destruct (LoggerV1.sentry this); reflexivity.
  - reflexivity.
  - unfold LoggerV1.debug. cbn [fst]. destruct (LoggerV1.logger this);
      reflexivity.
  - unfold LoggerV1.info. cbn [fst]. destruct (LoggerV1.logger this);
      reflexivity.
  - unfold LoggerV1.warn. cbn [fst]. destruct (LoggerV1.logger this);
      reflexivity.
  - destruct (LoggerV1.logger this) as [l|] eqn:El.
    + destruct (error_v1_frame err message eventType payload this w l El)
        as (w' & E & _). now rewrite E.
    + now rewrite error_v1_uninitialized.
Qed.

Lemma exec_v2_keeps_invariant (c : LoggerV2.call) (this : LoggerV2.Logger)
  (w : world) :
  coherent_v2 this /\ shape_v2 (LoggerV2.logger this) ->
  coherent_v2 (fst (fst (LoggerV2.exec c (this, w))))
  /\ shape_v2 (LoggerV2.logger (fst (fst (LoggerV2.exec c (this, w))))).
Proof.
  intros [Hc Hs].
  destruct (reads_only_v2 c) eqn:Er;
    [now rewrite (exec_v2_reads_only c this w Er)|].
  destruct c; try discriminate; cbn [LoggerV2.exec].
  - unfold LoggerV2.initializeTransports.
    destruct defaultLevel as [d|], tag as [t|];
      try (cbn [fst]; now split).
    destruct (negb (truthy (VStr d)) || negb (truthy (VStr t)));
      [cbn [fst]; now split|].
    unfold coherent_v2. cbn.
    destruct (LoggerV2.isConsoleEnv _ _); split;
      try (repeat constructor); eexists; split; reflexivity.
  - unfold LoggerV2.initializeSentry.
    destruct (LoggerV2.sentry this); cbn [fst]; now split.
  - unfold LoggerV2.setLevel.
    destruct (LoggerV2.logger this) as [lg|] eqn:El; cbn [fst];
      [|rewrite El; now split].
    unfold coherent_v2 in *. rewrite El in Hc. cbn in *.
    split; [apply map_set_level_at|].
    destruct Hs as (t & -> & Hk). eexists. split; [reflexivity|].
    destruct (set_transport_level_kind level t) as (-> & -> & _). exact Hk.
Qed.

Lemma exec_v1_keeps_invariant (c : LoggerV1.call) (this : LoggerV1.Logger)
  (w : world) :
  coherent_v1 this /\ shape_v1 (LoggerV1.logger this) ->
  coherent_v1 (fst (fst (LoggerV1.exec c (this, w))))
  /\ shape_v1 (LoggerV1.logger (fst (fst (LoggerV1.exec c (this, w))))).
Proof.
  intros [Hc Hs].
  destruct (reads_only_v1 c) eqn:Er;
    [now rewrite (exec_v1_reads_only c this w Er)|].
  destruct c; try discriminate; cbn [LoggerV1.exec].
  - unfold LoggerV1.initializeTransports, coherent_v1. cbn.
    destruct (LoggerV1.isConsoleEnv _).
    + split; [repeat constructor|].
      eexists. split; [|left; reflexivity]. reflexivity.
    + destruct (truthyOpt logglyToken); cbn.
      * split; [repeat constructor|].
        eexists. split;
          [|right; eexists; split; [|reflexivity]; reflexivity].
        reflexivity.
      * split; [repeat constructor|].
        eexists. split; [|left; reflexivity]. reflexivity.
  - unfold LoggerV1.initializeSentry.
    destruct (LoggerV1.sentry this); cbn [fst]; now split.
  - unfold LoggerV1.setLevel.
    destruct (LoggerV1.logger this) as [lg|] eqn:El; cbn [fst];
      [|rewrite El; now split].
    unfold coherent_v1 in *. rewrite El in Hc. cbn in *.
    split; [apply map_set_level_at|].
    destruct Hs as (t & Hk & [->|(lg' & Hcw & ->)]);
      destruct (set_transport_level_kind level t) as (Ek1 & Ek2 & _);
      exists (set_transport_level level t); rewrite Ek1, Ek2;
      (split; [exact Hk|]).
    + now left.
    + right. eexists. split; [exact Hcw | reflexivity].
Qed.

(** X5. Whatever is called on a fresh instance, in whatever order and
    whether the calls return or throw, the instance's level is the level
    of every one of its transports, so [getLevel] tells the level the
    sinks filter at. The later variant never has more than one transport,
    the console or CloudWatch; the older variant has the console alone,
    CloudWatch alone, or Loggly followed by CloudWatch. *)
Theorem level_and_transports_agree :
  (forall (w : world) (cs : list LoggerV2.call),
      let this := fst (LoggerV2.run cs (LoggerV2.new_Logger, w)) in
      transports_at (LoggerV2.level this) (LoggerV2.logger this)
      /\ shape_v2 (LoggerV2.logger this))
  /\ (forall (w : world) (cs : list LoggerV1.call),
        let this := fst (LoggerV1.run cs (LoggerV1.new_Logger, w)) in
        transports_at (LoggerV1.level this) (LoggerV1.logger this)
        /\ shape_v1 (LoggerV1.logger this)).
Proof.
  split.
  - intros w cs.
    assert (G : forall st,
               coherent_v2 (fst st) /\ shape_v2 (LoggerV2.logger (fst st)) ->
               coherent_v2 (fst (LoggerV2.run cs st))
               /\ shape_v2 (LoggerV2.logger (fst (LoggerV2.run cs st)))).
    { induction cs as [|c cs IH]; intros st H; [exact H|].
      cbn [LoggerV2.run]. apply IH. destruct st as [this w'].
      now apply exec_v2_keeps_invariant. }
    apply G. now split.
  - intros w cs.
    assert (G : forall st,
               coherent_v1 (fst st) /\ shape_v1 (LoggerV1.logger (fst st)) ->
               coherent_v1 (fst (LoggerV1.run cs st))
               /\ shape_v1 (LoggerV1.logger (fst (LoggerV1.run cs st)))).
    { induction cs as [|c cs IH]; intros st H; [exact H|].
      cbn [LoggerV1.run]. apply IH. destruct st as [this w'].
      now apply exec_v1_keeps_invariant. }
    apply G. now split.
Qed.

(** X6. Initializing again replaces the transports, it does not add to
    them: after any calls that leave the Sentry binding alone (earlier
    [initializeTransports], [setLevel], logging), a call of
    [initializeTransports] that returns leaves the instance exactly as
    the same call would have left it at the start, and does not touch the
    world. *)
Theorem initializeTransports_replaces :
  (forall (st : LoggerV2.state) (cs : list LoggerV2.call) (level tag : string)
          (forceConsole : option bool)
          (webhookUrl webhookColor awsRegion : option string),
      level <> "" -> tag <> "" -> no_initializeSentry_v2 cs ->
      LoggerV2.initializeTransports (Some level) (Some tag) forceConsole
        webhookUrl webhookColor awsRegion (LoggerV2.run cs st)
      = (fst (fst (LoggerV2.initializeTransports (Some level) (Some tag)
                     forceConsole webhookUrl webhookColor awsRegion st)),
         snd (LoggerV2.run cs st), Ok tt))
  /\ (forall (st : LoggerV1.state) (cs : list LoggerV1.call)
             (logglyToken defaultLevel tag : option string),
        no_initializeSentry_v1 cs ->
        LoggerV1.initializeTransports logglyToken defaultLevel tag
          (LoggerV1.run cs st)
        = (fst (fst (LoggerV1.initializeTransports logglyToken defaultLevel
                       tag st)),
           snd (LoggerV1.run cs st), Ok tt)).
Proof.
  split.
  - intros [this w] cs level tag fc wu wc ar Hl Ht Hcs.
    destruct (run_v2_unbound cs (this, w) Hcs) as [Hs _].
    pose proof (run_v2_env cs (this, w)) as He.
    destruct (LoggerV2.run cs (this, w)) as [this' w'].
    cbn [fst snd] in *.
    rewrite !initializeTransports_v2_result by assumption.
    cbn [fst]. now rewrite Hs, He.
  - intros [this w] cs tk dl tg Hcs.
    destruct (run_v1_unbound cs (this, w) Hcs) as [Hs _].
    pose proof (run_v1_env cs (this, w)) as He.
    destruct (LoggerV1.run cs (this, w)) as [this' w'].
    cbn [fst snd] in *.
    unfold LoggerV1.initializeTransports. cbn [fst]. now rewrite Hs, He.
Qed.

Lemma initializeTransports_replaces_witness :
  option_map (fun lg => List.length (transports lg))
    (LoggerV1.logger
       (fst (fst (LoggerV1.initializeTransports (Some "token") None None
                    (LoggerV1.run
                       [LoggerV1.call_initializeTransports (Some "token") None
                          None;
                        LoggerV1.call_setLevel "error"]
                       (LoggerV1.new_Logger, production))))))
  = Some 2%nat.
Proof.
  rewrite (proj2 initializeTransports_replaces); reflexivity.
Defined.

(** ** What [error] does *)

(** The world after [error]: what was captured, written and posted on top
    of what had been. *)
Definition world_after (w : world) (captured : list capture)
  (records : list logCall) (alerts : list httpPost) : world :=
  {| NODE_ENV := NODE_ENV w; sentry_config := sentry_config w;
     captures := (captures w ++ captured)%list;
     written := (written w ++ records)%list;
     posts := (posts w ++ alerts)%list;
     network := network w |}.

Definition bound {A : Type} (s : option A) : bool :=
  match s with Some _ => true | None => false end.

Lemma error_v2_exact (err : value) (message eventType : option string)
  (payload : option obj) (this : LoggerV2.Logger) (w : world)
  (lg : winstonLogger) :
  LoggerV2.logger this = Some lg ->
  exists alerts,
    LoggerV2.error err message eventType payload (this, w)
    = ((this,
        world_after w
          (if bound (LoggerV2.sentry this)
           then [ {| captured_err := err;
                     captured_extra := Some (orElse payload []) |} ]
           else [])
          (match LoggerV2.formatError err
                   (LoggerV2.customFormat message eventType) with
           | Ok text => [ {| lc_level := "error"; lc_message := VStr text;
                             lc_meta := orElse payload [] |} ]
           | Throw _ => []
           end)
          alerts),
       match LoggerV2.formatError err
               (LoggerV2.customFormat message eventType) with
       | Ok _ => Ok tt
       | Throw e => Throw e
       end)
    /\ (List.length alerts <= 1)%nat
    /\ (absent (LoggerV2.webhookUrl this) -> alerts = []).
Proof.
  intros Hl.
  unfold LoggerV2.error, bindM, when, lift, LoggerV2.captureException,
    LoggerV2.winston_log, modify, ret, world_after, bound.
  cbn [fst snd]. rewrite Hl.
  destruct (postWebhookAlert_frame err message eventType
              (Some (orElse payload [])) None (this, w)) as (ps & E & Hps).
  destruct (truthyOpt (LoggerV2.webhookUrl this)) eqn:Eu.
  - rewrite E. exists ps. split; [|split; [exact Hps|]].
    + cbn [fst snd].
      destruct (LoggerV2.sentry this); cbn [fst snd];
        destruct (LoggerV2.formatError err _); cbn [fst snd];
        destruct w; cbn; rewrite ?app_nil_r; reflexivity.
    + intros Ha. rewrite (truthyOpt_absent _ Ha) in Eu. discriminate.
  - exists []. split; [|split; [cbn; lia | reflexivity]].
    destruct (LoggerV2.sentry this); cbn [fst snd];
      destruct (LoggerV2.formatError err _); cbn [fst snd];
      destruct w; cbn; rewrite ?app_nil_r; reflexivity.
Qed.



(** X7. [error] on an initialized logger of the later variant does three
    things, in this order and independently: it posts at most one alert
    (none without a webhook URL), it captures the error for Sentry with a
    copy of the payload when Sentry is bound, and it hands winston one
    record at level "error" whose message is [formatError]'s text.
    Capture, record and outcome are the same whether the alert could be
    built or sent or not: they do not depend on the network. When the
    text cannot be built, the exception of [formatError] reaches the
    caller after the alert and the capture are done, and no record is
    written. *)
Theorem error_does_three_things
  (err : value) (message eventType : option string) (payload : option obj)
  (this : LoggerV2.Logger) (w : world) (lg : winstonLogger) :
  LoggerV2.logger this = Some lg ->
  let after := fst (LoggerV2.error err message eventType payload (this, w)) in
  let text :=
    LoggerV2.formatError err (LoggerV2.customFormat message eventType) in
  fst after = this
  /\ NODE_ENV (snd after) = NODE_ENV w
  /\ sentry_config (snd after) = sentry_config w
  /\ captures (snd after)
     = (captures w
        ++ if bound (LoggerV2.sentry this)
           then [ {| captured_err := err;
                     captured_extra := Some (orElse payload []) |} ]
           else [])%list
  /\ (forall t, text = Ok t ->
        snd (LoggerV2.error err message eventType payload (this, w)) = Ok tt
        /\ written (snd after)
           = (written w
              ++ [ {| lc_level := "error"; lc_message := VStr t;
                      lc_meta := orElse payload [] |} ])%list)
  /\ (forall e, text = Throw e ->
        snd (LoggerV2.error err message eventType payload (this, w)) = Throw e
        /\ written (snd after) = written w)
  /\ (exists alerts,
        posts (snd after) = (posts w ++ alerts)%list
        /\ (List.length alerts <= 1)%nat
        /\ (absent (LoggerV2.webhookUrl this) -> alerts = []))
  /\ (forall network',
        let w' :=
          {| NODE_ENV := NODE_ENV w; sentry_config := sentry_config w;
             captures := captures w; written := written w;
             posts := posts w; network := network' |} in
        let after' :=
          fst (LoggerV2.error err message eventType payload (this, w')) in
        captures (snd after') = captures (snd after)
        /\ written (snd after') = written (snd after)
        /\ snd (LoggerV2.error err message eventType payload (this, w'))
           = snd (LoggerV2.error err message eventType payload (this, w))).
Proof.
  intros Hl after text.
  destruct (error_v2_exact err message eventType payload this w lg Hl)
    as (alerts & E & Hlen & Habs).
  unfold after. rewrite E. fold text. cbn [fst snd world_after captures
    written posts NODE_ENV sentry_config].
  repeat (split; [reflexivity|]).
  split; [|split; [|split]].
  - intros t Et. rewrite Et. split; reflexivity.
  - intros e Et. rewrite Et. split; [reflexivity | apply app_nil_r].
  - exists alerts. repeat split; assumption.
  - intros network'. cbv zeta.
    destruct (error_v2_exact err message eventType payload this
                {| NODE_ENV := NODE_ENV w; sentry_config := sentry_config w;
                   captures := captures w; written := written w;
                   posts := posts w; network := network' |} lg Hl)
      as (alerts' & E' & _).
    rewrite E'.
    cbn [fst snd world_after captures written posts NODE_ENV sentry_config].
    repeat split.
Qed.

Lemma error_does_three_things_witness :
  LoggerV2.logger lounge_v2 = Some lounge_winston
  /\ written
       (snd (fst (LoggerV2.error (VErr "Error" "boom" None) (Some "m") None
                    None (lounge_v2, production))))
     = [ {| lc_level := "error";
            lc_message :=
              VStr ("[ERROR] m Error: boom. Stack:" ++ nl ++ "undefined");
            lc_meta := [] |} ].
Proof.
  split; [reflexivity|].
  destruct (error_does_three_things (VErr "Error" "boom" None) (Some "m") None
              None lounge_v2 production lounge_winston eq_refl)
    as (_ & _ & _ & _ & H & _).
  destruct (H ("[ERROR] m Error: boom. Stack:" ++ nl ++ "undefined") eq_refl)
    as [_ Hw].
  cbv zeta in Hw. rewrite Hw. reflexivity.
Defined.



(** ** Which call reaches which collaborator *)

Definition is_error_v2 (c : LoggerV2.call) : bool :=
  match c with LoggerV2.call_error _ _ _ _ => true | _ => false end.

Definition sends_alert_v2 (c : LoggerV2.call) : bool :=
  match c with
  | LoggerV2.call_error _ _ _ _ | LoggerV2.call_postWebhookAlert _ _ _ _ _ =>
      true
  | _ => false
  end.

Definition writes_v2 (c : LoggerV2.call) : bool :=
  match c with
  | LoggerV2.call_debug _ _ _ | LoggerV2.call_info _ _ _
  | LoggerV2.call_warn _ _ _ | LoggerV2.call_error _ _ _ _ => true
  | _ => false
  end.

(** The call names no webhook URL: [initializeTransports] without one,
    [postWebhookAlert] without an override. *)
Definition names_no_webhook (c : LoggerV2.call) : bool :=
  match c with
  | LoggerV2.call_initializeTransports _ _ _ webhookUrl _ _ =>
      negb (truthyOpt webhookUrl)
  | LoggerV2.call_postWebhookAlert _ _ _ _ webhookUrl =>
      negb (truthyOpt webhookUrl)
  | _ => true
  end.

Lemma truthyOpt_false (o : option string) : truthyOpt o = false -> absent o.
Proof.
  destruct o as [s|]; [|now left]. unfold truthyOpt. cbn.
  destruct (String.eqb_spec s ""); [subst; now right | discriminate].
Qed.

Lemma postWebhookAlert_no_url (err : value) (message eventType : option string)
  (payload : option obj) (u : option string) (st : LoggerV2.state) :
  truthyOpt (LoggerV2.webhookUrl (fst st)) = false -> truthyOpt u = false ->
  LoggerV2.postWebhookAlert err message eventType payload u st = (st, Ok tt).
Proof.
  intros Hi Hu.
  unfold LoggerV2.postWebhookAlert, tryCatch, LoggerV2.postWebhookAlert_try,
    bindM, getState.
  now rewrite Hi, Hu.
Qed.

Lemma exec_v2_collaborators (c : LoggerV2.call) (this : LoggerV2.Logger)
  (w : world) :
  let w' := snd (fst (LoggerV2.exec c (this, w))) in
  (sends_alert_v2 c = false
   \/ (truthyOpt (LoggerV2.webhookUrl this) = false
       /\ names_no_webhook c = true) ->
   posts w' = posts w)
  /\ (is_error_v2 c = false \/ LoggerV2.sentry this = None ->
      captures w' = captures w)
  /\ (writes_v2 c = false \/ LoggerV2.logger this = None ->
      written w' = written w).
Proof.
  cbv zeta.
  destruct c; cbn [LoggerV2.exec sends_alert_v2 is_error_v2 writes_v2
                   names_no_webhook].
  - unfold LoggerV2.initializeTransports.
    destruct defaultLevel as [d|], tag as [t|];
      try destruct (negb (truthy (VStr d)) || negb (truthy (VStr t)));
      cbn; repeat split.
  - unfold LoggerV2.initializeSentry.
    destruct (LoggerV2.sentry this); cbn; repeat split.
  - unfold LoggerV2.discard, LoggerV2.getSentryHandlers.
    destruct (LoggerV2.sentry this); cbn; repeat split.
  - cbn; repeat split.
  - unfold LoggerV2.setLevel.
    destruct (LoggerV2.logger this); cbn; repeat split.
  - unfold LoggerV2.debug, LoggerV2.winston_log, modify. cbn [fst snd].
    destruct (LoggerV2.logger this); cbn; repeat split;
      intros [H|H]; discriminate.
  - unfold LoggerV2.info, LoggerV2.winston_log, modify. cbn [fst snd].
    destruct (LoggerV2.logger this); cbn; repeat split;
      intros [H|H]; discriminate.
  - unfold LoggerV2.warn, LoggerV2.winston_log, modify. cbn [fst snd].
    destruct (LoggerV2.logger this); cbn; repeat split;
      intros [H|H]; discriminate.
  - destruct (LoggerV2.logger this) as [lg|] eqn:El.
    + destruct (error_v2_exact err message eventType payload this w lg El)
        as (alerts & E & _ & Habs).
      rewrite E. cbn [fst snd world_after posts captures written].
      repeat split.
      * intros [H|[H _]]; [discriminate|].
        rewrite (Habs (truthyOpt_false _ H)). apply app_nil_r.
      * intros [H|H]; [discriminate|]. rewrite H. apply app_nil_r.
      * intros [H|H]; discriminate.
    + rewrite error_v2_uninitialized by exact El. cbn. repeat split.
  - repeat split.
    + intros [H|[H Hu]]; [discriminate|].
      apply negb_true_iff in Hu.
      now rewrite postWebhookAlert_no_url.
    + intros _.
      destruct (postWebhookAlert_frame err message eventType payload
                  webhookUrl (this, w)) as (ps & E & _). now rewrite E.
    + intros _.
      destruct (postWebhookAlert_frame err message eventType payload
                  webhookUrl (this, w)) as (ps & E & _). now rewrite E.
Qed.

Lemma exec_v2_no_webhook (c : LoggerV2.call) (this : LoggerV2.Logger)
  (w : world) :
  truthyOpt (LoggerV2.webhookUrl this) = false ->
  names_no_webhook c = true ->
  truthyOpt (LoggerV2.webhookUrl (fst (fst (LoggerV2.exec c (this, w)))))
  = false.
Proof.
  intros Hu Hc.
  destruct (reads_only_v2 c) eqn:Er;
    [now rewrite (exec_v2_reads_only c this w Er)|].
  destruct c; try discriminate; cbn [LoggerV2.exec names_no_webhook] in *.
  - apply negb_true_iff in Hc. unfold LoggerV2.initializeTransports.
    destruct defaultLevel as [d|], tag as [t|];
      try destruct (negb (truthy (VStr d)) || negb (truthy (VStr t)));
      cbn; assumption.
  - unfold LoggerV2.initializeSentry.
    destruct (LoggerV2.sentry this); cbn; assumption.
  - unfold LoggerV2.setLevel.
    destruct (LoggerV2.logger this); cbn; assumption.
Qed.

(** X9. Each collaborator is reached only through the calls meant for
    it. As long as no webhook URL is given, neither to
    [initializeTransports] nor to [postWebhookAlert], no request is ever
    issued; as long as [initializeSentry] is not called, nothing is ever
    captured; from any state, calls other than [error] capture nothing,
    calls other than [error] and [postWebhookAlert] issue no request, and
    calls other than the four logging calls hand winston nothing. *)
Theorem collaborators_are_reached_on_purpose :
  (forall (w : world) (cs : list LoggerV2.call),
      forallb names_no_webhook cs = true ->
      posts (snd (LoggerV2.run cs (LoggerV2.new_Logger, w))) = posts w)
  /\ (forall (w : world) (cs : list LoggerV2.call),
        no_initializeSentry_v2 cs ->
        captures (snd (LoggerV2.run cs (LoggerV2.new_Logger, w)))
        = captures w)
  /\ (forall (st : LoggerV2.state) (cs : list LoggerV2.call),
        forallb (fun c => negb (is_error_v2 c)) cs = true ->
        captures (snd (LoggerV2.run cs st)) = captures (snd st))
  /\ (forall (st : LoggerV2.state) (cs : list LoggerV2.call),
        forallb (fun c => negb (sends_alert_v2 c)) cs = true ->
        posts (snd (LoggerV2.run cs st)) = posts (snd st))
  /\ (forall (st : LoggerV2.state) (cs : list LoggerV2.call),
        forallb (fun c => negb (writes_v2 c)) cs = true ->
        written (snd (LoggerV2.run cs st)) = written (snd st)).
Proof.
  split; [|split; [|split; [|split]]].
  - intros w cs.
    assert (G : forall st,
               truthyOpt (LoggerV2.webhookUrl (fst st)) = false ->
               forallb names_no_webhook cs = true ->
               posts (snd (LoggerV2.run cs st)) = posts (snd st)).
    { induction cs as [|c cs IH]; intros [this w'] Hu Hcs; [reflexivity|].
      cbn [forallb] in Hcs. apply andb_true_iff in Hcs as [Hc Hcs].
      cbn [LoggerV2.run fst snd] in *.
      rewrite IH; [| |exact Hcs].
      - apply (exec_v2_collaborators c this w'). right. now split.
      - destruct (LoggerV2.exec c (this, w')) as [[this'' w''] r] eqn:E.
        pose proof (exec_v2_no_webhook c this w' Hu Hc) as H.
        now rewrite E in H. }
    intros Hcs. now apply (G (LoggerV2.new_Logger, w)).
  - intros w cs Hcs.
    assert (G : forall st,
               LoggerV2.sentry (fst st) = None ->
               no_initializeSentry_v2 cs ->
               captures (snd (LoggerV2.run cs st)) = captures (snd st)).
    { clear Hcs. unfold no_initializeSentry_v2.
      induction cs as [|c cs IH]; intros [this w'] Hs Hcs; [reflexivity|].
      cbn [forallb] in Hcs. apply andb_true_iff in Hcs as [Hc Hcs].
      cbn [LoggerV2.run fst snd] in *.
      destruct (exec_v2_unbound c this w') as [Hs' _];
        [destruct c; try exact I; discriminate|].
      rewrite IH; [| |exact Hcs].
      - apply (exec_v2_collaborators c this w'). now right.
      - destruct (LoggerV2.exec c (this, w')) as [[this'' w''] r].
        cbn [fst] in *. congruence. }
    now apply (G (LoggerV2.new_Logger, w)).
  - intros st cs. revert st.
    induction cs as [|c cs IH]; intros [this w] Hcs; [reflexivity|].
    cbn [forallb] in Hcs. apply andb_true_iff in Hcs as [Hc Hcs].
    apply negb_true_iff in Hc. cbn [LoggerV2.run].
    rewrite (IH _ Hcs). destruct (LoggerV2.exec c (this, w)) as [st' r] eqn:E.
    pose proof (proj1 (proj2 (exec_v2_collaborators c this w))) as H.
    rewrite E in H. apply H. now left.
  - intros st cs. revert st.
    induction cs as [|c cs IH]; intros [this w] Hcs; [reflexivity|].
    cbn [forallb] in Hcs. apply andb_true_iff in Hcs as [Hc Hcs].
    apply negb_true_iff in Hc. cbn [LoggerV2.run].
    rewrite (IH _ Hcs). destruct (LoggerV2.exec c (this, w)) as [st' r] eqn:E.
    pose proof (proj1 (exec_v2_collaborators c this w)) as H.
    rewrite E in H. apply H. now left.
  - intros st cs. revert st.
    induction cs as [|c cs IH]; intros [this w] Hcs; [reflexivity|].
    cbn [forallb] in Hcs. apply andb_true_iff in Hcs as [Hc Hcs].
    apply negb_true_iff in Hc. cbn [LoggerV2.run].
    rewrite (IH _ Hcs). destruct (LoggerV2.exec c (this, w)) as [st' r] eqn:E.
    pose proof (proj2 (proj2 (exec_v2_collaborators c this w))) as H.
    rewrite E in H. apply H. now left.
Qed.

Lemma collaborators_are_reached_on_purpose_witness :
  posts
    (snd (LoggerV2.run
            [LoggerV2.call_initializeTransports (Some "warn") (Some "lounge")
               None None None None;
             LoggerV2.call_error (VStr "boom") (Some "m") None None;
             LoggerV2.call_postWebhookAlert (VStr "boom") None None None None]
            (LoggerV2.new_Logger, production)))
  = [].
Proof.
  rewrite (proj1 collaborators_are_reached_on_purpose); reflexivity.
Defined.

(** ** Edges of the sampling policy *)

Lemma includes_empty (s : string) : includes s "" = true.
Proof. apply includes_substring. now exists "", s. Qed.

Lemma some_false_without_url (pats : list string) :
  some (fun endpoint => LoggerV2.urlIncludes None endpoint) pats = false.
Proof. induction pats as [|p ps IH]; [reflexivity | exact IH]. Qed.

(** X10. Edges of the sampling policy. A context with no request or no
    URL matches no pattern at all, so that only an OPTIONS method keeps it
    from the default rate; a method is a preflight only when it is exactly
    "OPTIONS"; and an empty pattern matches every URL: in the ignore list it
    switches sampling off for every request that has a URL, in the custom
    list it gives the custom rate to every request with a URL that is
    not skipped. *)
Theorem tracesSampler_edges
  (tracesSampleRate : Q) (ignoreURLs customURLs : list string)
  (customURLsSampleRate : Q) :
  let sampler :=
    LoggerV2.tracesSampler tracesSampleRate ignoreURLs customURLs
      customURLsSampleRate in
  sampler None = tracesSampleRate
  /\ (forall m,
        sampler (Some {| url := None; method := m |})
        = if strictEq m "OPTIONS" then 0%Q else tracesSampleRate)
  /\ (forall u m,
        In "" ignoreURLs ->
        sampler (Some {| url := Some u; method := m |}) = 0%Q)
  /\ (forall u m,
        In "" customURLs ->
        sampler (Some {| url := Some u; method := m |}) = 0%Q
        \/ sampler (Some {| url := Some u; method := m |})
           = customURLsSampleRate)
  /\ (forall u m,
        In "" customURLs -> m <> Some "OPTIONS" ->
        includes u "/health" = false ->
        (forall p, In p ignoreURLs -> includes u p = false) ->
        sampler (Some {| url := Some u; method := m |})
        = customURLsSampleRate).
Proof.
  cbv zeta. unfold LoggerV2.tracesSampler, LoggerV2.skipURLs.
  assert (Hin : forall u l, In "" l ->
             some (fun endpoint => LoggerV2.urlIncludes (Some u) endpoint) l
             = true).
  { intros u l H. unfold some. apply existsb_exists. exists "".
    split; [exact H | apply includes_empty]. }
  split; [|split; [|split; [|split]]].
  - now rewrite !some_false_without_url.
  - intros m. cbn [url method]. rewrite !some_false_without_url.
    unfold strictEq. destruct m as [m|]; [|reflexivity].
    now destruct (m =? "OPTIONS")%string.
  - intros u m H. cbn [url method].
    rewrite (Hin u ("/health" :: ignoreURLs)) by (now right). reflexivity.
  - intros u m H. cbn [url method]. rewrite (Hin u customURLs H).
    destruct (some _ _ || _); [now left | now right].
  - intros u m H Hm Hh Hig. cbn [url method]. rewrite (Hin u customURLs H).
    assert (Hs : some (fun endpoint =>
                         LoggerV2.urlIncludes (Some u) endpoint)
                      ("/health" :: ignoreURLs) = false).
    { unfold some. cbn [existsb LoggerV2.urlIncludes]. rewrite Hh. cbn [orb].
      apply not_true_is_false. intros Hex. apply existsb_exists in Hex.
      destruct Hex as (p & Hp & Hi). rewrite (Hig p Hp) in Hi. discriminate. }
    rewrite Hs. cbn [orb].
    destruct m as [m|]; [|reflexivity].
    destruct (String.eqb_spec m "OPTIONS"); [subst; now elim Hm | reflexivity].
Qed.

Lemma tracesSampler_edges_witness :
  LoggerV2.tracesSampler (25 # 100) [] [""] (1 # 10)
    (Some {| url := Some "/api/v1/users"; method := Some "options" |})
  = (1 # 10)%Q.
Proof.
  apply (proj2 (proj2 (proj2 (proj2
           (tracesSampler_edges (25 # 100) [] [""] (1 # 10)))))).
  - now left.
  - discriminate.
  - reflexivity.
  - intros p [].
Defined.

(** ** What [JSON.stringify] refuses, and what it leaves out *)



















Definition reserved_keys : list string := ["timestamp"; "message"; "level"].

Section LeftOut.

Local Open Scope list_scope.

Lemma lookup_skip (r k : string) (v : value) (a b : obj) :
  r <> k -> lookup r (a ++ (k, v) :: b) = lookup r (a ++ b).
Proof.
  intros Hr. induction a as [|[k' v'] a IH]; cbn [app lookup].
  - destruct (String.eqb_spec r k); [contradiction | reflexivity].
  - now rewrite IH.
Qed.

Lemma toJSON_members_app (a b : obj) :
  toJSON_members (a ++ b)
  = (la <- toJSON_members a ;; lb <- toJSON_members b ;; Ok (la ++ lb)%list).
Proof.
  induction a as [|[k x] a IH]; cbn [app toJSON_members].
  - destruct (toJSON_members b); reflexivity.
  - destruct (toJSON x) as [oj|e]; cbn [bind]; [|reflexivity].
    rewrite IH. destruct (toJSON_members a) as [la|e]; cbn [bind];
      [|reflexivity].
    destruct (toJSON_members b) as [lb|e]; cbn [bind]; [|reflexivity].
    destruct oj; reflexivity.
Qed.

Lemma toJSON_members_skip (k : string) (v : value) (a b : obj) :
  left_out v -> toJSON_members (a ++ (k, v) :: b) = toJSON_members (a ++ b).
Proof.
  intros Hv. rewrite !toJSON_members_app. cbn [toJSON_members].
  rewrite (toJSON_left_out v Hv). cbn [bind].
  destruct (toJSON_members a); cbn [bind]; [|reflexivity].
  destruct (toJSON_members b); reflexivity.
Qed.

(** X12. A member whose value JSON leaves out ([undefined], a function,
    a symbol) makes no difference to the line, wherever it stands in the
    record and whatever else the payload holds, as long as its key is not
    one of the three reserved ones and not [toJSON], the member
    [JSON.stringify] calls. *)
Theorem formatMessage_ignores_what_JSON_leaves_out
  (before after : obj) (k : string) (v : value) :
  ~ In k reserved_keys -> k <> "toJSON" -> left_out v ->
  formatMessage (before ++ (k, v) :: after) = formatMessage (before ++ after).
Proof.
  intros Hk Hj Hv.
  assert (Hne : forall r, In r reserved_keys -> r <> k)
    by (intros r Hr ->; contradiction).
  assert (Ho : omit (before ++ (k, v) :: after) reserved_keys
               = omit before reserved_keys
                 ++ (k, v) :: omit after reserved_keys).
  { unfold omit. rewrite filter_app. cbn [filter fst].
    destruct (existsb (String.eqb k) reserved_keys) eqn:Ex; [|reflexivity].
    apply existsb_exists in Ex. destruct Ex as (r & Hr & E).
    apply String.eqb_eq in E. subst r. contradiction. }
  assert (Hm : toJSON (VObj (omit (before ++ (k, v) :: after) reserved_keys))
               = toJSON (VObj (omit (before ++ after) reserved_keys))).
  { rewrite !toJSON_returned, Ho. unfold toJSON_hook.
    rewrite lookup_skip by (intros E; apply Hj; now symmetry).
    rewrite toJSON_members_skip by exact Hv.
    unfold omit. now rewrite filter_app. }
  unfold formatMessage, JSON_parse_stringify, JSON_stringify, optGet.
  fold reserved_keys. rewrite Hm.
  rewrite !(lookup_skip _ k v before after)
    by (apply Hne; cbn; auto).
  reflexivity.
Qed.

Lemma formatMessage_ignores_what_JSON_leaves_out_witness :
  formatMessage
    ([("level", VStr "info"); ("cb", VFun "() => 1" (VNum 1))]
     ++ ("done", VUndef)
        :: [("message", VStr "paid"); ("timestamp", VStr "T0");
            ("amount", VNum 10)])
  = formatMessage
      ([("level", VStr "info"); ("cb", VFun "() => 1" (VNum 1))]
       ++ [("message", VStr "paid"); ("timestamp", VStr "T0");
           ("amount", VNum 10)]).
Proof.
  apply formatMessage_ignores_what_JSON_leaves_out.
  - intros [H|[H|[H|[]]]]; discriminate.
  - discriminate.
  - now left.
Defined.

End LeftOut.

(** ** The alert posted to the webhook *)

(** The titles of the blocks of an alert, for an error with or without a
    stack trace. *)
Definition alert_titles (err : value) : list string :=
  "Please find details below:" :: "Payload"
  :: (if truthy (optGet err "stack") then ["Stack Trace"] else []).

(** The URL an alert goes to: the override when one is passed, the
    instance's otherwise. *)
Definition alert_url (this : LoggerV2.Logger) (override : option string)
  : option string :=
  match override with
  | Some u => Some u
  | None => LoggerV2.webhookUrl this
  end.

Definition well_formed_alert (this : LoggerV2.Logger) (err : value)
  (message eventType : option string) (override : option string)
  (post : httpPost) : Prop :=
  post_url post = alert_url this override
  /\ post_headers post = [("Content-Type", "application/json")]
  /\ exists a,
       post_attachments post = [a]
       /\ fallback a = "Alert Event"
       /\ color a = LoggerV2.webhookColor this
       /\ (exists errString,
             (s <- optToString err ;; ToString s) = Ok errString
             /\ pretext a
                = "*" ++ LoggerV2.customFormat message eventType ++ "*"
                  ++ nl ++ errString)
       /\ map title (fields a) = alert_titles err
       /\ Forall (fun f => short f = false) (fields a).

Lemma mapR_mapField_shape (fs : list LoggerV2.rawField) (ms : list field) :
  LoggerV2.mapR LoggerV2.mapField fs = Ok ms ->
  map title ms = map LoggerV2.raw_title fs
  /\ Forall (fun f => short f = false) ms.
Proof.
  revert ms. induction fs as [|f fs IH]; intros ms H.
  - injection H as <-. now split.
  - cbn [LoggerV2.mapR] in H. unfold bind in H.
    destruct (LoggerV2.mapField f) as [y|e] eqn:Ef; [|discriminate].
    destruct (LoggerV2.mapR LoggerV2.mapField fs) as [r|e] eqn:Er;
      [|discriminate].
    injection H as <-. destruct (IH r eq_refl) as [Ht Hs].
    unfold LoggerV2.mapField, bind in Ef.
    destruct (LoggerV2.mapR _ (LoggerV2.raw_value f)); [|discriminate].
    injection Ef as <-. cbn [map title]. split; [now rewrite Ht|].
    constructor; [reflexivity | exact Hs].
Qed.

(** X13. Whatever [postWebhookAlert] posts has the wire format of a chat
    alert: JSON content type; one attachment, with the fallback text
    "Alert Event", the instance's color, and a pretext made of the
    formatted message in asterisks and the error's string form on the next
    line; a details block and a payload block, followed by a stack-trace
    block exactly when the error has a stack; no block marked short. It
    goes to the URL passed as override when there is one, to the
    instance's otherwise, and at most one is posted. *)
Theorem postWebhookAlert_wire_format
  (err : value) (message eventType : option string) (payload : option obj)
  (webhookUrl : option string) (this : LoggerV2.Logger) (w : world) :
  exists issued,
    LoggerV2.postWebhookAlert err message eventType payload webhookUrl
      (this, w)
    = ((this, with_posts w (posts w ++ issued)%list), Ok tt)
    /\ (List.length issued <= 1)%nat
    /\ (issued <> [] ->
        truthyOpt (LoggerV2.webhookUrl this) || truthyOpt webhookUrl = true)
    /\ forall post,
         In post issued ->
         well_formed_alert this err message eventType webhookUrl post.
Proof.
  unfold LoggerV2.postWebhookAlert, tryCatch, LoggerV2.postWebhookAlert_try,
    bindM, getState, lift, ret, LoggerV2.axios_post.
  cbn [fst snd].
  destruct (negb (truthyOpt (LoggerV2.webhookUrl this))
            && negb (truthyOpt webhookUrl)) eqn:Eu.
  - exists []. rewrite with_posts_same.
    split; [reflexivity|]. split; [cbn; lia|].
    split; [intros H; now elim H | intros post []].
  - assert (Hu : truthyOpt (LoggerV2.webhookUrl this)
                 || truthyOpt webhookUrl = true).
    { destruct (truthyOpt (LoggerV2.webhookUrl this)); [reflexivity|].
      destruct (truthyOpt webhookUrl); [reflexivity | discriminate]. }
    cbv beta.
    destruct (s <- optToString err ;; ToString s) as [errString|e] eqn:Ee.
    2:{ exists []. rewrite with_posts_same.
        split; [reflexivity|]. split; [cbn; lia|].
        split; [intros H; now elim H | intros post []]. }
    destruct (LoggerV2.stringify (VObj (orElse payload []))) as [ps|e].
    2:{ exists []. rewrite with_posts_same.
        split; [reflexivity|]. split; [cbn; lia|].
        split; [intros H; now elim H | intros post []]. }
    match goal with
    | |- context [LoggerV2.mapR LoggerV2.mapField ?fs] =>
        destruct (LoggerV2.mapR LoggerV2.mapField fs) as [mapped|e] eqn:Em
    end.
    2:{ exists []. rewrite with_posts_same.
        split; [reflexivity|]. split; [cbn; lia|].
        split; [intros H; now elim H | intros post []]. }
    apply mapR_mapField_shape in Em. destruct Em as [Htitles Hshort].
    match goal with
    | |- context [add_post ?p _] => exists [p]
    end.
    split; [match goal with
            | |- context [network ?ww ?p] => destruct (network ww p)
            end; reflexivity|].
    split; [cbn; lia|]. split; [intros _; exact Hu|].
    intros post [<-|[]]. unfold well_formed_alert.
    cbn [post_url post_headers post_attachments].
    split; [reflexivity|]. split; [reflexivity|].
    eexists. split; [reflexivity|].
    cbn [fallback color pretext fields].
    split; [reflexivity|]. split; [reflexivity|].
    split; [exists errString; now split|].
    split; [|exact Hshort].
    rewrite Htitles. unfold alert_titles.
    destruct (truthy (optGet err "stack")); reflexivity.
Qed.








(** ** The records handed to winston *)

(** The record names a level of [config.levels]. *)
Definition known_level (r : logCall) : Prop :=
  In (lc_level r) (map fst levels).

Definition string_message (r : logCall) : Prop :=
  exists s, lc_message r = VStr s.

Lemma exec_v2_written (c : LoggerV2.call) (this : LoggerV2.Logger) (w : world) :
  exists records,
    written (snd (fst (LoggerV2.exec c (this, w))))
    = (written w ++ records)%list
    /\ Forall (fun r => known_level r /\ string_message r) records
    /\ (List.length records <= 1)%nat.
Proof.
  assert (Hnone : exists records : list logCall,
             written w = (written w ++ records)%list
             /\ Forall (fun r => known_level r /\ string_message r) records
             /\ (List.length records <= 1)%nat).
  { exists []. rewrite app_nil_r. repeat split; [constructor | cbn; lia]. }
  assert (Hone : forall lvl s p,
             In lvl (map fst levels) ->
             exists records : list logCall,
               (written w ++ [ {| lc_level := lvl; lc_message := VStr s;
                                  lc_meta := p |} ])%list
               = (written w ++ records)%list
               /\ Forall (fun r => known_level r /\ string_message r) records
               /\ (List.length records <= 1)%nat).
  { intros lvl s p Hin. eexists. split; [reflexivity|]. split; [|cbn; lia].
    constructor; [|constructor]. split; [exact Hin | now exists s]. }
  destruct c; cbn [LoggerV2.exec].
  - unfold LoggerV2.initializeTransports.
    destruct defaultLevel as [d|], tag as [t|];
      try destruct (negb (truthy (VStr d)) || negb (truthy (VStr t)));
      exact Hnone.
  - unfold LoggerV2.initializeSentry.
    destruct (LoggerV2.sentry this); exact Hnone.
  - unfold LoggerV2.discard, LoggerV2.getSentryHandlers.
    destruct (LoggerV2.sentry this); exact Hnone.
  - exact Hnone.
  - unfold LoggerV2.setLevel. destruct (LoggerV2.logger this); exact Hnone.
  - unfold LoggerV2.debug, LoggerV2.winston_log, modify. cbn [fst snd].
    destruct (LoggerV2.logger this); [|exact Hnone].
    apply Hone. cbn. auto.
  - unfold LoggerV2.info, LoggerV2.winston_log, modify. cbn [fst snd].
    destruct (LoggerV2.logger this); [|exact Hnone].
    apply Hone. cbn. auto.
  - unfold LoggerV2.warn, LoggerV2.winston_log, modify. cbn [fst snd].
    destruct (LoggerV2.logger this); [|exact Hnone].
    apply Hone. cbn. auto.
  - destruct (LoggerV2.logger this) as [lg|] eqn:El.
    + destruct (error_v2_exact err message eventType payload this w lg El)
        as (alerts & E & _).
      rewrite E. cbn [fst snd world_after written].
      destruct (LoggerV2.formatError err _); [apply Hone; cbn; auto|].
      exists []. repeat split; [constructor | cbn; lia].
    + rewrite error_v2_uninitialized by exact El. exact Hnone.
  - destruct (postWebhookAlert_frame err message eventType payload webhookUrl
                (this, w)) as (ps & E & _).
    rewrite E. exact Hnone.
Qed.

(** X15. The later variant hands winston well-formed records only:
    whatever is called, every record written names one of the four levels
    of the level table and carries a string as its message, what was
    written before stays in place, and a call adds at most one record.
    The older variant hands over [undefined] as the message when a logging
    call is given neither message nor event type. *)
Theorem records_are_well_formed :
  (forall (st : LoggerV2.state) (cs : list LoggerV2.call),
      exists records,
        written (snd (LoggerV2.run cs st))
        = (written (snd st) ++ records)%list
        /\ Forall (fun r => known_level r /\ string_message r) records
        /\ (List.length records <= List.length cs)%nat)
  /\ (forall (this : LoggerV1.Logger) (w : world) (lg : winstonLogger)
             (eventType : option string) (payload : option obj),
        LoggerV1.logger this = Some lg -> absent eventType ->
        written (snd (fst (LoggerV1.warn None eventType payload (this, w))))
        = (written w
           ++ [ {| lc_level := "warn"; lc_message := VUndef;
                   lc_meta := orElse payload [] |} ])%list).
Proof.
  split.
  - intros st cs. revert st.
    induction cs as [|c cs IH]; intros [this w].
    + exists []. cbn. rewrite app_nil_r. repeat split; [constructor | lia].
    + cbn [LoggerV2.run].
      destruct (exec_v2_written c this w) as (r1 & E1 & F1 & L1).
      destruct (LoggerV2.exec c (this, w)) as [[this' w'] res].
      cbn [fst snd] in *.
      destruct (IH (this', w')) as (r2 & E2 & F2 & L2). cbn [snd] in E2.
      exists (r1 ++ r2)%list. rewrite E2, E1, app_assoc.
      split; [reflexivity|]. split; [now apply Forall_app|].
      rewrite length_app. cbn [List.length]. lia.
  - intros this w lg e p Hl He.
    unfold LoggerV1.warn, LoggerV1.winston_log, modify, LoggerV1.customFormat.
    cbn [fst snd]. rewrite Hl, (truthyOpt_absent _ He). reflexivity.
Qed.

Lemma records_are_well_formed_witness :
  written
    (snd (fst (LoggerV1.warn None None None
                 (fst (LoggerV1.initializeTransports None None None
                         (LoggerV1.new_Logger, production))))))
  = [ {| lc_level := "warn"; lc_message := VUndef; lc_meta := [] |} ].
Proof.
  refine (proj2 records_are_well_formed
            (fst (fst (LoggerV1.initializeTransports None None None
                         (LoggerV1.new_Logger, production))))
            production
            {| wl_levels := levels; wl_format := loggerFormat;
               transports :=
                 [LoggerV1.cloudwatchTransport "trivia" (Some "production")
                    "debug"] |}
            None None eq_refl _).
  now left.
Defined.

(** ** The text of an alert *)

(** The blocks of an alert, title and text. *)
Definition block (t v : string) : field :=
  {| title := t; short := false; field_value := v |}.

(** The alert for an [Error] instance. *)
Definition alert_for_Error (this : LoggerV2.Logger) (env : option string)
  (name msg : string) (stack : option string)
  (message eventType : option string) (j : json) (url : option string)
  : httpPost :=
  {| post_url := url;
     post_attachments :=
       [ {| fallback := "Alert Event";
            pretext := "*" ++ LoggerV2.customFormat message eventType ++ "*"
                       ++ nl ++ errorToString name msg;
            color := LoggerV2.webhookColor this;
            fields :=
              (block "Please find details below:"
                 ("*Environment*: `" ++ tpl env ++ "`" ++ nl
                  ++ "*Message*: " ++ msg ++ nl)
               :: block "Payload"
                    ("*Payload*: ```" ++ render " " "" j ++ "```" ++ nl)
               :: match stack with
                  | Some s =>
                      if (s =? "")%string then []
                      else [block "Stack Trace"
                              ("*Stack*: ```" ++ s ++ "```" ++ nl)]
                  | None => []
                  end) |} ];
     post_headers := [("Content-Type", "application/json")] |}.

(** The alert for an error that is a string. *)
Definition alert_for_string (this : LoggerV2.Logger) (env : option string)
  (error : string) (message eventType : option string) (j : json)
  (url : option string) : httpPost :=
  {| post_url := url;
     post_attachments :=
       [ {| fallback := "Alert Event";
            pretext := "*" ++ LoggerV2.customFormat message eventType ++ "*"
                       ++ nl ++ error;
            color := LoggerV2.webhookColor this;
            fields :=
              [ block "Please find details below:"
                  ("*Environment*: `" ++ tpl env ++ "`" ++ nl);
                block "Payload"
                  ("*Payload*: ```" ++ render " " "" j ++ "```" ++ nl) ] |} ];
     post_headers := [("Content-Type", "application/json")] |}.

Lemma append_nil_r (s : string) : s ++ "" = s.
Proof. induction s as [|c s IH]; cbn; [reflexivity | now rewrite IH]. Qed.

Lemma mapField_details_with_message (env msg : string) :
  LoggerV2.mapField
    {| LoggerV2.raw_title := "Please find details below:";
       LoggerV2.raw_code := false;
       LoggerV2.raw_value :=
         [("environment", VStr (LoggerV2.format_ env));
          ("message", VStr msg)] |}
  = Ok (block "Please find details below:"
          ("*Environment*: `" ++ env ++ "`" ++ nl
           ++ "*Message*: " ++ msg ++ nl)).
Proof.
  unfold LoggerV2.mapField, block, LoggerV2.format_. cbn.
  change (LoggerV2.toUpperCase "e") with "E"%char.
  change (LoggerV2.toUpperCase "m") with "M"%char.
  rewrite !append_assoc. cbn. now rewrite ?append_assoc, ?append_nil_r.
Qed.

Lemma mapField_details_without_message (env : string) :
  LoggerV2.mapField
    {| LoggerV2.raw_title := "Please find details below:";
       LoggerV2.raw_code := false;
       LoggerV2.raw_value :=
         [("environment", VStr (LoggerV2.format_ env));
          ("message", VUndef)] |}
  = Ok (block "Please find details below:"
          ("*Environment*: `" ++ env ++ "`" ++ nl)).
Proof.
  unfold LoggerV2.mapField, block, LoggerV2.format_. cbn.
  change (LoggerV2.toUpperCase "e") with "E"%char.
  rewrite !append_assoc. cbn. now rewrite ?append_assoc, ?append_nil_r.
Qed.

Lemma mapField_code (t k text : string) :
  LoggerV2.mapField
    {| LoggerV2.raw_title := t; LoggerV2.raw_code := true;
       LoggerV2.raw_value := [(k, VStr text)] |}
  = Ok (block t ("*" ++ LoggerV2.capitalize k ++ "*: ```" ++ text ++ "```"
                 ++ nl)).
Proof.
  unfold LoggerV2.mapField, block. cbn.
  rewrite ?append_nil_r, ?append_assoc. cbn.
  now rewrite ?append_nil_r, ?append_assoc.
Qed.

(** X16. The text of an alert. For an [Error] instance the details block
    reads "*Environment*: `{env}`" and "*Message*: {message}", one per
    line, the payload block holds the payload as JSON indented by one
    space inside a code fence, and a stack-trace block with the stack in a
    code fence follows when the stack is not empty. For an error that is
    a string the details block has the environment line alone, the
    message being [undefined], and there is no stack-trace block. *)
Theorem postWebhookAlert_text
  (message eventType : option string) (payload : option obj)
  (webhookUrl : option string) (this : LoggerV2.Logger) (w : world)
  (j : json) :
  truthyOpt (LoggerV2.webhookUrl this) || truthyOpt webhookUrl = true ->
  toJSON (VObj (orElse payload [])) = Ok (Some j) ->
  (forall name msg stack,
      fst (LoggerV2.postWebhookAlert (VErr name msg stack) message eventType
             payload webhookUrl (this, w))
      = (this,
         add_post
           (alert_for_Error this (NODE_ENV w) name msg stack message
              eventType j (alert_url this webhookUrl)) w))
  /\ (forall error,
        fst (LoggerV2.postWebhookAlert (VStr error) message eventType payload
               webhookUrl (this, w))
        = (this,
           add_post
             (alert_for_string this (NODE_ENV w) error message eventType j
                (alert_url this webhookUrl)) w)).
Proof.
  intros Hu Hj.
  assert (Eu : negb (truthyOpt (LoggerV2.webhookUrl this))
               && negb (truthyOpt webhookUrl) = false).
  { destruct (truthyOpt (LoggerV2.webhookUrl this));
      destruct (truthyOpt webhookUrl); try reflexivity; discriminate. }
  unfold LoggerV2.postWebhookAlert, tryCatch, LoggerV2.postWebhookAlert_try,
    bindM, getState, lift, ret, LoggerV2.axios_post, LoggerV2.stringify,
    JSON_stringify, alert_for_Error, alert_for_string, alert_url.
  cbn [fst snd]. rewrite Eu, Hj. cbv beta.
  cbn [bind option_map Nat.min spaces optToString ToString primitiveToString
       optGet String.eqb Ascii.eqb Bool.eqb ofOpt].
  change (" " ++ "") with " ".
  split.
  - intros name msg stack.
    destruct stack as [s|]; cbn [truthy];
      [destruct (s =? "")%string|]; cbn [negb app LoggerV2.mapR];
      rewrite mapField_details_with_message, !mapField_code; cbn [bind];
      match goal with
      | |- context [network ?ww ?p] => destruct (network ww p)
      end; reflexivity.
  - intros error. cbn [truthy app LoggerV2.mapR].
    rewrite mapField_details_without_message, !mapField_code. cbn [bind].
    match goal with
    | |- context [network ?ww ?p] => destruct (network ww p)
    end; reflexivity.
Qed.

Lemma postWebhookAlert_text_witness :
  truthyOpt (LoggerV2.webhookUrl lounge_v2)
  || truthyOpt (Some "https://hooks.example/T1") = true
  /\ toJSON (VObj (orElse (Some [("id", VNum 7)]) []))
     = Ok (Some (JObj [("id", JNum 7)]))
  /\ option_map (map field_value)
       (option_map fields
          (hd_error
             (post_attachments
                (last
                   (posts
                      (snd (fst (LoggerV2.postWebhookAlert (VStr "boom")
                                   (Some "m") None (Some [("id", VNum 7)])
                                   (Some "https://hooks.example/T1")
                                   (lounge_v2, production)))))
                   {| post_url := None; post_attachments := [];
                      post_headers := [] |}))))
     = Some [ "*Environment*: `production`" ++ nl;
              "*Payload*: ```{" ++ nl ++ " " ++ quoteJSON "id" ++ ": 7" ++ nl
              ++ "}```" ++ nl ].
Proof.
  split; [reflexivity|]. split; [reflexivity|].
  rewrite (proj2 (postWebhookAlert_text (Some "m") None
                    (Some [("id", VNum 7)])
                    (Some "https://hooks.example/T1") lounge_v2 production
                    (JObj [("id", JNum 7)]) eq_refl eq_refl) "boom").
  reflexivity.
Defined.

(** ** One log stream per UTC day *)

(** The time values a [Date] can hold. *)
Definition in_Date_range (t : Z) : Prop :=
  - 8640000000000000 <= t <= 8640000000000000.

Lemma append_inv_head (a b c : string) : a ++ b = a ++ c -> b = c.
Proof.
  induction a as [|x a IH]; cbn; intros H; [exact H|].
  injection H as H. now apply IH.
Qed.

Lemma digit_mod (a b : Z) :
  DateTime.digit a = DateTime.digit b -> a mod 10 = b mod 10.
Proof.
  unfold DateTime.digit. intros H.
  pose proof (Z.mod_pos_bound a 10 ltac:(lia)) as Ha.
  pose proof (Z.mod_pos_bound b 10 ltac:(lia)) as Hb.
  apply (f_equal nat_of_ascii) in H.
  rewrite !nat_ascii_embedding in H by lia. lia.
Qed.

Lemma digit_not_sign (n : Z) :
  DateTime.digit n <> "-"%char /\ DateTime.digit n <> "+"%char.
Proof.
  unfold DateTime.digit.
  assert (H : (Z.to_nat (n mod 10) < 10)%nat)
    by (pose proof (Z.mod_pos_bound n 10); lia).
  revert H. generalize (Z.to_nat (n mod 10)). intros k H.
  do 10 (destruct k as [|k]; [split; discriminate|]). lia.
Qed.

Lemma pad2_inj (a b : Z) :
  0 <= a < 100 -> 0 <= b < 100 ->
  DateTime.pad2 a = DateTime.pad2 b -> a = b.
Proof.
  unfold DateTime.pad2. intros Ha Hb H. injection H as H1 H0.
  apply digit_mod in H1, H0. Z.div_mod_to_equations; lia.
Qed.

Lemma pad4_inj (a b : Z) :
  0 <= a < 10000 -> 0 <= b < 10000 ->
  DateTime.pad4 a = DateTime.pad4 b -> a = b.
Proof.
  unfold DateTime.pad4, DateTime.pad3, DateTime.pad2. intros Ha Hb H.
  injection H as H3 H2 H1 H0.
  apply digit_mod in H3, H2, H1, H0. Z.div_mod_to_equations; lia.
Qed.

Lemma pad6_inj (a b : Z) :
  0 <= a < 1000000 -> 0 <= b < 1000000 ->
  DateTime.pad6 a = DateTime.pad6 b -> a = b.
Proof.
  unfold DateTime.pad6, DateTime.pad4, DateTime.pad3, DateTime.pad2.
  intros Ha Hb H. injection H as H5 H4 H3 H2 H1 H0.
  apply digit_mod in H5, H4, H3, H2, H1, H0. Z.div_mod_to_equations; lia.
Qed.

Lemma year_in_range (t : Z) :
  in_Date_range t -> - 1000000 < DateTime.YearFromTime t < 1000000.
Proof.
  unfold in_Date_range. intros H.
  pose proof (CalendarFacts.yearFromDay_spec (DateTime.Day t)) as Hy.
  fold (DateTime.YearFromTime t) in Hy.
  assert (Hd : - 100000000 <= DateTime.Day t <= 100000000).
  { unfold DateTime.Day, DateTime.msPerDay. Z.div_mod_to_equations; lia. }
  revert Hy Hd. generalize (DateTime.YearFromTime t) (DateTime.Day t).
  intros y d Hy Hd. unfold DateTime.DayFromYear in Hy.
  Z.div_mod_to_equations; lia.
Qed.

(** The printed date tells year, month and day apart. *)
Lemma isoDate_parts (y1 m1 d1 y2 m2 d2 : Z) :
  - 1000000 < y1 < 1000000 -> - 1000000 < y2 < 1000000 ->
  0 <= m1 < 100 -> 0 <= m2 < 100 -> 0 <= d1 < 100 -> 0 <= d2 < 100 ->
  DateTime.isoYear y1 ++ "-" ++ DateTime.pad2 m1 ++ "-" ++ DateTime.pad2 d1
  = DateTime.isoYear y2 ++ "-" ++ DateTime.pad2 m2 ++ "-" ++ DateTime.pad2 d2
  -> y1 = y2 /\ m1 = m2 /\ d1 = d2.
Proof.
  intros Hy1 Hy2 Hm1 Hm2 Hd1 Hd2 H.
  assert (Hrest : forall a b,
             "-" ++ DateTime.pad2 m1 ++ "-" ++ a
             = "-" ++ DateTime.pad2 m2 ++ "-" ++ b ->
             DateTime.pad2 m1 = DateTime.pad2 m2 /\ a = b).
  { intros a b E. unfold DateTime.pad2 in *. cbn [append] in E.
    injection E as E1 E0 Er. split; congruence. }
  unfold DateTime.isoYear in H.
  destruct ((0 <=? y1) && (y1 <=? 9999)) eqn:E1;
    destruct ((0 <=? y2) && (y2 <=? 9999)) eqn:E2.
  - assert (Hp : DateTime.pad4 y1 = DateTime.pad4 y2
                 /\ "-" ++ DateTime.pad2 m1 ++ "-" ++ DateTime.pad2 d1
                    = "-" ++ DateTime.pad2 m2 ++ "-" ++ DateTime.pad2 d2).
    { unfold DateTime.pad4, DateTime.pad3, DateTime.pad2 in *. cbn [append] in H.
      injection H as H3 H2 H1 H0 Hr. split; [congruence|].
      cbn [append]. congruence. }
    destruct Hp as [Hp Hr]. destruct (Hrest _ _ Hr) as [Hm Hd].
    apply andb_true_iff in E1 as [A1 B1]. apply andb_true_iff in E2 as [A2 B2].
    split; [apply pad4_inj; trivial; lia|].
    split; [now apply pad2_inj | now apply pad2_inj].
  - exfalso. unfold DateTime.pad4 in H.
    destruct (y2 <? 0); cbn [append] in H; injection H as H _;
      now apply (digit_not_sign (y1 / 1000)) in H.
  - exfalso. unfold DateTime.pad4 in H.
    destruct (y1 <? 0); cbn [append] in H; injection H as H _; symmetry in H;
      now apply (digit_not_sign (y2 / 1000)) in H.
  - assert (Hp : (y1 <? 0) = (y2 <? 0)
                 /\ DateTime.pad6 (Z.abs y1) = DateTime.pad6 (Z.abs y2)
                 /\ "-" ++ DateTime.pad2 m1 ++ "-" ++ DateTime.pad2 d1
                    = "-" ++ DateTime.pad2 m2 ++ "-" ++ DateTime.pad2 d2).
    { unfold DateTime.pad6, DateTime.pad4, DateTime.pad3, DateTime.pad2 in *.
      destruct (y1 <? 0), (y2 <? 0); cbn [append] in H; try discriminate;
        injection H as H5 H4 H3 H2 H1 H0 Hr;
        (split; [reflexivity|]); (split; [congruence|]); cbn [append]; congruence. }
    destruct Hp as (Hs & Hp & Hr). destruct (Hrest _ _ Hr) as [Hm Hd].
    apply pad6_inj in Hp; [|lia|lia].
    split; [|split; [now apply pad2_inj | now apply pad2_inj]].
    destruct (Z.ltb_spec y1 0), (Z.ltb_spec y2 0); try discriminate; lia.
Qed.

Lemma isoDate_of_day (t1 t2 : Z) :
  DateTime.Day t1 = DateTime.Day t2 ->
  DateTime.isoDate t1 = DateTime.isoDate t2.
Proof.
  intros H.
  unfold DateTime.isoDate, DateTime.DateFromTime, DateTime.MonthFromTime,
    DateTime.DayWithinYear, DateTime.InLeapYear, DateTime.YearFromTime.
  now rewrite H.
Qed.

Lemma day_of_isoDate (t1 t2 : Z) :
  in_Date_range t1 -> in_Date_range t2 ->
  DateTime.isoDate t1 = DateTime.isoDate t2 ->
  DateTime.Day t1 = DateTime.Day t2.
Proof.
  intros R1 R2 H.
  pose proof (CalendarFacts.date_of_time t1) as (_ & M1 & D1 & E1).
  pose proof (CalendarFacts.date_of_time t2) as (_ & M2 & D2 & E2).
  assert (B : forall m l, 0 <= l -> 1 <= m + 1 <= 12 ->
             Calendar.daysInMonth (m + 1 - 1) l <= 31 + l).
  { intros m l Hl Hm. replace (m + 1 - 1) with m by lia.
    assert (Hc : m = 0 \/ m = 1 \/ m = 2 \/ m = 3 \/ m = 4 \/ m = 5 \/ m = 6
                 \/ m = 7 \/ m = 8 \/ m = 9 \/ m = 10 \/ m = 11) by lia.
    repeat (destruct Hc as [->|Hc]; [unfold Calendar.daysInMonth; lia|]).
    subst. unfold Calendar.daysInMonth. lia. }
  pose proof (CalendarFacts.DaysInYear_cases (DateTime.YearFromTime t1)) as L1.
  pose proof (CalendarFacts.DaysInYear_cases (DateTime.YearFromTime t2)) as L2.
  pose proof (B _ (DateTime.DaysInYear (DateTime.YearFromTime t1) - 365)
                ltac:(lia) M1).
  pose proof (B _ (DateTime.DaysInYear (DateTime.YearFromTime t2) - 365)
                ltac:(lia) M2).
  destruct (isoDate_parts
              (DateTime.YearFromTime t1) (DateTime.MonthFromTime t1 + 1)
              (DateTime.DateFromTime t1)
              (DateTime.YearFromTime t2) (DateTime.MonthFromTime t2 + 1)
              (DateTime.DateFromTime t2)) as (Ey & Em & Ed);
    try (apply year_in_range; assumption); try lia; [exact H|].
  rewrite E1, E2, Ey, Em, Ed. reflexivity.
Qed.

(** X17. One log stream per UTC day: for instants a [Date] can hold, two
    requests for a stream name get the same name exactly when they fall
    on the same UTC day, so that no stream spans two days and no two days
    share a stream under one tag. *)
Theorem logStreamName_per_day (tag : string) (t1 t2 : Z) :
  in_Date_range t1 -> in_Date_range t2 ->
  (logStreamName tag t1 = logStreamName tag t2
   <-> t1 / 86400000 = t2 / 86400000).
Proof.
  intros R1 R2. rewrite !logStreamName_isoDate.
  change (t1 / 86400000) with (DateTime.Day t1).
  change (t2 / 86400000) with (DateTime.Day t2).
  split.
  - intros H. apply append_inv_head in H. apply append_inv_head in H.
    now apply day_of_isoDate.
  - intros H. now rewrite (isoDate_of_day t1 t2 H).
Qed.

Lemma logStreamName_per_day_witness :
  in_Date_range 1714521600000 /\ in_Date_range 1714607999999
  /\ logStreamName "lounge" 1714521600000
     = logStreamName "lounge" 1714607999999.
Proof.
  assert (R1 : in_Date_range 1714521600000) by (unfold in_Date_range; lia).
  assert (R2 : in_Date_range 1714607999999) by (unfold in_Date_range; lia).
  split; [exact R1|]. split; [exact R2|].
  apply (proj2 (logStreamName_per_day "lounge" _ _ R1 R2)). reflexivity.
Defined.
